(** * L-Store storage engine (lstore): a shallow embedding and its properties

    The development follows the Python sources module by module:
    [page.py], [disk_helper.py], [cache.py], [index.py], [table.py],
    [query.py] and [transaction.py].  Python objects that are mutated
    through several references (the [bytearray] behind a [Page]) live in
    an explicit object store; exceptions are results that keep the state
    reached when they were raised. *)

From Stdlib Require Import ZArith List Lia Bool.
From stdpp Require Import gmap list.
From coqutil Require Import Word.LittleEndianList Byte.

Open Scope Z_scope.

(** ** Errors and the state-and-exception monad *)

(** The exceptions the sources raise.  The first group carries the
    [ValueError]s of the engine under the names of the error kinds. *)
Inductive error :=
| OutOfBounds          (* page.py: start offset is out of range; disk_helper.py: Write Page Out of Bound *)
| BadWordSize          (* page.py: writing with incompatible word size *)
| UnknownRangeType     (* page.py / cache.py: unrecognized range_type *)
| DuplicateKey         (* index.py: Cannot update to primary key that already exists *)
| NotIndexed           (* index.py: Index hasn't been built for this column yet *)
| SchemaMismatch       (* index.py: Map Insert incompatible num columns *)
| OldKeyMissing        (* index.py: Index Error: old key not exist *)
| BadFileSize          (* disk_helper.py: File size is not a multiple of PAGESIZE *)
| IOFailure            (* open() of a file that does not exist *)
| StructError          (* struct.error of pack / unpack *)
| TypeError            (* iterating or subscripting None, unhashable key *)
| IndexError           (* list / tuple index out of range *)
| KeyError             (* missing dict key, popitem on an empty dict *)
| ItemNotFound         (* list.remove of an absent item *)
| AttributeError       (* attribute of None *)
| ZeroDivisionError
| OutOfFuel.           (* not a Python exception: the loop bound of the model ran out *)

Inductive result (A : Type) :=
| Ok (a : A)
| Err (e : error).
Arguments Ok {A} a.
Arguments Err {A} e.

Definition M (S A : Type) : Type := S -> result A * S.

Definition ret {S A} (a : A) : M S A := fun s => (Ok a, s).

Definition raise {S A} (e : error) : M S A := fun s => (Err e, s).

Definition bind {S A B} (m : M S A) (f : A -> M S B) : M S B :=
  fun s => match m s with
           | (Ok a, s') => f a s'
           | (Err e, s') => (Err e, s')
           end.

Definition lift_result {S A} (r : result A) : M S A := fun s => (r, s).

Definition gets {S A} (f : S -> A) : M S A := fun s => (Ok (f s), s).

Definition modify {S} (f : S -> S) : M S unit := fun s => (Ok tt, f s).

(** Run a computation on a component of the state. *)
Definition zoom {S T A} (proj : T -> S) (inj : S -> T -> T) (m : M S A) : M T A :=
  fun t => let (r, s') := m (proj t) in (r, inj s' t).

Notation "x <- c1 ;; c2" := (bind c1 (fun x => c2))
  (at level 100, c1 at next level, right associativity).
Notation "c1 ;;; c2" := (bind c1 (fun _ => c2))
  (at level 100, right associativity).

Definition rbind {A B} (r : result A) (f : A -> result B) : result B :=
  match r with
  | Ok a => f a
  | Err e => Err e
  end.

(** [for x in l: body x] *)
Fixpoint for_each {S A} (l : list A) (body : A -> M S unit) : M S unit :=
  match l with
  | [] => ret tt
  | x :: l' => body x ;;; for_each l' body
  end.

(** [[f x for x in l]] with an effectful [f] *)
Fixpoint map_M {S A B} (f : A -> M S B) (l : list A) : M S (list B) :=
  match l with
  | [] => ret []
  | x :: l' => y <- f x ;; ys <- map_M f l' ;; ret (y :: ys)
  end.

(** [enumerate(l)] *)
Definition enumerate {A} (l : list A) : list (Z * A) :=
  zip (Z.of_nat <$> seq 0 (length l)) l.

(** ** Configuration ([lstore/config.py]) *)

(** Modelled from the spec: [config.py] is not among the sources; section 6
    of the specification gives the page size of the source. *)
Definition PAGESIZE : Z := 4096.

(** Modelled from the spec: [config.py] is not among the sources; the source
    uses 8-byte words, the size of every [pack('Q', _)] and [pack('II', _, _)]. *)
Definition WORDSIZE : Z := 8.

(** ** Bytes, [struct.pack] and [struct.unpack] *)

Abbreviation bytes := (list byte).

#[global] Instance byte_eq_dec : EqDecision byte := Byte.byte_eq_dec.

(** [pack('Q', n)]: unsigned 64-bit, little endian *)
Definition pack_Q (n : Z) : result bytes :=
  if decide (0 <= n < 2 ^ 64) then Ok (le_split 8 n) else Err StructError.

(** [unpack('Q', w)[0]] *)
Definition unpack_Q (w : bytes) : result Z :=
  if decide (length w = 8%nat) then Ok (le_combine w) else Err StructError.

(** [unpack_from('Q', buf)[0]]: the first eight bytes of a buffer *)
Definition unpack_from_Q (buf : bytes) : result Z :=
  if decide (8 <= length buf)%nat then Ok (le_combine (take 8 buf)) else Err StructError.

(** [pack('q', n)]: signed 64-bit, little endian *)
Definition pack_q (n : Z) : result bytes :=
  if decide (- 2 ^ 63 <= n < 2 ^ 63) then Ok (le_split 8 n) else Err StructError.

(** [unpack('q', w)[0]] *)
Definition unpack_q (w : bytes) : result Z :=
  if decide (length w = 8%nat) then
    let u := le_combine w in
    Ok (if decide (u < 2 ^ 63) then u else u - 2 ^ 64)
  else Err StructError.

(** [pack('II', a, b)]: two unsigned 32-bit fields *)
Definition pack_II (a b : Z) : result bytes :=
  if decide (0 <= a < 2 ^ 32 /\ 0 <= b < 2 ^ 32)
  then Ok (le_split 4 a ++ le_split 4 b) else Err StructError.

(** [unpack('II', w)] *)
Definition unpack_II (w : bytes) : result (Z * Z) :=
  if decide (length w = 8%nat)
  then Ok (le_combine (take 4 w), le_combine (drop 4 w)) else Err StructError.

(** Python slices: an index is counted from the end when negative and
    clamped to the buffer. *)
Definition clamp_index (n i : Z) : Z :=
  if decide (i < 0) then Z.max 0 (i + n) else Z.min i n.

(** [buf[start:stop]] *)
Definition getslice (buf : bytes) (start stop : Z) : bytes :=
  let n := Z.of_nat (length buf) in
  let s := clamp_index n start in
  let e := clamp_index n stop in
  take (Z.to_nat (e - s)) (drop (Z.to_nat s) buf).

(** [buf[start:stop] = w] on a [bytearray]: the slice is replaced by
    [w], whatever the two lengths are. *)
Definition setslice (buf : bytes) (start stop : Z) (w : bytes) : bytes :=
  let n := Z.of_nat (length buf) in
  let s := clamp_index n start in
  let e := Z.max s (clamp_index n stop) in
  take (Z.to_nat s) buf ++ w ++ drop (Z.to_nat e) buf.

(** ** The object store *)

(** A [bytearray] is a mutable object: a [Page] and its [copy] share it.
    The store maps an object identity to the current contents. *)
Abbreviation loc := nat (only parsing).
Abbreviation heap := (list bytes) (only parsing).

Definition alloc (b : bytes) : M heap loc :=
  fun h => (Ok (length h), h ++ [b]).

Definition deref (l : loc) : M heap bytes :=
  fun h => (Ok (default [] (h !! l)), h).

Definition assign (l : loc) (b : bytes) : M heap unit :=
  fun h => (Ok tt, <[l := b]> h).

(** ** [page.py] *)

Inductive range_type := base | tail.

#[global] Instance range_type_eq_dec : EqDecision range_type.
Proof. solve_decision. Defined.

#[global] Instance range_type_countable : Countable range_type.
Proof.
  refine (inj_countable' (fun r => match r with base => true | tail => false end)
                         (fun b : bool => if b then base else tail) _).
  intros []; reflexivity.
Defined.

(** A [Page] object: a reference to its [bytearray] and the counter
    attribute.  [copy(page)] is the same record again: a shallow copy. *)
Record Page := mkPage { data : loc; num_records : Z }.

Definition copy (p : Page) : Page := p.

(** [Page.write_field] *)
Definition Page_write_field (p : Page) (start_offset : Z) (new_word : bytes)
  : M heap unit :=
  if decide (Z.of_nat (length new_word) <> WORDSIZE) then raise BadWordSize
  else
    d <- deref (data p) ;;
    assign (data p) (setslice d start_offset (start_offset + WORDSIZE) new_word).

(** [Page.read_field] *)
Definition Page_read_field (p : Page) (start_offset : Z) : M heap bytes :=
  if decide (start_offset < 0 \/ start_offset + WORDSIZE > PAGESIZE)
  then raise OutOfBounds
  else
    d <- deref (data p) ;;
    ret (getslice d start_offset (start_offset + WORDSIZE)).

(** [Page.__init__(range_type, data)]; [range_type = None] stands for the
    default [''], which is neither ['base'] nor ['tail']. *)
Definition Page_init (rt : option range_type) (init : bytes) : M heap Page :=
  if decide (Z.of_nat (length init) = PAGESIZE) then
    l <- alloc init ;;
    n <- lift_result (unpack_from_Q init) ;;
    ret (mkPage l n)
  else
    l <- alloc (replicate (Z.to_nat PAGESIZE) Byte.x00) ;;
    n <- match rt with
         | Some base => ret 2
         | Some tail => ret 1
         | None => raise UnknownRangeType
         end ;;
    w <- lift_result (pack_Q n) ;;
    Page_write_field (mkPage l n) 0 w ;;;
    ret (mkPage l n).

(** ** [disk_helper.py] *)

(** The column files, by range and column: the file
    ["{appendix}_{b|t}_{column}"] and its contents. *)
Abbreviation files := (gmap (range_type * Z) bytes).

(** What lives outside the engine's own objects: the [bytearray]s and
    the file system. *)
Record World := mkWorld { objects : list bytes; disk : files }.

Definition set_objects (h : list bytes) (w : World) : World :=
  mkWorld h (disk w).

Definition set_disk (d : files) (w : World) : World :=
  mkWorld (objects w) d.

Definition in_heap {A} (m : M heap A) : M World A :=
  zoom objects set_objects m.

(** [file.seek(pos); file.read(n)] *)
Definition file_read (f : bytes) (pos n : Z) : bytes :=
  take (Z.to_nat n) (drop (Z.to_nat pos) f).

(** [file.seek(pos); file.write(d)] for [pos] inside the file *)
Definition file_write (f : bytes) (pos : Z) (d : bytes) : bytes :=
  take (Z.to_nat pos) f ++ d ++ drop (Z.to_nat pos + length d) f.

(** [DiskHelper.__open_file]: the contents of the file (its size is their
    length); opening a file that was never created fails. *)
Definition DiskHelper__open_file (column : Z) (rt : range_type) : M World bytes :=
  fun w => match disk w !! (rt, column) with
           | Some f => (Ok f, w)
           | None => (Err IOFailure, w)
           end.

Definition store_file (column : Z) (rt : range_type) (f : bytes) : M World unit :=
  modify (fun w => set_disk (<[(rt, column) := f]> (disk w)) w).

(** [DiskHelper.read_page] *)
Definition DiskHelper_read_page (rt : range_type) (page_index column : Z)
  : M World Page :=
  f <- DiskHelper__open_file column rt ;;
  let size := Z.of_nat (length f) in
  (if decide (page_index >= size / PAGESIZE) then
     new_page <- in_heap (Page_init (Some rt) []) ;;
     d <- in_heap (deref (data new_page)) ;;
     let new_bytes := mjoin (replicate (Z.to_nat (page_index + 1)) d) in
     store_file column rt (f ++ new_bytes)
   else ret tt) ;;;
  f' <- DiskHelper__open_file column rt ;;
  in_heap (Page_init None (file_read f' (page_index * PAGESIZE) PAGESIZE)).

(** [DiskHelper.write_page] *)
Definition DiskHelper_write_page (rt : range_type) (page_index column : Z)
    (to_write : Page) : M World unit :=
  f <- DiskHelper__open_file column rt ;;
  let size := Z.of_nat (length f) in
  if decide (page_index >= size / PAGESIZE) then raise OutOfBounds
  else
    d <- in_heap (deref (data to_write)) ;;
    store_file column rt (file_write f (page_index * PAGESIZE) d).

(** One round of the loop of [DiskHelper.get_last_rids] *)
Definition last_rid_of (rt : range_type) : M World bytes :=
  f <- DiskHelper__open_file 0 rt ;;
  let size := Z.of_nat (length f) in
  if decide (size mod PAGESIZE <> 0) then raise BadFileSize
  else if decide (size = 0) then
    lift_result (pack_II 0 (match rt with base => 8 | tail => 0 end))
  else
    let last_page_index := size / PAGESIZE - 1 in
    num_records <- lift_result
      (unpack_Q (file_read f (last_page_index * PAGESIZE) WORDSIZE)) ;;
    lift_result (pack_II last_page_index (num_records * WORDSIZE)).

(** [DiskHelper.get_last_rids] *)
Definition DiskHelper_get_last_rids : M World (bytes * bytes) :=
  b <- last_rid_of base ;;
  t <- last_rid_of tail ;;
  ret (b, t).

(** ** [cache.py] *)

(** A page key ['base|tail-(page_index)-(column_index)'], kept as the
    triple it is generated from and parsed back into. *)
Abbreviation page_key := (range_type * Z * Z)%type.

(** [collections.OrderedDict] as an association list, oldest entry first. *)
Section OrderedDict.
Context {K V : Type} `{EqDecision K}.

Fixpoint od_get (d : list (K * V)) (k : K) : option V :=
  match d with
  | [] => None
  | (k', v) :: d' => if decide (k' = k) then Some v else od_get d' k
  end.

(** [del d[k]] *)
Fixpoint od_del (d : list (K * V)) (k : K) : list (K * V) :=
  match d with
  | [] => []
  | (k', v) :: d' => if decide (k' = k) then od_del d' k else (k', v) :: od_del d' k
  end.

(** [d[k] = v]: a present key keeps its place *)
Fixpoint od_set (d : list (K * V)) (k : K) (v : V) : list (K * V) :=
  match d with
  | [] => [(k, v)]
  | (k', v') :: d' =>
      if decide (k' = k) then (k, v) :: d' else (k', v') :: od_set d' k v
  end.

(** [d.move_to_end(k)] for a present key *)
Definition od_move_to_end (d : list (K * V)) (k : K) : list (K * V) :=
  match od_get d k with
  | Some v => od_del d k ++ [(k, v)]
  | None => d
  end.
End OrderedDict.

Record Cache := mkCache {
  size : Z;
  cache : list (page_key * (bool * Page));
  last_rid_base : bytes;
  last_rid_tail : bytes;
  world : World
}.

Definition set_cache (d : list (page_key * (bool * Page))) (c : Cache) : Cache :=
  mkCache (size c) d (last_rid_base c) (last_rid_tail c) (world c).

Definition set_world (w : World) (c : Cache) : Cache :=
  mkCache (size c) (cache c) (last_rid_base c) (last_rid_tail c) w.

Definition last_rid (c : Cache) (rt : range_type) : bytes :=
  match rt with base => last_rid_base c | tail => last_rid_tail c end.

Definition set_last_rid (rt : range_type) (rid : bytes) (c : Cache) : Cache :=
  match rt with
  | base => mkCache (size c) (cache c) rid (last_rid_tail c) (world c)
  | tail => mkCache (size c) (cache c) (last_rid_base c) rid (world c)
  end.

Definition in_world {A} (m : M World A) : M Cache A :=
  zoom world set_world m.

(** [Cache.__init__]: the allocator starts from what the files hold. *)
Definition Cache_init (size : Z) (w : World) : result Cache :=
  match DiskHelper_get_last_rids w with
  | (Ok (last_base_rid, last_tail_rid), w') =>
      Ok (mkCache size [] last_base_rid last_tail_rid w')
  | (Err e, _) => Err e
  end.

(** [Cache.get_new_rid] *)
Definition Cache_get_new_rid (rt : range_type) : M Cache bytes :=
  last <- gets (fun c => last_rid c rt) ;;
  pr <- lift_result (unpack_II last) ;;
  let page_index := pr.1 in
  let byte_offset := pr.2 in
  let entry_offset := byte_offset / WORDSIZE + 1 in
  let next :=
    if decide (entry_offset = PAGESIZE / WORDSIZE)
    then (page_index + 1, match rt with base => 2 | tail => 1 end)
    else (page_index, entry_offset) in
  new_rid <- lift_result (pack_II next.1 (next.2 * WORDSIZE)) ;;
  modify (set_last_rid rt new_rid) ;;;
  ret new_rid.

(** [Cache.__set_page] *)
Definition Cache__set_page (key : page_key) (val : Page) : M Cache unit :=
  modify (fun c => match od_get (cache c) key with
                   | Some _ => set_cache (od_del (cache c) key) c
                   | None => c
                   end) ;;;
  modify (fun c => set_cache (od_set (cache c) key (true, val)) c) ;;;
  c <- gets id ;;
  if decide (Z.of_nat (length (cache c)) > size c) then
    match cache c with
    | (k, (is_dirty, page)) :: rest =>
        modify (set_cache rest) ;;;
        if negb is_dirty then ret tt
        else
          let '(rt, page_index, column) := k in
          in_world (DiskHelper_write_page rt page_index column page)
    | [] => raise KeyError
    end
  else ret tt.

(** [Cache.__get_page] *)
Definition Cache__get_page (key : page_key) : M Cache Page :=
  let '(rt, page_index, column) := key in
  c <- gets cache ;;
  match od_get c key with
  | None =>
      target_page <- in_world (DiskHelper_read_page rt page_index column) ;;
      Cache__set_page key target_page ;;;
      modify (fun c => set_cache (od_set (cache c) key (false, target_page)) c) ;;;
      ret target_page
  | Some _ =>
      modify (fun c => set_cache (od_move_to_end (cache c) key) c) ;;;
      c' <- gets cache ;;
      match od_get c' key with
      | Some (_, ret_page) => ret ret_page
      | None => raise KeyError
      end
  end.

(** [Cache.get_page] *)
Definition Cache_get_page (rt : range_type) (page_index column : Z) : M Cache Page :=
  Cache__get_page (rt, page_index, column).

(** [Cache.set_page] *)
Definition Cache_set_page (rt : range_type) (page_index column : Z) (new_page : Page)
  : M Cache unit :=
  Cache__set_page (rt, page_index, column) new_page.

(** [Cache.get_entry] *)
Definition Cache_get_entry (rt : range_type) (rid : bytes) (query_column : Z)
  : M Cache bytes :=
  pr <- lift_result (unpack_II rid) ;;
  target_page <- Cache_get_page rt pr.1 query_column ;;
  in_world (in_heap (Page_read_field target_page pr.2)).

(** [pack_into('Q', buf, 0, n)]: the first word of the buffer, in place *)
Definition pack_into_Q (l : loc) (n : Z) : M heap unit :=
  w <- lift_result (pack_Q n) ;;
  d <- deref l ;;
  if decide (length d < 8)%nat then raise StructError
  else assign l (w ++ drop 8 d).

(** [Cache.set_entry]; [data = None] is the default of the source. *)
Definition Cache_set_entry (rt : range_type) (rid : bytes) (query_column : Z)
    (new_data : option bytes) (is_append : bool) : M Cache unit :=
  pr <- lift_result (unpack_II rid) ;;
  let page_index := pr.1 in
  let page_offset := pr.2 in
  p <- Cache_get_page rt page_index query_column ;;
  let target_page := copy p in
  let key := (rt, page_index, query_column) in
  target_page <-
    (if is_append then
       let bumped := mkPage (data target_page) (num_records target_page + 1) in
       in_world (in_heap (pack_into_Q (data bumped) (num_records bumped))) ;;;
       ret bumped
     else ret target_page) ;;
  match new_data with
  | None => ret tt
  | Some d =>
      in_world (in_heap (Page_write_field target_page page_offset d)) ;;;
      Cache__set_page key target_page
  end.

(** [Cache.last_page_index] *)
Definition Cache_last_page_index (rt : range_type) : M Cache Z :=
  last <- gets (fun c => last_rid c rt) ;;
  pr <- lift_result (unpack_II last) ;;
  ret pr.1.

(** ** Python lists *)

(** [l[i]]: a negative index counts from the end. *)
Definition py_nth {A} (l : list A) (i : Z) : result A :=
  let n := Z.of_nat (length l) in
  let j := if decide (i < 0) then i + n else i in
  if decide (0 <= j < n) then
    match l !! Z.to_nat j with
    | Some x => Ok x
    | None => Err IndexError
    end
  else Err IndexError.

(** [l[i] = x] *)
Definition py_set {A} (l : list A) (i : Z) (x : A) : result (list A) :=
  let n := Z.of_nat (length l) in
  let j := if decide (i < 0) then i + n else i in
  if decide (0 <= j < n) then Ok (<[Z.to_nat j := x]> l) else Err IndexError.

(** [range(n)] *)
Definition py_range (n : Z) : list Z :=
  Z.of_nat <$> seq 0 (Z.to_nat n).

(** [range(start, stop, step)] for a step of 1 or -1 *)
Definition py_range3 (start stop step : Z) : list Z :=
  if decide (0 < step)
  then (fun i => start + Z.of_nat i) <$> seq 0 (Z.to_nat (stop - start))
  else (fun i => start - Z.of_nat i) <$> seq 0 (Z.to_nat (start - stop)).

(** [l.remove(x)]: the first occurrence *)
Fixpoint list_remove {A} `{EqDecision A} (l : list A) (x : A) : option (list A) :=
  match l with
  | [] => None
  | y :: l' => if decide (y = x) then Some l' else (y ::.) <$> list_remove l' x
  end.

(** ** [index.py] *)

(** A Python [dict] keeps its keys in insertion order; the column values
    that serve as keys are integers or [None]. *)
Abbreviation index_map := (list (option Z * list bytes)).

Record Index := mkIndex {
  num_features : Z;
  index_created : list bool;
  map_list : list index_map;
  primary_key_index : Z
}.

Definition set_index_created (l : list bool) (ix : Index) : Index :=
  mkIndex (num_features ix) l (map_list ix) (primary_key_index ix).

Definition set_map_list (l : list index_map) (ix : Index) : Index :=
  mkIndex (num_features ix) (index_created ix) l (primary_key_index ix).

(** [Index.__init__] *)
Definition Index_init (num_columns primary_key_index : Z) : result Index :=
  let created := replicate (Z.to_nat num_columns) false in
  rbind (py_set created primary_key_index true) (fun created' =>
  Ok (mkIndex num_columns created'
        (replicate (Z.to_nat num_columns) []) primary_key_index)).

(** [self.map_list[feature_index][key] = rids] *)
Definition put_bucket (feature_index : Z) (key : option Z) (rids : list bytes)
  : M Index unit :=
  ml <- gets map_list ;;
  m <- lift_result (py_nth ml feature_index) ;;
  ml' <- lift_result (py_set ml feature_index (od_set m key rids)) ;;
  modify (set_map_list ml').

(** [del self.map_list[feature_index][key]] *)
Definition del_bucket (feature_index : Z) (key : option Z) : M Index unit :=
  ml <- gets map_list ;;
  m <- lift_result (py_nth ml feature_index) ;;
  match od_get m key with
  | None => raise KeyError
  | Some _ =>
      ml' <- lift_result (py_set ml feature_index (od_del m key)) ;;
      modify (set_map_list ml')
  end.

(** The record object of [table.py], used in the interfaces of the index,
    the table and the queries. *)
Record Record_ := mkRecord {
  rid : bytes;
  key : Z;
  columns : list (option Z);
  rec_range_type : range_type
}.

(** [Index.map_insert] *)
Definition Index_map_insert (new_record : Record_) : M Index unit :=
  nf <- gets num_features ;;
  if decide (Z.of_nat (length (columns new_record)) <> nf) then raise SchemaMismatch
  else
    let base_rid := rid new_record in
    for_each (enumerate (columns new_record)) (fun '(feature_index, new_key) =>
      created <- gets index_created ;;
      is_created <- lift_result (py_nth created feature_index) ;;
      if negb is_created then ret tt
      else
        pk <- gets primary_key_index ;;
        ml <- gets map_list ;;
        m <- lift_result (py_nth ml feature_index) ;;
        if decide (feature_index = pk) then
          match od_get m new_key with
          | Some _ => raise DuplicateKey
          | None => put_bucket feature_index new_key [base_rid]
          end
        else
          match od_get m new_key with
          | Some rids => put_bucket feature_index new_key (rids ++ [base_rid])
          | None => put_bucket feature_index new_key [base_rid]
          end).

(** [Index.map_change] *)
Definition Index_map_change (base_rid : bytes)
    (old_feature new_feature : list (option Z)) : M Index unit :=
  nf <- gets num_features ;;
  for_each (py_range nf) (fun feature_index =>
    created <- gets index_created ;;
    is_created <- lift_result (py_nth created feature_index) ;;
    if negb is_created then ret tt
    else
      old_key <- lift_result (py_nth old_feature feature_index) ;;
      new_key <- lift_result (py_nth new_feature feature_index) ;;
      ml <- gets map_list ;;
      m <- lift_result (py_nth ml feature_index) ;;
      match od_get m old_key with
      | None => raise OldKeyMissing
      | Some old_rids =>
          if decide (new_key = None \/ new_key = old_key) then ret tt
          else
            pk <- gets primary_key_index ;;
            if decide (feature_index = pk) then
              match od_get m new_key with
              | Some _ => raise DuplicateKey
              | None =>
                  del_bucket feature_index old_key ;;;
                  put_bucket feature_index new_key [base_rid]
              end
            else
              match list_remove old_rids base_rid with
              | None => raise ItemNotFound
              | Some rest =>
                  put_bucket feature_index old_key rest ;;;
                  m' <- gets (fun ix => py_nth (map_list ix) feature_index) ;;
                  m' <- lift_result m' ;;
                  match od_get m' new_key with
                  | Some rids => put_bucket feature_index new_key (rids ++ [base_rid])
                  | None => put_bucket feature_index new_key [base_rid]
                  end
              end
      end).

(** [Index.map_delete] *)
Definition Index_map_delete (old_key : Z) : M Index unit :=
  pk <- gets primary_key_index ;;
  del_bucket pk (Some old_key).

(** [Index.locate]: [None] of the source is [None] here. *)
Definition Index_locate (key : Z) (feature_index : Z) : M Index (option (list bytes)) :=
  created <- gets index_created ;;
  is_created <- lift_result (py_nth created feature_index) ;;
  if negb is_created then raise NotIndexed
  else
    ml <- gets map_list ;;
    m <- lift_result (py_nth ml feature_index) ;;
    match od_get m (Some key) with
    | None => ret None
    | Some ans => if decide (length ans = 0%nat) then ret None else ret (Some ans)
    end.

(** [Index.drop_index] *)
Definition Index_drop_index (column_number : Z) : M Index unit :=
  created <- gets index_created ;;
  created' <- lift_result (py_set created column_number false) ;;
  modify (set_index_created created') ;;;
  ml <- gets map_list ;;
  ml' <- lift_result (py_set ml column_number []) ;;
  modify (set_map_list ml').

(** ** [lock_manager.py] *)

Inductive lock_type := reader | writer.

#[global] Instance lock_type_eq_dec : EqDecision lock_type.
Proof. solve_decision. Defined.

(** Modelled from the spec: the [readerwriterlock] package is not among the
    sources.  A lock is shared for readers and exclusive for a writer, and
    an acquisition that cannot succeed at once fails (section 4.5): the
    state of a lock is the number of readers and whether a writer holds it. *)
Definition rw_acquire (kind : lock_type) (l : nat * bool) : option (nat * bool) :=
  match kind, l with
  | reader, (n, false) => Some (S n, false)
  | writer, (O, false) => Some (O, true)
  | _, _ => None
  end.

(** Modelled from the spec: releasing a lock of the [readerwriterlock]
    package, which is not among the sources. *)
Definition rw_release (kind : lock_type) (l : nat * bool) : nat * bool :=
  match kind with
  | reader => (Nat.pred l.1, l.2)
  | writer => (l.1, false)
  end.

Abbreviation LockManager := (list (Z * (nat * bool))).

(** [LockManager.acquire]: the handle of the lock, or [None] *)
Definition LockManager_acquire (pkey : Z) (kind : lock_type)
  : M LockManager (option (Z * lock_type)) :=
  modify (fun lm => match od_get lm pkey with
                    | Some _ => lm
                    | None => od_set lm pkey (O, false)
                    end) ;;;
  lm <- gets id ;;
  match od_get lm pkey with
  | None => raise KeyError
  | Some l =>
      match rw_acquire kind l with
      | None => ret None
      | Some l' => modify (fun lm => od_set lm pkey l') ;;; ret (Some (pkey, kind))
      end
  end.

(** [LockManager.release] *)
Definition LockManager_release (lock : Z * lock_type) : M LockManager unit :=
  modify (fun lm => match od_get lm lock.1 with
                    | Some l => od_set lm lock.1 (rw_release lock.2 l)
                    | None => lm
                    end).

(** ** [table.py] *)

Definition RID_COLUMN : Z := 0.
Definition INDIRECTION_COLUMN : Z := 1.
Definition SCHEMA_ENCODING_COLUMN : Z := 2.
Definition TIMESTAMP_COLUMN : Z := 3.
Definition NUM_INTERNAL_COLUMN : Z := 4.

(** [pack('Q', 0xFFFFFFFFFFFFFFFF)] *)
Definition INVALID_RID : bytes := le_split 8 (2 ^ 64 - 1).

Record Table := mkTable {
  key_index : Z;
  num_columns : Z;
  index : Index;
  t_cache : Cache;
  lock_manager : LockManager;
  merge_queue_matrix : list (list (list (bytes * bytes)));
  merge_counter : list Z;
  closed : bool;
  merge_trigger : bool
}.

Definition set_index (ix : Index) (t : Table) : Table :=
  mkTable (key_index t) (num_columns t) ix (t_cache t) (lock_manager t)
    (merge_queue_matrix t) (merge_counter t) (closed t) (merge_trigger t).

Definition set_t_cache (c : Cache) (t : Table) : Table :=
  mkTable (key_index t) (num_columns t) (index t) c (lock_manager t)
    (merge_queue_matrix t) (merge_counter t) (closed t) (merge_trigger t).

Definition set_lock_manager (lm : LockManager) (t : Table) : Table :=
  mkTable (key_index t) (num_columns t) (index t) (t_cache t) lm
    (merge_queue_matrix t) (merge_counter t) (closed t) (merge_trigger t).

Definition set_merge_queue_matrix (mq : list (list (list (bytes * bytes))))
    (t : Table) : Table :=
  mkTable (key_index t) (num_columns t) (index t) (t_cache t) (lock_manager t)
    mq (merge_counter t) (closed t) (merge_trigger t).

Definition set_merge_counter (mc : list Z) (t : Table) : Table :=
  mkTable (key_index t) (num_columns t) (index t) (t_cache t) (lock_manager t)
    (merge_queue_matrix t) mc (closed t) (merge_trigger t).

Definition set_closed (b : bool) (t : Table) : Table :=
  mkTable (key_index t) (num_columns t) (index t) (t_cache t) (lock_manager t)
    (merge_queue_matrix t) (merge_counter t) b (merge_trigger t).

Definition set_merge_trigger (b : bool) (t : Table) : Table :=
  mkTable (key_index t) (num_columns t) (index t) (t_cache t) (lock_manager t)
    (merge_queue_matrix t) (merge_counter t) (closed t) b.

Definition in_cache {A} (m : M Cache A) : M Table A :=
  zoom t_cache set_t_cache m.

Definition in_index {A} (m : M Index A) : M Table A :=
  zoom index set_index m.

Definition in_lock_manager {A} (m : M LockManager A) : M Table A :=
  zoom lock_manager set_lock_manager m.

(** [self.merge_queue_matrix[feature_index][page_index]] *)
Definition get_merge_queue (feature_index page_index : Z)
  : M Table (list (bytes * bytes)) :=
  mq <- gets merge_queue_matrix ;;
  row <- lift_result (py_nth mq feature_index) ;;
  lift_result (py_nth row page_index).

Definition put_merge_queue (feature_index page_index : Z)
    (q : list (bytes * bytes)) : M Table unit :=
  mq <- gets merge_queue_matrix ;;
  row <- lift_result (py_nth mq feature_index) ;;
  row' <- lift_result (py_set row page_index q) ;;
  mq' <- lift_result (py_set mq feature_index row') ;;
  modify (set_merge_queue_matrix mq').

Section Engine.

(** Modelled from the spec: [config.py] is not among the sources; the number of
    pages the buffer pool holds and the number of tail pages between two
    merges are configurable (section 6). *)
Variable CACHE_SIZE : Z.
Variable MERGE_EPOCH : Z.

(** [Table.__init__]; the merge thread it starts is [Table_merge] below,
    run when the trigger is set. *)
Definition Table_init (num_columns key_index : Z) (w : World) : result Table :=
  rbind (Index_init num_columns key_index) (fun ix =>
  rbind (Cache_init CACHE_SIZE w) (fun c =>
  rbind (fst (Cache_last_page_index base c)) (fun last =>
  let num_base_page := last + 1 in
  Ok (mkTable key_index num_columns ix c []
        (replicate (Z.to_nat num_columns) (replicate (Z.to_nat num_base_page) []))
        [] false false)))).

(** [Table.get_new_rid] *)
Definition Table_get_new_rid (rt : range_type) : M Table bytes :=
  new_rid <- in_cache (Cache_get_new_rid rt) ;;
  match rt with
  | base =>
      pr <- lift_result (unpack_II new_rid) ;;
      (if decide (pr.2 = 2 * WORDSIZE) then
         n <- gets num_columns ;;
         for_each (py_range n) (fun i =>
           mq <- gets merge_queue_matrix ;;
           row <- lift_result (py_nth mq i) ;;
           mq' <- lift_result (py_set mq i (row ++ [[]])) ;;
           modify (set_merge_queue_matrix mq'))
       else ret tt) ;;;
      ret new_rid
  | tail => ret new_rid
  end.

(** [Table.insert_record]; [now] is the reading of the clock,
    [int(time() * 1000000)]. *)
Definition Table_insert_record (now : Z) (new_record : Record_) : M Table unit :=
  let rt := rec_range_type new_record in
  let rid := rid new_record in
  in_cache (Cache_set_entry rt rid RID_COLUMN (Some rid) true) ;;;
  in_cache (Cache_set_entry rt rid INDIRECTION_COLUMN (Some INVALID_RID) true) ;;;
  in_cache (Cache_set_entry rt rid SCHEMA_ENCODING_COLUMN None true) ;;;
  stamp <- lift_result (pack_Q now) ;;
  in_cache (Cache_set_entry rt rid TIMESTAMP_COLUMN (Some stamp) true) ;;;
  for_each (enumerate (columns new_record)) (fun '(index, value) =>
    d <- match value with
         | Some v => w <- lift_result (pack_q v) ;; ret (Some w)
         | None => ret None
         end ;;
    in_cache (Cache_set_entry rt rid (index + NUM_INTERNAL_COLUMN) d true)).

(** [Table.update_schema] *)
Definition Table_update_schema (rt : range_type) (feature_index : Z) (rid : bytes)
  : M Table unit :=
  schema <- in_cache (Cache_get_entry rt rid SCHEMA_ENCODING_COLUMN) ;;
  schema <- lift_result (unpack_Q schema) ;;
  let schema := Z.lor schema (Z.shiftl 1 feature_index) in
  d <- lift_result (pack_Q schema) ;;
  in_cache (Cache_set_entry rt rid SCHEMA_ENCODING_COLUMN (Some d) false).

(** [Table.is_updated] *)
Definition Table_is_updated (encoding : bytes) (feature_index : Z) : result Z :=
  rbind (unpack_Q encoding) (fun e => Ok (Z.land e (Z.shiftl 1 feature_index))).

(** [Table.update_record] *)
Definition Table_update_record (base_rid : bytes) (new_tail_record : Record_)
  : M Table unit :=
  let new_tail_rid := rid new_tail_record in
  pr <- lift_result (unpack_II new_tail_rid) ;;
  (if decide (pr.2 = WORDSIZE) then
     modify (fun t => set_merge_counter (merge_counter t ++ [1]) t) ;;;
     mc <- gets merge_counter ;;
     if decide (Z.of_nat (length mc) > MERGE_EPOCH)
     then modify (set_merge_trigger true) else ret tt
   else ret tt) ;;;
  base_indirection <- in_cache (Cache_get_entry base base_rid INDIRECTION_COLUMN) ;;
  (if decide (base_indirection = INVALID_RID) then
     in_cache (Cache_set_entry base base_rid INDIRECTION_COLUMN (Some new_tail_rid) false)
   else
     let old_tail_rid := base_indirection in
     in_cache (Cache_set_entry tail new_tail_rid INDIRECTION_COLUMN
                 (Some old_tail_rid) false) ;;;
     in_cache (Cache_set_entry base base_rid INDIRECTION_COLUMN
                 (Some new_tail_rid) false)) ;;;
  for_each (enumerate (columns new_tail_record)) (fun '(index, value) =>
    d <- match value with
         | Some v =>
             w <- lift_result (pack_q v) ;;
             Table_update_schema base index base_rid ;;;
             Table_update_schema tail index new_tail_rid ;;;
             bp <- lift_result (unpack_II base_rid) ;;
             q <- get_merge_queue index bp.1 ;;
             put_merge_queue index bp.1 (q ++ [(base_rid, new_tail_rid)]) ;;;
             ret (Some w)
         | None => ret None
         end ;;
    in_cache (Cache_set_entry tail new_tail_rid (index + NUM_INTERNAL_COLUMN) d false)).

(** [Table.base_up_to_date] *)
Definition Table_base_up_to_date (base_rid : bytes) (feature_index : Z)
  : M Table bool :=
  pr <- lift_result (unpack_II base_rid) ;;
  let column_index := feature_index + NUM_INTERNAL_COLUMN in
  cur_page <- in_cache (Cache_get_page base pr.1 column_index) ;;
  lineage <- in_cache (in_world (in_heap (Page_read_field cur_page WORDSIZE))) ;;
  latest_tail_rid <- in_cache (Cache_get_entry base base_rid INDIRECTION_COLUMN) ;;
  lin <- lift_result (unpack_II lineage) ;;
  lat <- lift_result (unpack_II latest_tail_rid) ;;
  if decide (lin.1 > lat.1) then ret true
  else if decide (lin.1 = lat.1) then ret (bool_decide (lin.2 > lat.2))
  else ret false.

(** The [while] loop of [Table.select_feature]: at most [fuel] steps down
    the indirection chain. *)
Fixpoint walk_chain (fuel : nat) (feature_index : Z) (tail_rid encoding : bytes)
  : M Table bytes :=
  u <- lift_result (Table_is_updated encoding feature_index) ;;
  if decide (u = 0) then
    match fuel with
    | O => raise OutOfFuel
    | S fuel' =>
        tail_rid' <- in_cache (Cache_get_entry tail tail_rid INDIRECTION_COLUMN) ;;
        encoding' <- in_cache (Cache_get_entry tail tail_rid' SCHEMA_ENCODING_COLUMN) ;;
        walk_chain fuel' feature_index tail_rid' encoding'
    end
  else ret tail_rid.

(** [Table.select_feature] *)
Definition Table_select_feature (fuel : nat) (base_rid : bytes) (feature_index : Z)
  : M Table Z :=
  encoding <- in_cache (Cache_get_entry base base_rid SCHEMA_ENCODING_COLUMN) ;;
  up_to_date <- Table_base_up_to_date base_rid feature_index ;;
  from_base <-
    (if up_to_date then ret true
     else u <- lift_result (Table_is_updated encoding feature_index) ;;
          ret (bool_decide (u = 0))) ;;
  if (from_base : bool) then
    data_entry <- in_cache (Cache_get_entry base base_rid
                              (feature_index + NUM_INTERNAL_COLUMN)) ;;
    lift_result (unpack_q data_entry)
  else
    tail_rid <- in_cache (Cache_get_entry base base_rid INDIRECTION_COLUMN) ;;
    encoding <- in_cache (Cache_get_entry tail tail_rid SCHEMA_ENCODING_COLUMN) ;;
    tail_rid <- walk_chain fuel feature_index tail_rid encoding ;;
    data_entry <- in_cache (Cache_get_entry tail tail_rid
                              (feature_index + NUM_INTERNAL_COLUMN)) ;;
    lift_result (unpack_q data_entry).

(** The [while] loop of [Table.delete] *)
Fixpoint invalidate_chain (fuel : nat) (latest_update : bytes) : M Table unit :=
  if decide (latest_update <> INVALID_RID) then
    match fuel with
    | O => raise OutOfFuel
    | S fuel' =>
        in_cache (Cache_set_entry tail latest_update RID_COLUMN (Some INVALID_RID) false) ;;;
        next <- in_cache (Cache_get_entry tail latest_update INDIRECTION_COLUMN) ;;
        invalidate_chain fuel' next
    end
  else ret tt.

(** [Table.delete] *)
Definition Table_delete (fuel : nat) (rid : bytes) : M Table unit :=
  latest_update <- in_cache (Cache_get_entry base rid INDIRECTION_COLUMN) ;;
  in_cache (Cache_set_entry base rid RID_COLUMN (Some INVALID_RID) false) ;;;
  invalidate_chain fuel latest_update.

(** The inner [while] of [Table.merge]: draining a queue into the
    last-writer-wins dictionary and the new lineage. *)
Fixpoint drain_queue (q : list (bytes * bytes)) (seen_update : list (bytes * bytes))
    (lineage : bytes) : list (bytes * bytes) * bytes :=
  match q with
  | [] => (seen_update, lineage)
  | (base_rid, tail_rid) :: q' => drain_queue q' (od_set seen_update base_rid tail_rid) tail_rid
  end.

(** The body of the two [for] loops of [Table.merge], for one feature and
    one base page. *)
Definition merge_page (feature_index page_index : Z) : M Table unit :=
  merge_queue <- get_merge_queue feature_index page_index ;;
  if decide (length merge_queue = 0%nat) then ret tt
  else
    let column_index := NUM_INTERNAL_COLUMN + feature_index in
    p <- in_cache (Cache_get_page base page_index column_index) ;;
    let new_base_page := copy p in
    lineage <- in_cache (in_world (in_heap (Page_read_field new_base_page WORDSIZE))) ;;
    let '(seen_update, lineage) := drain_queue merge_queue [] lineage in
    put_merge_queue feature_index page_index [] ;;;
    in_cache (in_world (in_heap (Page_write_field new_base_page WORDSIZE lineage))) ;;;
    for_each seen_update (fun '(base_rid, tail_rid) =>
      data_entry <- in_cache (Cache_get_entry tail tail_rid
                                (feature_index + NUM_INTERNAL_COLUMN)) ;;
      pr <- lift_result (unpack_II base_rid) ;;
      in_cache (in_world (in_heap (Page_write_field new_base_page pr.2 data_entry)))) ;;;
    in_cache (Cache_set_page base page_index column_index new_base_page).

(** [deque.popleft()] on the merge counter *)
Definition pop_merge_counter : M Table unit :=
  mc <- gets merge_counter ;;
  match mc with
  | [] => raise IndexError
  | _ :: mc' => modify (set_merge_counter mc')
  end.

(** One round of the [while] loop of [Table.merge], from the moment the
    trigger is set: one merge pass. *)
Definition Table_merge : M Table unit :=
  merge_range <- in_cache (Cache_last_page_index base) ;;
  is_closed <- gets closed ;;
  let merge_range := if (is_closed : bool) then merge_range + 1 else merge_range in
  n <- gets num_columns ;;
  for_each (py_range n) (fun feature_index =>
    for_each (py_range merge_range) (fun page_index =>
      merge_page feature_index page_index)) ;;;
  if (is_closed : bool) then ret tt
  else
    for_each (py_range MERGE_EPOCH) (fun _ => pop_merge_counter) ;;;
    modify (set_merge_trigger false).

(** [Table.close] *)
Definition Table_close : M Table unit :=
  modify (set_closed true) ;;;
  modify (set_merge_trigger true).

(** [Table.table_create_index] *)
Definition Table_table_create_index (fuel : nat) (column_number : Z) : M Table unit :=
  created <- gets (fun t => index_created (index t)) ;;
  is_created <- lift_result (py_nth created column_number) ;;
  if (is_created : bool) then ret tt
  else
    created' <- lift_result (py_set created column_number true) ;;
    in_index (modify (set_index_created created')) ;;;
    ki <- gets key_index ;;
    ml <- gets (fun t => map_list (index t)) ;;
    primary_index <- lift_result (py_nth ml ki) ;;
    for_each primary_index (fun '(_, base_rid_list) =>
      base_rid <- lift_result (py_nth base_rid_list 0) ;;
      new_duplicate_key <- Table_select_feature fuel base_rid column_number ;;
      ml <- gets (fun t => map_list (index t)) ;;
      m <- lift_result (py_nth ml column_number) ;;
      match od_get m (Some new_duplicate_key) with
      | Some rids =>
          in_index (put_bucket column_number (Some new_duplicate_key) (rids ++ [base_rid]))
      | None =>
          in_index (put_bucket column_number (Some new_duplicate_key) [base_rid])
      end).

(** ** [query.py] *)

(** [locate(key, column)[0]] as the queries write it: subscripting [None]
    is a [TypeError]. *)
Definition first_located (key column : Z) : M Table bytes :=
  located <- in_index (Index_locate key column) ;;
  match located with
  | None => raise TypeError
  | Some rids => lift_result (py_nth rids 0)
  end.

(** [Query.delete] *)
Definition Query_delete (fuel : nat) (key : Z) : M Table unit :=
  rid <- first_located key 0 ;;
  Table_delete fuel rid ;;;
  in_index (Index_map_delete key).

(** [Query.insert] *)
Definition Query_insert (now : Z) (columns : list Z) : M Table unit :=
  n <- gets num_columns ;;
  if decide (Z.of_nat (length columns) <> n) then ret tt
  else
    base_rid <- Table_get_new_rid base ;;
    ki <- gets key_index ;;
    key <- lift_result (py_nth columns ki) ;;
    let new_record := mkRecord base_rid key (Some <$> columns) base in
    in_index (Index_map_insert new_record) ;;;
    Table_insert_record now new_record.

(** [Query.select] *)
Definition Query_select (fuel : nat) (key key_index : Z) (query_columns : list Z)
  : M Table (list Record_) :=
  n <- gets num_columns ;;
  if decide (Z.of_nat (length query_columns) <> n) then ret []
  else
    base_rids_list <- in_index (Index_locate key key_index) ;;
    match base_rids_list with
    | None => raise TypeError
    | Some base_rids =>
        map_M (fun base_rid =>
          query_result <- map_M (fun i =>
              selected <- lift_result (py_nth query_columns i) ;;
              if decide (selected = 0) then ret None
              else field <- Table_select_feature fuel base_rid i ;; ret (Some field))
            (py_range n) ;;
          ret (mkRecord base_rid key query_result base)) base_rids
    end.

(** [Query.update]; [cols] are the [*columns] of the source. *)
Definition Query_update (fuel : nat) (now : Z) (key : Z) (cols : list (option Z))
  : M Table bool :=
  n <- gets num_columns ;;
  if decide (Z.of_nat (length cols) <> n) then ret false
  else
    new_tail_rid <- Table_get_new_rid tail ;;
    let new_record := mkRecord new_tail_rid key cols tail in
    Table_insert_record now new_record ;;;
    base_rid <- first_located key 0 ;;
    n <- gets num_columns ;;
    let query_column := replicate (Z.to_nat n) 1 in
    selected <- Query_select fuel key 0 query_column ;;
    old_record <- lift_result (py_nth selected 0) ;;
    let old_features := columns old_record in
    let new_features := cols in
    in_index (Index_map_change base_rid old_features new_features) ;;;
    Table_update_record base_rid new_record ;;;
    ret true.

(** [select(key, 0, query_column)[0].columns[aggregate_column_index]] *)
Definition select_one (fuel : nat) (key : Z) (query_column : list Z)
    (aggregate_column_index : Z) : M Table Z :=
  selected <- Query_select fuel key 0 query_column ;;
  r <- lift_result (py_nth selected 0) ;;
  v <- lift_result (py_nth (columns r) aggregate_column_index) ;;
  match v with
  | Some x => ret x
  | None => raise TypeError
  end.

(** The [for] loop of [Query.sum] *)
Fixpoint sum_loop (fuel : nat) (keys : list Z) (query_column : list Z)
    (aggregate_column_index : Z) (sum_val : Z) : M Table Z :=
  match keys with
  | [] => ret sum_val
  | i :: keys' =>
      located <- in_index (Index_locate i 0) ;;
      match located with
      | None => sum_loop fuel keys' query_column aggregate_column_index sum_val
      | Some _ =>
          v <- select_one fuel i query_column aggregate_column_index ;;
          sum_loop fuel keys' query_column aggregate_column_index (sum_val + v)
      end
  end.

(** [Query.sum] *)
Definition Query_sum (fuel : nat) (start_range end_range aggregate_column_index : Z)
  : M Table Z :=
  n <- gets num_columns ;;
  query_column <- lift_result
    (py_set (replicate (Z.to_nat n) 0) aggregate_column_index 1) ;;
  if decide (start_range = end_range) then
    select_one fuel start_range query_column aggregate_column_index
  else
    let step := (end_range - start_range) / Z.abs (end_range - start_range) in
    sum_loop fuel (py_range3 start_range (end_range + step) step)
      query_column aggregate_column_index 0.

(** [Query.increment] *)
Definition Query_increment (fuel : nat) (now : Z) (key column : Z) : M Table bool :=
  n <- gets num_columns ;;
  ki <- gets key_index ;;
  selected <- Query_select fuel key ki (replicate (Z.to_nat n) 1) ;;
  r <- lift_result (py_nth selected 0) ;;
  let updated_columns := replicate (Z.to_nat n) None in
  v <- lift_result (py_nth (columns r) column) ;;
  match v with
  | None => raise TypeError
  | Some x =>
      updated_columns <- lift_result (py_set updated_columns column (Some (x + 1))) ;;
      Query_update fuel now key updated_columns
  end.

(** ** [transaction.py] *)

(** A query of a transaction: the bound method and its arguments. *)
Inductive query :=
| q_insert (columns : list Z)
| q_increment (key column : Z)
| q_select (key key_index : Z) (query_columns : list Z)
| q_update (key : Z) (columns : list (option Z))
| q_delete (key : Z)
| q_sum (start_range end_range aggregate_column_index : Z).

Record Transaction := mkTransaction {
  table_bound : bool;
  aborted : bool;
  keys_to_be_locked : list (Z * lock_type);
  queries : list query;
  locks : list (Z * lock_type)
}.

(** [Transaction.__init__] *)
Definition Transaction_init : Transaction :=
  mkTransaction false false [] [] [].

Definition set_aborted (b : bool) (x : Transaction) : Transaction :=
  mkTransaction (table_bound x) b (keys_to_be_locked x) (queries x) (locks x).

Definition set_keys_to_be_locked (k : list (Z * lock_type)) (x : Transaction)
  : Transaction :=
  mkTransaction (table_bound x) (aborted x) k (queries x) (locks x).

Definition set_locks (l : list (Z * lock_type)) (x : Transaction) : Transaction :=
  mkTransaction (table_bound x) (aborted x) (keys_to_be_locked x) (queries x) l.

(** [Transaction.add_query] *)
Definition Transaction_add_query (q : query) (x : Transaction) : Transaction :=
  mkTransaction true (aborted x) (keys_to_be_locked x) (queries x ++ [q]) (locks x).

(** A transaction runs against the table it is bound to. *)
Abbreviation TxM := (M (Transaction * Table)).

Definition in_txn {A} (m : M Transaction A) : TxM A :=
  zoom fst (fun x s => (x, s.2)) m.

Definition in_table {A} (m : M Table A) : TxM A :=
  zoom snd (fun t s => (s.1, t)) m.

(** The analysis of one query in [Transaction.preprocessing]: the lock
    type and the primary keys to lock. *)
Definition query_locks (q : query) : M Table (lock_type * list Z) :=
  pkey_index <- gets key_index ;;
  match q with
  | q_insert columns =>
      k <- lift_result (py_nth columns pkey_index) ;;
      ret (writer, [k])
  | q_increment key column =>
      k <- lift_result (py_nth [key; column] pkey_index) ;;
      ret (writer, [k])
  | q_select key key_index _ =>
      if decide (key_index <> pkey_index) then
        base_rid_list <- in_index (Index_locate key key_index) ;;
        ml <- gets (fun t => map_list (index t)) ;;
        pkey_rid_map <- lift_result (py_nth ml pkey_index) ;;
        match pkey_rid_map with
        | _ :: _ => raise TypeError
        | [] =>
            match base_rid_list with
            | None => raise TypeError
            | Some _ => ret (reader, [])
            end
        end
      else ret (reader, [key])
  | q_update key _ => ret (writer, [key])
  | q_delete key => ret (writer, [key])
  | q_sum start_range end_range _ =>
      if decide (Z.abs (end_range - start_range) = 0) then raise ZeroDivisionError
      else
        let step := (end_range - start_range) / Z.abs (end_range - start_range) in
        located <- map_M (fun i =>
            base_rid_list <- in_index (Index_locate i pkey_index) ;;
            ret (i, base_rid_list))
          (py_range3 start_range (end_range + step) step) ;;
        ret (reader, omap (fun p => match p.2 with
                                    | Some _ => Some p.1
                                    | None => None
                                    end) located)
  end.

(** The body of the loop of [Transaction.preprocessing]: the keys of one
    query enter [keys_to_be_locked] with the lock type of the query. *)
Definition preprocessing_step (q : query) : TxM unit :=
  a <- in_table (query_locks q) ;;
  let '(kind, query_pkeys) := a in
  for_each query_pkeys (fun key =>
    in_txn (modify (fun x =>
      set_keys_to_be_locked (od_set (keys_to_be_locked x) key kind) x))).

(** [Transaction.preprocessing] *)
Definition Transaction_preprocessing : TxM unit :=
  bound <- in_txn (gets table_bound) ;;
  if negb bound then raise AttributeError
  else
    qs <- in_txn (gets queries) ;;
    for_each qs preprocessing_step.

(** [Transaction.release_locks] *)
Definition Transaction_release_locks : TxM unit :=
  held <- in_txn (gets locks) ;;
  for_each held (fun lock => in_table (in_lock_manager (LockManager_release lock))) ;;;
  in_txn (modify (set_keys_to_be_locked [])).

(** [Transaction.abort] *)
Definition Transaction_abort : TxM unit :=
  Transaction_release_locks ;;;
  in_txn (modify (set_aborted true)).

(** The [for] loop of [Transaction.acquire_locks] *)
Fixpoint acquire_loop (wanted : list (Z * lock_type)) : TxM unit :=
  match wanted with
  | [] => ret tt
  | (pkey, kind) :: wanted' =>
      lock <- in_table (in_lock_manager (LockManager_acquire pkey kind)) ;;
      match lock with
      | None => Transaction_abort
      | Some l =>
          in_txn (modify (fun x => set_locks (locks x ++ [l]) x)) ;;;
          acquire_loop wanted'
      end
  end.

(** [Transaction.acquire_locks] *)
Definition Transaction_acquire_locks : TxM unit :=
  wanted <- in_txn (gets keys_to_be_locked) ;;
  acquire_loop wanted.

(** Calling a recorded query on its arguments, as [Transaction.run] does. *)
Definition run_query (fuel : nat) (now : Z) (q : query) : M Table unit :=
  match q with
  | q_insert columns => Query_insert now columns
  | q_increment key column => Query_increment fuel now key column ;;; ret tt
  | q_select key key_index query_columns =>
      Query_select fuel key key_index query_columns ;;; ret tt
  | q_update key columns => Query_update fuel now key columns ;;; ret tt
  | q_delete key => Query_delete fuel key
  | q_sum s e c => Query_sum fuel s e c ;;; ret tt
  end.

(** [Transaction.run] *)
Definition Transaction_run (fuel : nat) (now : Z) : TxM Z :=
  Transaction_preprocessing ;;;
  Transaction_acquire_locks ;;;
  is_aborted <- in_txn (gets aborted) ;;
  if (is_aborted : bool) then ret 0
  else
    qs <- in_txn (gets queries) ;;
    for_each qs (fun q => in_table (run_query fuel now q)) ;;;
    Transaction_release_locks ;;;
    ret 1.

End Engine.

(** * Properties *)

(** ** The monad *)

Lemma bind_ok {S A B} (m : M S A) (f : A -> M S B) s a s' :
  m s = (Ok a, s') -> bind m f s = f a s'.
Proof. intros H. unfold bind. rewrite H. reflexivity. Qed.

Lemma bind_err {S A B} (m : M S A) (f : A -> M S B) s e s' :
  m s = (Err e, s') -> bind m f s = (Err e, s').
Proof. intros H. unfold bind. rewrite H. reflexivity. Qed.

Lemma bind_inv_ok {S A B} (m : M S A) (f : A -> M S B) s b s2 :
  bind m f s = (Ok b, s2) ->
  exists a s1, m s = (Ok a, s1) /\ f a s1 = (Ok b, s2).
Proof.
  unfold bind. destruct (m s) as [[a|e] s1]; intros H.
  - exists a, s1. split; [reflexivity | exact H].
  - discriminate.
Qed.

Lemma zoom_eq {S T A} (proj : T -> S) (inj : S -> T -> T) (m : M S A) t r s' :
  m (proj t) = (r, s') -> zoom proj inj m t = (r, inj s' t).
Proof. intros H. unfold zoom. rewrite H. reflexivity. Qed.

Lemma for_each_app {S A} (l1 l2 : list A) (body : A -> M S unit) s :
  for_each (l1 ++ l2) body s =
  bind (for_each l1 body) (fun _ => for_each l2 body) s.
Proof.
  revert s. induction l1 as [|x l1 IH]; intros s; simpl.
  - unfold bind, ret. destruct (for_each l2 body s) as [[] ?]; reflexivity.
  - unfold bind in *. destruct (body x s) as [[[]|e] s1]; [|reflexivity].
    rewrite IH. reflexivity.
Qed.

(** ** Bytes *)

Lemma Ok_inj {A} (a b : A) : Ok a = Ok b -> a = b.
Proof. congruence. Qed.

Ltac ok_inj H := apply Ok_inj in H; try subst.

Lemma pack_II_length a b w : pack_II a b = Ok w -> length w = 8%nat.
Proof.
  unfold pack_II. case_decide; [|discriminate]. intros H'. ok_inj H'.
  rewrite length_app, !length_le_split. reflexivity.
Qed.

Lemma unpack_pack_II a b w : pack_II a b = Ok w -> unpack_II w = Ok (a, b).
Proof.
  intros H. pose proof (pack_II_length _ _ _ H) as Hl.
  unfold pack_II in H. case_decide as Hr; [|discriminate]. ok_inj H.
  unfold unpack_II. rewrite decide_True by exact Hl.
  rewrite take_app_length' by (rewrite length_le_split; reflexivity).
  rewrite drop_app_length' by (rewrite length_le_split; reflexivity).
  rewrite !le_combine_split.
  change (2 ^ (Z.of_nat 4 * 8)) with (2 ^ 32).
  rewrite !Z.mod_small by lia. reflexivity.
Qed.

Lemma pack_Q_length n w : pack_Q n = Ok w -> length w = 8%nat.
Proof.
  unfold pack_Q. case_decide; [|discriminate]. intros H'. ok_inj H'.
  apply length_le_split.
Qed.

Lemma unpack_pack_Q n w : pack_Q n = Ok w -> unpack_Q w = Ok n.
Proof.
  intros H. pose proof (pack_Q_length _ _ H) as Hl.
  unfold pack_Q in H. case_decide as Hr; [|discriminate]. ok_inj H.
  unfold unpack_Q. rewrite decide_True by exact Hl.
  rewrite le_combine_split. change (2 ^ (Z.of_nat 8 * 8)) with (2 ^ 64).
  rewrite Z.mod_small by lia. reflexivity.
Qed.

Lemma pack_q_length n w : pack_q n = Ok w -> length w = 8%nat.
Proof.
  unfold pack_q. case_decide; [|discriminate]. intros H'. ok_inj H'.
  apply length_le_split.
Qed.

Lemma unpack_pack_q n w : pack_q n = Ok w -> unpack_q w = Ok n.
Proof.
  intros H. pose proof (pack_q_length _ _ H) as Hl.
  unfold pack_q in H. case_decide as Hr; [|discriminate]. ok_inj H.
  unfold unpack_q. rewrite decide_True by exact Hl.
  rewrite le_combine_split. change (2 ^ (Z.of_nat 8 * 8)) with (2 ^ 64).
  f_equal. destruct (decide (0 <= n)) as [Hn|Hn].
  - rewrite Z.mod_small by lia. rewrite decide_True by lia. reflexivity.
  - replace (n mod 2 ^ 64) with (n + 2 ^ 64).
    + rewrite decide_False by lia. lia.
    + apply Z.mod_unique with (q := -1); lia.
Qed.

Lemma unpack_Q_bound w n : unpack_Q w = Ok n -> 0 <= n < 2 ^ 64.
Proof.
  unfold unpack_Q. case_decide as Hl; [|discriminate]. intros H'. ok_inj H'.
  pose proof (le_combine_bound w) as Hb. rewrite Hl in Hb. exact Hb.
Qed.

(** ** Slices *)

Lemma clamp_index_in n i : 0 <= i <= n -> clamp_index n i = i.
Proof. intros H. unfold clamp_index. rewrite decide_False by lia. lia. Qed.

(** A slice inside the buffer is the eight bytes at the offset. *)
Lemma getslice_in (buf : bytes) off k :
  0 <= off -> 0 <= k -> off + k <= Z.of_nat (length buf) ->
  getslice buf off (off + k) = take (Z.to_nat k) (drop (Z.to_nat off) buf).
Proof.
  intros H1 H2 H3. unfold getslice. rewrite !clamp_index_in by lia.
  f_equal. f_equal. lia.
Qed.

Lemma setslice_in (buf : bytes) off k w :
  0 <= off -> 0 <= k -> off + k <= Z.of_nat (length buf) ->
  setslice buf off (off + k) w =
  take (Z.to_nat off) buf ++ w ++ drop (Z.to_nat (off + k)) buf.
Proof.
  intros H1 H2 H3. unfold setslice. rewrite !clamp_index_in by lia.
  rewrite Z.max_r by lia. reflexivity.
Qed.

Lemma setslice_in_length (buf : bytes) off w :
  0 <= off -> off + Z.of_nat (length w) <= Z.of_nat (length buf) ->
  length (setslice buf off (off + Z.of_nat (length w)) w) = length buf.
Proof.
  intros H1 H2. rewrite setslice_in by lia.
  rewrite !length_app, length_take, length_drop. lia.
Qed.

(** Reading back the slice that was written. *)
Lemma getslice_setslice_same (buf : bytes) off w :
  0 <= off -> off + Z.of_nat (length w) <= Z.of_nat (length buf) ->
  getslice (setslice buf off (off + Z.of_nat (length w)) w)
           off (off + Z.of_nat (length w)) = w.
Proof.
  intros H1 H2.
  rewrite getslice_in; [|lia|lia|rewrite setslice_in_length by lia; lia].
  rewrite setslice_in by lia.
  rewrite drop_app_length' by (rewrite length_take; lia).
  rewrite take_app_length' by lia. reflexivity.
Qed.

(** A slice that does not overlap the written one is unchanged. *)
Lemma getslice_setslice_other (buf : bytes) off off' w k :
  0 <= off -> off + Z.of_nat (length w) <= Z.of_nat (length buf) ->
  0 <= off' -> 0 <= k -> off' + k <= Z.of_nat (length buf) ->
  off' + k <= off \/ off + Z.of_nat (length w) <= off' ->
  getslice (setslice buf off (off + Z.of_nat (length w)) w) off' (off' + k)
  = getslice buf off' (off' + k).
Proof.
  intros H1 H2 H3 H4 H5 H6.
  rewrite !getslice_in; try lia; [|rewrite setslice_in_length by lia; lia].
  rewrite setslice_in by lia.
  apply list_eq. intros i.
  rewrite !lookup_take, !lookup_drop.
  case_decide as Hi; [|reflexivity].
  destruct H6 as [H6|H6].
  - rewrite lookup_app_l by (rewrite length_take; lia).
    rewrite lookup_take_lt by lia. reflexivity.
  - rewrite lookup_app_r by (rewrite length_take; lia).
    rewrite lookup_app_r by (rewrite length_take; lia).
    rewrite lookup_drop. f_equal. rewrite length_take. lia.
Qed.

(** ** [page.py]: bounds of [read_field] and [write_field] *)

(** The buffer behind a page. *)
Definition buffer (h : list bytes) (p : Page) : bytes := default [] (h !! data p).

(** [read_field] raises exactly outside the page. *)
Lemma Page_read_field_fails_iff (p : Page) (off : Z) (h : list bytes) :
  fst (Page_read_field p off h) = Err OutOfBounds <->
  (off < 0 \/ off + WORDSIZE > PAGESIZE).
Proof.
  unfold Page_read_field. case_decide as Hd.
  - split; [intros _; exact Hd | reflexivity].
  - split; [discriminate | intros H; contradiction].
Qed.

Lemma Page_read_field_in_bounds (p : Page) (off : Z) (h : list bytes) :
  0 <= off -> off + WORDSIZE <= PAGESIZE ->
  Page_read_field p off h = (Ok (getslice (buffer h p) off (off + WORDSIZE)), h).
Proof.
  intros H1 H2. unfold Page_read_field. rewrite decide_False by lia. reflexivity.
Qed.

(** [write_field] raises for a word of the wrong length, whatever the offset. *)
Lemma Page_write_field_bad_word (p : Page) (off : Z) (w : bytes) (h : list bytes) :
  Z.of_nat (length w) <> WORDSIZE ->
  Page_write_field p off w h = (Err BadWordSize, h).
Proof.
  intros H. unfold Page_write_field. rewrite decide_True by exact H. reflexivity.
Qed.

(** With a word of the right length [write_field] never raises: the offset
    is not checked. *)
Lemma Page_write_field_total (p : Page) (off : Z) (w : bytes) (h : list bytes) :
  Z.of_nat (length w) = WORDSIZE ->
  Page_write_field p off w h =
  (Ok tt, <[data p := setslice (buffer h p) off (off + WORDSIZE) w]> h).
Proof.
  intros H. unfold Page_write_field. rewrite decide_False by lia. reflexivity.
Qed.

(** An in-bounds write succeeds and keeps the length of the buffer. *)
Lemma Page_write_field_in_bounds (p : Page) (off : Z) (w : bytes) (h h' : list bytes) :
  Z.of_nat (length w) = WORDSIZE ->
  (data p < length h)%nat ->
  Z.of_nat (length (buffer h p)) = PAGESIZE ->
  0 <= off -> off + WORDSIZE <= PAGESIZE ->
  Page_write_field p off w h = (Ok tt, h') ->
  Z.of_nat (length (buffer h' p)) = PAGESIZE /\
  getslice (buffer h' p) off (off + WORDSIZE) = w.
Proof.
  intros Hw Hp Hl H1 H2 Hr. rewrite Page_write_field_total in Hr by exact Hw.
  injection Hr as <-. unfold buffer at 1 3.
  rewrite list_lookup_insert_eq by exact Hp. simpl.
  rewrite <- Hw. split.
  - rewrite setslice_in_length by lia. exact Hl.
  - apply getslice_setslice_same; lia.
Qed.

(** C8: on a fresh base page a write at offset [PAGESIZE], outside the
    page, is not rejected: [write_field] returns normally and the buffer has
    grown by one word, while [read_field] at the same offset raises
    [OutOfBounds]. *)
Theorem write_field_out_of_bounds_not_rejected :
  exists p h h',
    Page_init (Some base) [] [] = (Ok p, h) /\
    fst (Page_read_field p PAGESIZE h) = Err OutOfBounds /\
    Page_write_field p PAGESIZE (le_split 8 7) h = (Ok tt, h') /\
    Z.of_nat (length (buffer h' p)) = PAGESIZE + WORDSIZE.
Proof.
  eexists _, _, _. split; [vm_compute; reflexivity|].
  split; [vm_compute; reflexivity|].
  split; vm_compute; reflexivity.
Qed.

(** ** [disk_helper.py]: the allocator positions read back from the files *)

(** The record counter in word 0 of the last page of a file. *)
Definition last_page_counter (f : bytes) : Z :=
  le_combine (file_read f ((Z.of_nat (length f) / PAGESIZE - 1) * PAGESIZE) WORDSIZE).

(** What [get_last_rids] yields for one range, as [(page_index, byte_offset)]. *)
Definition expected_last_rid (rt : range_type) (f : bytes) : Z * Z :=
  if decide (length f = 0%nat)
  then (0, match rt with base => 8 | tail => 0 end)
  else (Z.of_nat (length f) / PAGESIZE - 1, last_page_counter f * WORDSIZE).

(** The file is made of whole pages and its last RID fits the two 32-bit
    fields of [pack('II', _, _)]. *)
Definition file_ok (f : bytes) : Prop :=
  Z.of_nat (length f) mod PAGESIZE = 0 /\
  Z.of_nat (length f) / PAGESIZE - 1 < 2 ^ 32 /\
  last_page_counter f * WORDSIZE < 2 ^ 32.

Lemma last_rid_of_spec (rt : range_type) (w : World) (f : bytes) :
  disk w !! (rt, 0) = Some f -> file_ok f ->
  exists r, last_rid_of rt w = (Ok r, w) /\
            unpack_II r = Ok (expected_last_rid rt f).
Proof.
  intros Hf (Hm & Hi & Hc).
  unfold last_rid_of, bind, DiskHelper__open_file. rewrite Hf.
  rewrite decide_False by lia.
  unfold expected_last_rid. destruct (decide (length f = 0%nat)) as [Hz|Hz].
  - rewrite decide_True by lia. unfold lift_result.
    destruct (pack_II 0 (match rt with base => 8 | tail => 0 end)) as [r|e] eqn:Hp.
    + exists r. split; [reflexivity|]. apply unpack_pack_II. exact Hp.
    + exfalso. unfold pack_II in Hp. destruct rt; rewrite decide_True in Hp by lia;
        discriminate.
  - rewrite decide_False by lia. unfold lift_result.
    assert (Hlen : Z.of_nat (length (file_read f
              ((Z.of_nat (length f) / PAGESIZE - 1) * PAGESIZE) WORDSIZE)) = 8).
    { unfold file_read. rewrite length_take, length_drop.
      assert (PAGESIZE <= Z.of_nat (length f)).
      { apply Z.mod_divide in Hm; [|unfold PAGESIZE; lia].
        destruct Hm as [q Hq]. unfold PAGESIZE in *. lia. }
      assert (Z.of_nat (length f) = Z.of_nat (length f) / PAGESIZE * PAGESIZE).
      { pose proof (Z.div_mod (Z.of_nat (length f)) PAGESIZE). unfold PAGESIZE in *. lia. }
      unfold PAGESIZE, WORDSIZE in *. lia. }
    unfold unpack_Q. rewrite decide_True by lia.
    fold (last_page_counter f).
    pose proof (le_combine_bound (file_read f
        ((Z.of_nat (length f) / PAGESIZE - 1) * PAGESIZE) WORDSIZE)) as Hb.
    fold (last_page_counter f) in Hb.
    destruct (pack_II (Z.of_nat (length f) / PAGESIZE - 1)
                (last_page_counter f * WORDSIZE)) as [r|e] eqn:Hp.
    + exists r. split; [reflexivity|]. apply unpack_pack_II. exact Hp.
    + exfalso. unfold pack_II in Hp. rewrite decide_True in Hp; [discriminate|].
      assert (0 <= Z.of_nat (length f) / PAGESIZE - 1).
      { assert (PAGESIZE <= Z.of_nat (length f)).
        { apply Z.mod_divide in Hm; [|unfold PAGESIZE; lia].
          destruct Hm as [q Hq]. unfold PAGESIZE in *. lia. }
        assert (1 <= Z.of_nat (length f) / PAGESIZE);
          [apply Z.div_le_lower_bound; unfold PAGESIZE in *; lia | lia]. }
      unfold WORDSIZE in *. lia.
Qed.

(** C6, as the code has it: on an empty column-0 file [get_last_rids] gives
    the RID (0, 8) for the base range and (0, 0) for the tail range; on a
    file of whole pages it gives [(last_page_index, counter * WORDSIZE)],
    the counter being word 0 of the last page. *)
Theorem get_last_rids_spec (w : World) (fb ft : bytes) :
  disk w !! (base, 0) = Some fb ->
  disk w !! (tail, 0) = Some ft ->
  file_ok fb -> file_ok ft ->
  exists b t,
    DiskHelper_get_last_rids w = (Ok (b, t), w) /\
    unpack_II b = Ok (expected_last_rid base fb) /\
    unpack_II t = Ok (expected_last_rid tail ft).
Proof.
  intros Hb Ht Hfb Hft.
  destruct (last_rid_of_spec base w fb Hb Hfb) as (b & Hrb & Hub).
  destruct (last_rid_of_spec tail w ft Ht Hft) as (t & Hrt & Hut).
  exists b, t. split; [|split; assumption].
  unfold DiskHelper_get_last_rids.
  rewrite (bind_ok _ _ _ _ _ Hrb), (bind_ok _ _ _ _ _ Hrt). reflexivity.
Qed.

(** The files of a table that was just created: all empty. *)
Definition fresh_disk (num_features : Z) : files :=
  list_to_map (flat_map (fun c => [((base, c), []); ((tail, c), [])])
                 (py_range (num_features + NUM_INTERNAL_COLUMN))).

Definition fresh_world (num_features : Z) : World := mkWorld [] (fresh_disk num_features).

Lemma get_last_rids_spec_witness :
  exists b t,
    DiskHelper_get_last_rids (fresh_world 1) = (Ok (b, t), fresh_world 1) /\
    unpack_II b = Ok (expected_last_rid base []) /\
    unpack_II t = Ok (expected_last_rid tail []).
Proof.
  apply (get_last_rids_spec (fresh_world 1) [] []);
    try (vm_compute; reflexivity);
    (split; [reflexivity | split; vm_compute; reflexivity]).
Defined.

(** C6 as stated fails: for empty files the base RID is (0, 8), not (0, 16). *)
Lemma get_last_rids_empty_base_is_not_16 :
  exists b t,
    fst (DiskHelper_get_last_rids (fresh_world 1)) = Ok (b, t) /\
    unpack_II b = Ok (0, 8) /\
    unpack_II b <> Ok (0, 16) /\
    unpack_II t = Ok (0, 0).
Proof.
  eexists _, _. split; [vm_compute; reflexivity|].
  split; [vm_compute; reflexivity|].
  split; [vm_compute; discriminate | vm_compute; reflexivity].
Qed.

(** ** Ordered dictionaries *)

Section OrderedDictFacts.
Context {K V : Type} `{EqDecision K}.
Implicit Types (d : list (K * V)) (k : K) (v : V).

Lemma od_get_set_eq d k v : od_get (od_set d k v) k = Some v.
Proof.
  induction d as [|[k' v'] d IH]; simpl.
  - rewrite decide_True by reflexivity. reflexivity.
  - destruct (decide (k' = k)) as [->|Hne]; simpl.
    + rewrite decide_True by reflexivity. reflexivity.
    + rewrite decide_False by exact Hne. exact IH.
Qed.

Lemma od_get_set_ne d k k' v : k <> k' -> od_get (od_set d k v) k' = od_get d k'.
Proof.
  intros Hne. induction d as [|[k0 v0] d IH]; simpl.
  - rewrite decide_False by exact Hne. reflexivity.
  - destruct (decide (k0 = k)) as [->|Hk]; simpl.
    + rewrite !decide_False by exact Hne. reflexivity.
    + destruct (decide (k0 = k')); [reflexivity | exact IH].
Qed.

Lemma od_get_del_eq d k : od_get (od_del d k) k = None.
Proof.
  induction d as [|[k' v'] d IH]; simpl; [reflexivity|].
  destruct (decide (k' = k)) as [->|Hne]; simpl; [exact IH|].
  rewrite decide_False by exact Hne. exact IH.
Qed.

Lemma od_get_del_ne d k k' : k <> k' -> od_get (od_del d k) k' = od_get d k'.
Proof.
  intros Hne. induction d as [|[k0 v0] d IH]; simpl; [reflexivity|].
  destruct (decide (k0 = k)) as [->|Hk]; simpl.
  - rewrite decide_False by exact Hne. exact IH.
  - destruct (decide (k0 = k')); [reflexivity | exact IH].
Qed.

Lemma od_get_app d1 d2 k :
  od_get (d1 ++ d2) k =
  match od_get d1 k with Some v => Some v | None => od_get d2 k end.
Proof.
  induction d1 as [|[k' v'] d1 IH]; simpl; [reflexivity|].
  destruct (decide (k' = k)); [reflexivity | exact IH].
Qed.

Lemma od_del_absent d k : od_get d k = None -> od_del d k = d.
Proof.
  induction d as [|[k' v'] d IH]; simpl; [reflexivity|].
  destruct (decide (k' = k)); [discriminate|]. intros Hn. rewrite IH by exact Hn.
  reflexivity.
Qed.

Lemma od_set_absent d k v : od_get d k = None -> od_set d k v = d ++ [(k, v)].
Proof.
  induction d as [|[k' v'] d IH]; simpl; [reflexivity|].
  destruct (decide (k' = k)); [discriminate|]. intros Hn. rewrite IH by exact Hn.
  reflexivity.
Qed.

Lemma od_get_In d k v : od_get d k = Some v -> In (k, v) d.
Proof.
  induction d as [|[k' v'] d IH]; simpl; [discriminate|].
  destruct (decide (k' = k)) as [->|Hne].
  - intros [= ->]. left. reflexivity.
  - intros Hg. right. apply IH. exact Hg.
Qed.

End OrderedDictFacts.

(** ** [transaction.py]: the lock set computed by [preprocessing] *)

(** [keys_to_be_locked[key] = lock_type] for every key of one query *)
Definition lock_fold (kind : lock_type) (keys : list Z) (m : list (Z * lock_type))
  : list (Z * lock_type) :=
  foldl (fun m key => od_set m key kind) m keys.

(** The lock map after the analysis of a list of queries, when no analysis
    raises. *)
Fixpoint final_locks (t : Table) (qs : list query) (m : list (Z * lock_type))
  : result (list (Z * lock_type)) :=
  match qs with
  | [] => Ok m
  | q :: qs' =>
      match fst (query_locks q t) with
      | Ok (kind, keys) => final_locks t qs' (lock_fold kind keys m)
      | Err e => Err e
      end
  end.

Lemma od_get_lock_fold kind keys m k :
  od_get (lock_fold kind keys m) k =
  if decide (k ∈ keys) then Some kind else od_get m k.
Proof.
  revert m. induction keys as [|k0 keys IH]; intros m.
  - unfold lock_fold. cbn [foldl].
    destruct (decide (k ∈ [])) as [H'|_]; [|reflexivity].
    apply elem_of_nil in H'. contradiction.
  - unfold lock_fold in *. cbn [foldl]. rewrite IH.
    destruct (decide (k ∈ keys)) as [Hin|Hin].
    + rewrite decide_True by (apply elem_of_cons; right; exact Hin). reflexivity.
    + destruct (decide (k0 = k)) as [->|Hne].
      * rewrite decide_True by (apply elem_of_cons; left; reflexivity).
        apply od_get_set_eq.
      * rewrite decide_False by (rewrite elem_of_cons; intros [?|?]; congruence).
        apply od_get_set_ne. exact Hne.
Qed.

Lemma set_index_id t : set_index (index t) t = t.
Proof. destruct t; reflexivity. Qed.

Lemma Index_locate_pure key fi ix : snd (Index_locate key fi ix) = ix.
Proof.
  unfold Index_locate, bind, gets, lift_result, raise, ret.
  destruct (py_nth (index_created ix) fi) as [[]|]; simpl; try reflexivity.
  destruct (py_nth (map_list ix) fi) as [m|]; simpl; try reflexivity.
  destruct (od_get m (Some key)) as [ans|]; simpl; try reflexivity.
  destruct (decide (length ans = 0%nat)); reflexivity.
Qed.

Lemma in_index_locate key fi t :
  in_index (Index_locate key fi) t = (fst (Index_locate key fi (index t)), t).
Proof.
  unfold in_index, zoom.
  pose proof (Index_locate_pure key fi (index t)) as Hp.
  destruct (Index_locate key fi (index t)) as [r ix']. simpl in *. subst ix'.
  rewrite set_index_id. reflexivity.
Qed.

Lemma map_M_locate_pure (l : list Z) (pk : Z) t :
  snd (map_M (fun i => base_rid_list <- in_index (Index_locate i pk) ;;
                       ret (i, base_rid_list)) l t) = t.
Proof.
  revert t. induction l as [|i l IH]; intros t; simpl; [reflexivity|].
  unfold bind at 1. unfold bind at 1. rewrite in_index_locate.
  destruct (fst (Index_locate i pk (index t))) as [r|e]; simpl; [|reflexivity].
  unfold bind. specialize (IH t).
  destruct (map_M _ l t) as [[ys|e] t']; simpl in *; subst; reflexivity.
Qed.

(** The analysis of a query reads the table and leaves it as it is. *)
Lemma query_locks_pure q t : snd (query_locks q t) = t.
Proof.
  unfold query_locks. unfold bind at 1. unfold gets at 1.
  destruct q as [cols|key col|key ki qc|key cols|key|s e c]; simpl.
  - unfold bind, lift_result, ret. destruct (py_nth cols (key_index t)); reflexivity.
  - unfold bind, lift_result, ret.
    destruct (py_nth [key; col] (key_index t)); reflexivity.
  - case_decide; [|reflexivity].
    unfold bind at 1. rewrite in_index_locate.
    destruct (fst (Index_locate key ki (index t))) as [r|err]; [|reflexivity].
    unfold bind, gets, lift_result, raise, ret.
    destruct (py_nth (map_list (index t)) (key_index t)) as [[|? ?]|]; simpl;
      try reflexivity.
    destruct r; reflexivity.
  - reflexivity.
  - reflexivity.
  - case_decide; [reflexivity|].
    unfold bind at 1.
    pose proof (map_M_locate_pure
      (py_range3 s (e + (e - s) / Z.abs (e - s)) ((e - s) / Z.abs (e - s)))
      (key_index t) t) as Hp.
    destruct (map_M _ _ t) as [[ys|err] t']; simpl in *; subst; reflexivity.
Qed.

Lemma set_keys_to_be_locked_id x : set_keys_to_be_locked (keys_to_be_locked x) x = x.
Proof. destruct x; reflexivity. Qed.

Lemma lock_keys_loop kind keys x t :
  for_each keys (fun key =>
    in_txn (modify (fun x =>
      set_keys_to_be_locked (od_set (keys_to_be_locked x) key kind) x))) (x, t)
  = (Ok tt, (set_keys_to_be_locked (lock_fold kind keys (keys_to_be_locked x)) x, t)).
Proof.
  revert x. induction keys as [|k keys IH]; intros x.
  - simpl. unfold ret. rewrite set_keys_to_be_locked_id. reflexivity.
  - cbn [for_each]. unfold bind at 1. unfold in_txn at 1, zoom, modify. simpl.
    rewrite IH. destruct x; reflexivity.
Qed.

(** The loop of [preprocessing] over the queries. *)
Lemma preprocessing_loop qs x t :
  exists x',
    for_each qs preprocessing_step (x, t) =
      (match final_locks t qs (keys_to_be_locked x) with
       | Ok _ => Ok tt
       | Err e => Err e
       end, (x', t)) /\
    queries x' = queries x /\
    (forall m, final_locks t qs (keys_to_be_locked x) = Ok m ->
               keys_to_be_locked x' = m).
Proof.
  revert x. induction qs as [|q qs IH]; intros x.
  - exists x. simpl. repeat split; try reflexivity. intros m Hm. ok_inj Hm.
    reflexivity.
  - cbn [for_each final_locks]. unfold bind at 1.
    unfold preprocessing_step at 1. unfold bind at 1.
    unfold in_table at 1, zoom. cbn [snd fst].
    pose proof (query_locks_pure q t) as Hp.
    destruct (query_locks q t) as [[[kind keys]|e] t1]; cbn [fst snd] in *; subst t1.
    + rewrite lock_keys_loop.
      destruct (IH (set_keys_to_be_locked
                      (lock_fold kind keys (keys_to_be_locked x)) x))
        as (x' & Hrun & Hq & Hm).
      exists x'. split; [|split].
      * rewrite Hrun. destruct x; reflexivity.
      * rewrite Hq. destruct x; reflexivity.
      * intros m Hf. apply Hm. destruct x; exact Hf.
    + exists x. repeat split; try reflexivity. intros m Hm. discriminate.
Qed.

Lemma Transaction_preprocessing_eq x t :
  table_bound x = true ->
  Transaction_preprocessing (x, t) = for_each (queries x) preprocessing_step (x, t).
Proof.
  intros Hb. unfold Transaction_preprocessing. unfold bind at 1.
  unfold in_txn at 1, zoom, gets. cbn [fst snd]. rewrite Hb. cbn [negb].
  unfold bind at 1. unfold in_txn at 1, zoom, gets. cbn [fst snd].
  destruct x; reflexivity.
Qed.

Lemma final_locks_later t qs m m' k kind :
  final_locks t qs m = Ok m' ->
  od_get m k = Some kind ->
  (forall q' kind' keys', q' ∈ qs ->
     fst (query_locks q' t) = Ok (kind', keys') -> k ∉ keys') ->
  od_get m' k = Some kind.
Proof.
  revert m. induction qs as [|q qs IH]; intros m Hf Hg Hno.
  - simpl in Hf. ok_inj Hf. exact Hg.
  - cbn [final_locks] in Hf.
    destruct (fst (query_locks q t)) as [[kind' keys']|e] eqn:Hq; [|discriminate].
    apply (IH _ Hf).
    + rewrite od_get_lock_fold. rewrite decide_False; [exact Hg|].
      apply (Hno q kind' keys'); [apply elem_of_cons; left; reflexivity | exact Hq].
    + intros q' k' ks' Hin. apply Hno. apply elem_of_cons. right. exact Hin.
Qed.

Lemma final_locks_last_request t qs1 q qs2 m m' kind keys k :
  final_locks t (qs1 ++ q :: qs2) m = Ok m' ->
  fst (query_locks q t) = Ok (kind, keys) ->
  k ∈ keys ->
  (forall q' kind' keys', q' ∈ qs2 ->
     fst (query_locks q' t) = Ok (kind', keys') -> k ∉ keys') ->
  od_get m' k = Some kind.
Proof.
  revert m. induction qs1 as [|q1 qs1 IH]; intros m Hf Hq Hin Hno.
  - cbn [app final_locks] in Hf. rewrite Hq in Hf.
    apply (final_locks_later _ _ _ _ _ _ Hf); [|exact Hno].
    rewrite od_get_lock_fold. rewrite decide_True by exact Hin. reflexivity.
  - cbn [app final_locks] in Hf.
    destruct (fst (query_locks q1 t)) as [[kind1 keys1]|e]; [|discriminate].
    apply (IH _ Hf Hq Hin Hno).
Qed.

(** C5, as the code has it: after [preprocessing] a key is mapped to the lock
    type of the last enqueued query that asks for a lock on it; it is the
    writer type exactly when that last query is a writing one. *)
Theorem preprocessing_last_request_wins
    (x x' : Transaction) (t t' : Table) (qs1 qs2 : list query) (q : query)
    (kind : lock_type) (keys : list Z) (k : Z) :
  Transaction_preprocessing (x, t) = (Ok tt, (x', t')) ->
  queries x = qs1 ++ q :: qs2 ->
  fst (query_locks q t) = Ok (kind, keys) ->
  k ∈ keys ->
  (forall q' kind' keys', q' ∈ qs2 ->
     fst (query_locks q' t) = Ok (kind', keys') -> k ∉ keys') ->
  od_get (keys_to_be_locked x') k = Some kind.
Proof.
  intros Hrun Hqs Hq Hin Hno.
  assert (Hb : table_bound x = true).
  { unfold Transaction_preprocessing, bind, in_txn, zoom, gets in Hrun.
    cbn [fst snd] in Hrun. destruct (table_bound x); [reflexivity|].
    cbn in Hrun. discriminate. }
  rewrite Transaction_preprocessing_eq in Hrun by exact Hb.
  destruct (preprocessing_loop (queries x) x t) as (x1 & Hr & _ & Hm).
  rewrite Hrun in Hr.
  destruct (final_locks t (queries x) (keys_to_be_locked x)) as [m|e] eqn:Hf;
    [|discriminate].
  assert (x1 = x') by congruence. subst x1.
  rewrite (Hm m eq_refl). rewrite Hqs in Hf.
  exact (final_locks_last_request _ _ _ _ _ _ _ _ _ Hf Hq Hin Hno).
Qed.

(** A table without columns, and the table of a result. *)
Definition empty_table : Table :=
  mkTable 0 0 (mkIndex 0 [] [] 0) (mkCache 0 [] [] [] (mkWorld [] ∅))
    [] [] [] false false.

Definition table_or_empty (r : result Table) : Table :=
  match r with
  | Ok t => t
  | Err _ => empty_table
  end.

(** A table of three columns keyed on column 0, just created, with a
    buffer pool of 16 pages. *)
Definition sample_table : Table :=
  table_or_empty (Table_init 16 3 0 (fresh_world 3)).

(** A transaction of the given queries, added in order. *)
Definition transaction_of (qs : list query) : Transaction :=
  foldl (fun x q => Transaction_add_query q x) Transaction_init qs.

Lemma preprocessing_last_request_wins_witness :
  exists x' t',
    Transaction_preprocessing
      (transaction_of [q_select 1 0 [1; 1; 1]; q_update 1 [None; Some 2; None]],
       sample_table) = (Ok tt, (x', t')) /\
    od_get (keys_to_be_locked x') 1 = Some writer.
Proof.
  eexists _, _. split; [vm_compute; reflexivity|].
  eapply (preprocessing_last_request_wins
            (transaction_of [q_select 1 0 [1; 1; 1]; q_update 1 [None; Some 2; None]])
            _ sample_table _ [q_select 1 0 [1; 1; 1]] []
            (q_update 1 [None; Some 2; None]) writer [1] 1).
  - vm_compute. reflexivity.
  - reflexivity.
  - reflexivity.
  - apply elem_of_cons. left. reflexivity.
  - intros q' kind' keys' Hin. apply elem_of_nil in Hin. contradiction.
Defined.

(** C5 as stated fails: a writing query followed by a reading query on the
    same primary key leaves the key mapped to the reader type. *)
Lemma preprocessing_reader_after_writer :
  exists x' t',
    Transaction_preprocessing
      (transaction_of [q_update 1 [None; Some 2; None]; q_select 1 0 [1; 1; 1]],
       sample_table) = (Ok tt, (x', t')) /\
    fst (query_locks (q_update 1 [None; Some 2; None]) sample_table)
      = Ok (writer, [1]) /\
    fst (query_locks (q_select 1 0 [1; 1; 1]) sample_table) = Ok (reader, [1]) /\
    od_get (keys_to_be_locked x') 1 = Some reader /\
    od_get (keys_to_be_locked x') 1 <> Some writer.
Proof.
  eexists _, _. split; [vm_compute; reflexivity|].
  split; [vm_compute; reflexivity|].
  split; [vm_compute; reflexivity|].
  split; [vm_compute; reflexivity | vm_compute; discriminate].
Qed.

(** ** [transaction.py]: a sum over a single key *)

Lemma final_locks_sum_fails t qs1 qs2 s c m :
  exists e, final_locks t (qs1 ++ q_sum s s c :: qs2) m = Err e /\
    (Forall (fun q => exists r, fst (query_locks q t) = Ok r) qs1 ->
     e = ZeroDivisionError).
Proof.
  revert m. induction qs1 as [|q qs1 IH]; intros m.
  - exists ZeroDivisionError. split; [|reflexivity].
    cbn [app final_locks]. unfold query_locks, bind, gets. cbn [fst snd].
    rewrite decide_True; [reflexivity|]. rewrite Z.sub_diag. reflexivity.
  - cbn [app final_locks].
    destruct (fst (query_locks q t)) as [[kind keys]|e] eqn:Hq.
    + destruct (IH (lock_fold kind keys m)) as (e & He & Hall).
      exists e. split; [exact He|]. intros HF. apply Hall.
      inversion HF; assumption.
    + exists e. split; [reflexivity|]. intros HF. inversion HF as [|? ? [r Hr] ?].
      congruence.
Qed.

(** C10, amended: a transaction bound to a table that holds a sum query
    with [start_range] equal to [end_range] never gets past
    [preprocessing]: [Transaction.run] raises, and what it raises is the
    division by zero of the lock-set computation whenever the lock analysis
    of every query enqueued before the sum succeeds; otherwise it is the
    error of an earlier analysis. *)
Theorem run_sum_single_key_divides_by_zero
    (MERGE_EPOCH : Z) (fuel : nat) (now : Z) (x : Transaction) (t : Table)
    (qs1 qs2 : list query) (s c : Z) :
  table_bound x = true ->
  queries x = qs1 ++ q_sum s s c :: qs2 ->
  (exists e, fst (Transaction_run MERGE_EPOCH fuel now (x, t)) = Err e) /\
  (Forall (fun q => exists r, fst (query_locks q t) = Ok r) qs1 ->
   fst (Transaction_run MERGE_EPOCH fuel now (x, t)) = Err ZeroDivisionError).
Proof.
  intros Hb Hqs.
  destruct (preprocessing_loop (queries x) x t) as (x1 & Hr & _ & _).
  destruct (final_locks_sum_fails t qs1 qs2 s c (keys_to_be_locked x))
    as (e & He & Hall).
  rewrite Hqs in Hr. rewrite He in Hr. rewrite <- Hqs in Hr.
  rewrite <- Transaction_preprocessing_eq in Hr by exact Hb.
  assert (Hrun : fst (Transaction_run MERGE_EPOCH fuel now (x, t)) = Err e).
  { unfold Transaction_run. rewrite (bind_err _ _ _ _ _ Hr). reflexivity. }
  split.
  - exists e. exact Hrun.
  - intros HF. rewrite Hrun. f_equal. apply Hall. exact HF.
Qed.

Lemma run_sum_single_key_divides_by_zero_witness :
  (exists e, fst (Transaction_run 2 8 0
                    (transaction_of [q_insert [1; 2; 3]; q_sum 1 1 2], sample_table))
             = Err e) /\
  fst (Transaction_run 2 8 0
         (transaction_of [q_insert [1; 2; 3]; q_sum 1 1 2], sample_table))
  = Err ZeroDivisionError.
Proof.
  destruct (run_sum_single_key_divides_by_zero 2 8 0
              (transaction_of [q_insert [1; 2; 3]; q_sum 1 1 2]) sample_table
              [q_insert [1; 2; 3]] [] 1 2 eq_refl eq_refl) as [H1 H2].
  split; [exact H1|]. apply H2.
  constructor; [|constructor]. eexists. vm_compute. reflexivity.
Defined.

(** ** [query.py]: a select after a delete *)

(** C3: after [insert(1, 10, 100)] and [delete(1)] on a fresh table keyed on
    column 0, [locate(1, 0)] is [None], yet [select(1, 0, [1, 1, 1])] does
    not return the empty list: iterating the [None] of [locate] raises. *)
Theorem select_after_delete_raises :
  exists t1 t2,
    Query_insert 0 [1; 10; 100] sample_table = (Ok tt, t1) /\
    Query_delete 8 1 t1 = (Ok tt, t2) /\
    fst (Index_locate 1 (key_index t2) (index t2)) = Ok None /\
    fst (Query_select 8 1 (key_index t2) [1; 1; 1] t2) = Err TypeError /\
    fst (Query_select 8 1 (key_index t2) [1; 1; 1] t2) <> Ok [].
Proof.
  eexists _, _. split; [vm_compute; reflexivity|].
  split; [vm_compute; reflexivity|].
  split; [vm_compute; reflexivity|].
  split; [vm_compute; reflexivity | vm_compute; discriminate].
Qed.

(** ** [cache.py]: an append without data *)

(** The buffer pool of one page over the files of a fresh one-column table. *)
Definition one_page_cache : Cache :=
  mkCache 1 [] (le_split 4 0 ++ le_split 4 8) (le_split 4 0 ++ le_split 4 0)
    (fresh_world 1).

(** The RID (page 0, offset 8). *)
Definition rid_0_8 : bytes := le_split 4 0 ++ le_split 4 8.

(** C7: [set_entry(range, rid, column, is_append=True)] without data bumps
    the counter in the bytes of the cached page but returns before
    [__set_page]: the entry stays clean and keeps the old counter attribute,
    so that after the eviction of the page the increment is gone: the page
    read back has counter 1 again. *)
Theorem set_entry_append_without_data_not_dirty :
  exists c1 c2 p1 p2,
    Cache_set_entry tail rid_0_8 0 None true one_page_cache = (Ok tt, c1) /\
    od_get (cache c1) (tail, 0, 0) = Some (false, p1) /\
    num_records p1 = 1 /\
    unpack_from_Q (buffer (objects (world c1)) p1) = Ok 2 /\
    (Cache_get_page tail 0 1 ;;; Cache_get_page tail 0 0) c1 = (Ok p2, c2) /\
    num_records p2 = 1 /\
    unpack_from_Q (buffer (objects (world c2)) p2) = Ok 1.
Proof.
  eexists _, _, _, _. split; [vm_compute; reflexivity|].
  split; [vm_compute; reflexivity|].
  split; [vm_compute; reflexivity|].
  split; [vm_compute; reflexivity|].
  split; [vm_compute; reflexivity|].
  split; vm_compute; reflexivity.
Qed.

(** ** The pages behind the buffer pool *)

(** A page as [Page(range_type)] makes it: the counter, then zeros. *)
Definition fresh_page (rt : range_type) : bytes :=
  le_split 8 (match rt with base => 2 | tail => 1 end)
    ++ replicate (Z.to_nat (PAGESIZE - 8)) Byte.x00.

(** The page a read from the files yields: the stored page, or a fresh
    one past the end of the file (the file is grown with fresh pages). *)
Definition disk_page (d : files) (k : page_key) : bytes :=
  match d !! (k.1.1, k.2) with
  | Some f =>
      if decide (0 <= k.1.2 < Z.of_nat (length f) / PAGESIZE)
      then file_read f (k.1.2 * PAGESIZE) PAGESIZE
      else fresh_page k.1.1
  | None => fresh_page k.1.1
  end.

(** The current contents of a page: those of the cached page when there is
    one, else those of the files. *)
Definition content (c : Cache) (k : page_key) : bytes :=
  match od_get (cache c) k with
  | Some e => buffer (objects (world c)) e.2
  | None => disk_page (disk (world c)) k
  end.

(** The record counter in word 0 of a page. *)
Definition counter_word (b : bytes) : Z := le_combine (take 8 b).

(** A page without its counter word. *)
Definition mask_counter (b : bytes) : bytes := replicate 8 Byte.x00 ++ drop 8 b.

(** The logical contents of the pages: everything but the counters. *)
Definition pv (c : Cache) (k : page_key) : bytes := mask_counter (content c k).

Lemma fresh_page_length rt : Z.of_nat (length (fresh_page rt)) = PAGESIZE.
Proof.
  unfold fresh_page. rewrite length_app, length_le_split, length_replicate.
  unfold PAGESIZE. lia.
Qed.

Lemma Page_init_fresh rt (h : list bytes) :
  Page_init (Some rt) [] h =
  (Ok (mkPage (length h) (match rt with base => 2 | tail => 1 end)),
   h ++ [fresh_page rt]).
Proof.
  unfold Page_init. rewrite decide_False by (cbn [length]; unfold PAGESIZE; lia).
  unfold bind at 1. unfold alloc at 1.
  assert (Hw : Page_write_field
            (mkPage (length h) (match rt with base => 2 | tail => 1 end)) 0
            (le_split 8 (match rt with base => 2 | tail => 1 end))
            (h ++ [replicate (Z.to_nat PAGESIZE) Byte.x00])
          = (Ok tt, h ++ [fresh_page rt])).
  { rewrite Page_write_field_total by (rewrite length_le_split; reflexivity).
    f_equal. unfold buffer. cbn [data].
    rewrite lookup_app_r by lia. rewrite Nat.sub_diag. cbn [lookup list_lookup default].
    replace (length h) with (length h + 0)%nat at 1 by lia.
    rewrite insert_app_r. cbn [insert list_insert].
    destruct rt; do 2 f_equal; try (vm_compute; reflexivity). }
  destruct rt; unfold bind, ret, lift_result, pack_Q;
    rewrite decide_True by lia; rewrite Hw; reflexivity.
Qed.

Lemma Page_init_bytes (b : bytes) (h : list bytes) :
  Z.of_nat (length b) = PAGESIZE ->
  Page_init None b h = (Ok (mkPage (length h) (counter_word b)), h ++ [b]).
Proof.
  intros Hl. unfold Page_init. rewrite decide_True by exact Hl.
  unfold bind, alloc, lift_result, unpack_from_Q, ret.
  rewrite decide_True by (unfold PAGESIZE in Hl; lia). reflexivity.
Qed.

(** *** Whole-page files *)

Lemma whole_pages (f : bytes) :
  Z.of_nat (length f) mod PAGESIZE = 0 ->
  Z.of_nat (length f) = Z.of_nat (length f) / PAGESIZE * PAGESIZE.
Proof.
  intros Hm. pose proof (Z.div_mod (Z.of_nat (length f)) PAGESIZE).
  unfold PAGESIZE in *. lia.
Qed.

Lemma file_read_length (f : bytes) i :
  0 <= i -> i < Z.of_nat (length f) / PAGESIZE ->
  Z.of_nat (length (file_read f (i * PAGESIZE) PAGESIZE)) = PAGESIZE.
Proof.
  intros H0 Hi. unfold file_read. rewrite length_take, length_drop.
  assert (Z.of_nat (length f) / PAGESIZE * PAGESIZE <= Z.of_nat (length f)).
  { pose proof (Z.div_mod (Z.of_nat (length f)) PAGESIZE).
    pose proof (Z.mod_pos_bound (Z.of_nat (length f)) PAGESIZE).
    unfold PAGESIZE in *. lia. }
  unfold PAGESIZE in *. nia.
Qed.

(** Reading a page of a file after a page was written. *)
Lemma file_read_write (f d : bytes) i j :
  Z.of_nat (length d) = PAGESIZE ->
  0 <= i -> (i + 1) * PAGESIZE <= Z.of_nat (length f) ->
  0 <= j -> (j + 1) * PAGESIZE <= Z.of_nat (length f) ->
  file_read (file_write f (i * PAGESIZE) d) (j * PAGESIZE) PAGESIZE =
  if decide (i = j) then d else file_read f (j * PAGESIZE) PAGESIZE.
Proof.
  intros Hd Hi Hif Hj Hjf. unfold file_read, file_write.
  assert (HP : PAGESIZE = 4096) by reflexivity.
  apply list_eq. intros n.
  rewrite lookup_take, lookup_drop.
  destruct (decide (i = j)) as [->|Hne].
  - destruct (decide (n < Z.to_nat PAGESIZE)%nat) as [Hn|Hn].
    + rewrite lookup_app_r by (rewrite length_take; lia).
      rewrite length_take. rewrite lookup_app_l by lia. f_equal. lia.
    + symmetry. apply lookup_ge_None. lia.
  - rewrite lookup_take, lookup_drop.
    destruct (decide (n < Z.to_nat PAGESIZE)%nat) as [Hn|Hn]; [|reflexivity].
    destruct (decide (j < i)) as [Hlt|Hge].
    + rewrite lookup_app_l by (rewrite length_take; nia).
      rewrite lookup_take_lt by nia. reflexivity.
    + rewrite lookup_app_r by (rewrite length_take; nia).
      rewrite lookup_app_r by (rewrite length_take; nia).
      rewrite lookup_drop, length_take. f_equal. nia.
Qed.

Lemma file_write_length (f d : bytes) i :
  Z.of_nat (length d) = PAGESIZE ->
  0 <= i -> (i + 1) * PAGESIZE <= Z.of_nat (length f) ->
  length (file_write f (i * PAGESIZE) d) = length f.
Proof.
  intros Hd Hi Hif. unfold file_write.
  rewrite !length_app, length_take, length_drop.
  assert (HP : PAGESIZE = 4096) by reflexivity. nia.
Qed.

(** Reading a page of a file that was grown with copies of a page. *)
Lemma file_read_grown (f pg : bytes) (m : nat) j :
  Z.of_nat (length pg) = PAGESIZE ->
  Z.of_nat (length f) mod PAGESIZE = 0 ->
  0 <= j ->
  file_read (f ++ mjoin (replicate m pg)) (j * PAGESIZE) PAGESIZE =
  if decide (j < Z.of_nat (length f) / PAGESIZE)
  then file_read f (j * PAGESIZE) PAGESIZE
  else if decide (j < Z.of_nat (length f) / PAGESIZE + Z.of_nat m) then pg
  else [].
Proof.
  intros Hpg Hm Hj. pose proof (whole_pages f Hm) as Hw.
  assert (HP : PAGESIZE = 4096) by reflexivity.
  set (q := Z.of_nat (length f) / PAGESIZE) in *.
  unfold file_read.
  destruct (decide (j < q)) as [Hlt|Hge].
  - rewrite drop_app_le by nia. rewrite take_app_le; [reflexivity|].
    rewrite length_drop. nia.
  - rewrite drop_app_ge by nia.
    replace (Z.to_nat (j * PAGESIZE) - length f)%nat
      with (Z.to_nat (j - q) * Z.to_nat PAGESIZE)%nat by nia.
    assert (Hgen : forall (m n : nat),
      take (Z.to_nat PAGESIZE) (drop (n * Z.to_nat PAGESIZE) (mjoin (replicate m pg)))
      = if decide (n < m)%nat then pg else []).
    { clear -Hpg HP. intros m. induction m as [|m IH]; intros n.
      - cbn [replicate mjoin list_join]. rewrite drop_nil, take_nil.
        destruct (decide (n < 0)%nat); [lia|reflexivity].
      - cbn [replicate mjoin list_join]. destruct n as [|n].
        + rewrite Nat.mul_0_l, drop_0. rewrite take_app_length' by lia.
          rewrite decide_True by lia. reflexivity.
        + rewrite drop_app_ge by nia.
          replace (S n * Z.to_nat PAGESIZE - length pg)%nat
            with (n * Z.to_nat PAGESIZE)%nat by nia.
          rewrite IH. destruct (decide (n < m)%nat), (decide (S n < S m)%nat);
            try reflexivity; lia. }
    rewrite Hgen.
    destruct (decide (Z.to_nat (j - q) < m)%nat), (decide (j < q + Z.of_nat m));
      try reflexivity; lia.
Qed.

(** *** The files under [read_page] and [write_page] *)

Definition files_whole (d : files) : Prop :=
  forall fk f, d !! fk = Some f -> Z.of_nat (length f) mod PAGESIZE = 0.

(** The files after some reads and writes of pages: they may have grown. *)
Definition disk_ext (d d' : files) : Prop :=
  (forall fk g, d !! fk = Some g ->
     exists g', d' !! fk = Some g' /\ (length g <= length g')%nat) /\
  (forall fk, d !! fk = None -> d' !! fk = None).

Lemma disk_ext_refl d : disk_ext d d.
Proof.
  split; [|auto]. intros fk g Hg. exists g. split; [exact Hg | lia].
Qed.

Lemma disk_ext_trans d1 d2 d3 : disk_ext d1 d2 -> disk_ext d2 d3 -> disk_ext d1 d3.
Proof.
  intros [H1 H1'] [H2 H2']. split.
  - intros fk g Hg. destruct (H1 _ _ Hg) as (g' & Hg' & Hl).
    destruct (H2 _ _ Hg') as (g'' & Hg'' & Hl'). exists g''. split; [exact Hg''|lia].
  - intros fk Hn. apply H2', H1', Hn.
Qed.

Lemma disk_page_length d k :
  files_whole d -> Z.of_nat (length (disk_page d k)) = PAGESIZE.
Proof.
  intros Hw. unfold disk_page.
  destruct (d !! (k.1.1, k.2)) as [f|] eqn:Hf; [|apply fresh_page_length].
  case_decide as Hi; [|apply fresh_page_length].
  apply file_read_length; lia.
Qed.

Lemma div_lt_whole (f : bytes) i :
  Z.of_nat (length f) mod PAGESIZE = 0 ->
  i < Z.of_nat (length f) / PAGESIZE <-> (i + 1) * PAGESIZE <= Z.of_nat (length f).
Proof.
  intros Hm. pose proof (whole_pages f Hm) as Hw.
  assert (HP : PAGESIZE = 4096) by reflexivity.
  set (q := Z.of_nat (length f) / PAGESIZE) in *. nia.
Qed.

Lemma read_page_spec rt i col (w : World) (f : bytes) :
  disk w !! (rt, col) = Some f -> files_whole (disk w) -> 0 <= i ->
  exists l w',
    DiskHelper_read_page rt i col w
      = (Ok (mkPage l (counter_word (disk_page (disk w) (rt, i, col)))), w') /\
    objects w' !! l = Some (disk_page (disk w) (rt, i, col)) /\
    (length (objects w) <= l)%nat /\
    (exists extra, objects w' = objects w ++ extra) /\
    files_whole (disk w') /\
    (forall k, disk_page (disk w') k = disk_page (disk w) k) /\
    (exists f', disk w' !! (rt, col) = Some f' /\ i < Z.of_nat (length f') / PAGESIZE) /\
    disk_ext (disk w) (disk w').
Proof.
  intros Hf Hw Hi. pose proof (Hw _ _ Hf) as Hm.
  assert (HP : PAGESIZE = 4096) by reflexivity.
  assert (Hq0 : 0 <= Z.of_nat (length f) / PAGESIZE) by (apply Z.div_pos; lia).
  unfold DiskHelper_read_page. unfold bind at 1.
  unfold DiskHelper__open_file at 1. rewrite Hf.
  destruct w as [h d]. cbn [objects disk] in *.
  destruct (decide (i >= Z.of_nat (length f) / PAGESIZE)) as [Hge|Hlt].
  - (* the file is grown *)
    unfold bind at 1. unfold bind at 1.
    unfold in_heap at 1, zoom. cbn [objects].
    rewrite Page_init_fresh. unfold bind at 1.
    unfold in_heap at 1, zoom, deref. cbn [objects set_objects data disk].
    rewrite lookup_app_r by lia. rewrite Nat.sub_diag. cbn [lookup list_lookup default].
    unfold store_file, modify. cbn [set_disk disk objects].
    unfold bind at 1. unfold DiskHelper__open_file.
    unfold set_objects, set_disk, id. cbn [objects disk].
    rewrite lookup_insert_eq.
    set (f' := f ++ mjoin (replicate (Z.to_nat (i + 1)) (fresh_page rt))).
    assert (Hrd : forall j, 0 <= j ->
      file_read f' (j * PAGESIZE) PAGESIZE =
      if decide (j < Z.of_nat (length f) / PAGESIZE)
      then file_read f (j * PAGESIZE) PAGESIZE
      else if decide (j < Z.of_nat (length f) / PAGESIZE + Z.of_nat (Z.to_nat (i + 1)))
           then fresh_page rt else []).
    { intros j Hj. apply file_read_grown; [apply fresh_page_length | exact Hm | exact Hj]. }
    assert (Hlen' : Z.of_nat (length f') =
                    (Z.of_nat (length f) / PAGESIZE + (i + 1)) * PAGESIZE).
    { unfold f'. rewrite length_app, length_join.
      pose proof (whole_pages f Hm) as Hwp.
      assert (Hs : sum_list (length <$> replicate (Z.to_nat (i + 1)) (fresh_page rt))
                   = (Z.to_nat (i + 1) * Z.to_nat PAGESIZE)%nat).
      { pose proof (fresh_page_length rt) as Hfl.
        rewrite fmap_replicate, sum_list_replicate. lia. }
      rewrite Hs, Nat2Z.inj_add, Nat2Z.inj_mul, !Z2Nat.id by lia.
      rewrite Z.mul_add_distr_r. lia. }
    assert (Hq' : Z.of_nat (length f') / PAGESIZE = Z.of_nat (length f) / PAGESIZE + (i + 1)).
    { rewrite Hlen'. apply Z.div_mul. lia. }
    assert (Hpg : file_read f' (i * PAGESIZE) PAGESIZE = fresh_page rt).
    { rewrite Hrd by lia. rewrite decide_False by lia. rewrite decide_True by lia.
      reflexivity. }
    assert (Hdp : disk_page d (rt, i, col) = fresh_page rt).
    { unfold disk_page. cbn [fst snd]. rewrite Hf. rewrite decide_False by lia.
      reflexivity. }
    unfold in_heap, zoom. unfold set_objects. cbn [objects disk].
    rewrite Page_init_bytes by (rewrite Hpg; apply fresh_page_length).
    rewrite Hpg, Hdp.
    eexists _, _. split; [reflexivity|]. cbn [objects disk set_objects].
    split; [|split; [|split; [|split; [|split; [|split]]]]].
    + rewrite lookup_app_r by lia. rewrite Nat.sub_diag. reflexivity.
    + rewrite length_app. simpl. lia.
    + eexists. rewrite <- app_assoc. reflexivity.
    + intros fk g Hg. destruct (decide (fk = (rt, col))) as [->|Hne].
      * rewrite lookup_insert_eq in Hg. injection Hg as <-. rewrite Hlen'.
        apply Z.mod_mul. lia.
      * rewrite lookup_insert_ne in Hg by congruence. apply (Hw _ _ Hg).
    + intros k. unfold disk_page.
      destruct (decide ((k.1.1, k.2) = (rt, col))) as [Heq|Hne].
      * rewrite Heq. rewrite lookup_insert_eq, Hf. injection Heq as Hrt Hcol.
        rewrite Hq'. rewrite Hrt.
        destruct (decide (0 <= k.1.2 < Z.of_nat (length f) / PAGESIZE)) as [Hin|Hout].
        -- rewrite decide_True by lia. rewrite Hrd by lia.
           rewrite decide_True by lia. reflexivity.
        -- case_decide as Hin'; [|reflexivity].
           rewrite Hrd by lia. rewrite decide_False by lia.
           rewrite decide_True by lia. reflexivity.
      * rewrite lookup_insert_ne by congruence. reflexivity.
    + exists f'. rewrite lookup_insert_eq. split; [reflexivity|]. rewrite Hq'.
      assert (0 <= Z.of_nat (length f) / PAGESIZE) by (apply Z.div_pos; lia). lia.
    + split.
      * intros fk g Hg. destruct (decide (fk = (rt, col))) as [->|Hne].
        -- exists f'. rewrite lookup_insert_eq. split; [reflexivity|].
           assert (g = f) by congruence. subst g. unfold f'. rewrite length_app. lia.
        -- exists g. rewrite lookup_insert_ne by congruence. split; [exact Hg|lia].
      * intros fk Hn. destruct (decide (fk = (rt, col))) as [->|Hne]; [congruence|].
        rewrite lookup_insert_ne by congruence. exact Hn.
  - (* the page is in the file *)
    unfold bind at 1. unfold ret at 1. unfold bind at 1.
    unfold DiskHelper__open_file. cbn [disk]. rewrite Hf.
    assert (Hdp : disk_page d (rt, i, col) = file_read f (i * PAGESIZE) PAGESIZE).
    { unfold disk_page. cbn [fst snd]. rewrite Hf. rewrite decide_True by lia.
      reflexivity. }
    unfold in_heap, zoom. cbn [objects set_objects].
    rewrite Page_init_bytes by (apply file_read_length; lia).
    rewrite Hdp.
    eexists _, _. split; [reflexivity|]. cbn [objects disk set_objects].
    split; [|split; [|split; [|split; [|split; [|split]]]]].
    + rewrite lookup_app_r by lia. rewrite Nat.sub_diag. reflexivity.
    + lia.
    + eexists. reflexivity.
    + exact Hw.
    + reflexivity.
    + exists f. split; [exact Hf | lia].
    + apply disk_ext_refl.
Qed.

Lemma write_page_spec rt i col (p : Page) (w : World) (f : bytes) :
  disk w !! (rt, col) = Some f -> files_whole (disk w) ->
  0 <= i < Z.of_nat (length f) / PAGESIZE ->
  Z.of_nat (length (buffer (objects w) p)) = PAGESIZE ->
  exists w',
    DiskHelper_write_page rt i col p w = (Ok tt, w') /\
    objects w' = objects w /\
    files_whole (disk w') /\
    (forall k, disk_page (disk w') k =
               if decide (k = (rt, i, col)) then buffer (objects w) p
               else disk_page (disk w) k) /\
    disk_ext (disk w) (disk w') /\
    (forall fk g', disk w' !! fk = Some g' ->
       exists g, disk w !! fk = Some g /\ length g' = length g).
Proof.
  intros Hf Hw Hi Hl. pose proof (Hw _ _ Hf) as Hm.
  assert (HP : PAGESIZE = 4096) by reflexivity.
  pose proof (proj1 (div_lt_whole f i Hm) (proj2 Hi)) as Hi'.
  unfold DiskHelper_write_page. unfold bind at 1.
  unfold DiskHelper__open_file at 1. rewrite Hf.
  rewrite decide_False by lia.
  unfold bind, in_heap, zoom, deref, store_file, modify.
  destruct w as [h d]. unfold set_objects, set_disk. cbn [objects disk] in *.
  fold (buffer h p).
  assert (Hwl : length (file_write f (i * PAGESIZE) (buffer h p)) = length f).
  { apply file_write_length; lia. }
  eexists. split; [reflexivity|]. cbn [objects disk].
  split; [reflexivity|]. split; [|split; [|split]].
  - intros fk g Hg. destruct (decide (fk = (rt, col))) as [->|Hne].
    + rewrite lookup_insert_eq in Hg. injection Hg as <-. rewrite Hwl. exact Hm.
    + rewrite lookup_insert_ne in Hg by congruence. apply (Hw _ _ Hg).
  - intros k. unfold disk_page.
    destruct (decide ((k.1.1, k.2) = (rt, col))) as [Heq|Hne].
    + rewrite Heq, lookup_insert_eq, Hf, Hwl. injection Heq as Hrt Hcol.
      destruct (decide (0 <= k.1.2 < Z.of_nat (length f) / PAGESIZE)) as [Hin|Hout].
      * pose proof (proj1 (div_lt_whole f k.1.2 Hm) (proj2 Hin)) as Hk'.
        rewrite file_read_write by lia.
        destruct k as [[krt ki] kc]. cbn [fst snd] in *. subst krt kc.
        destruct (decide (i = ki)) as [->|Hne'].
        -- rewrite decide_True by reflexivity. reflexivity.
        -- rewrite decide_False by congruence. reflexivity.
      * rewrite decide_False; [reflexivity|].
        intros ->. cbn [fst snd] in Hout. lia.
    + rewrite lookup_insert_ne by congruence.
      rewrite decide_False; [reflexivity|].
      intros ->. apply Hne. reflexivity.
  - split.
    + intros fk g Hg. destruct (decide (fk = (rt, col))) as [->|Hne].
      * eexists. rewrite lookup_insert_eq. split; [reflexivity|].
        assert (g = f) by congruence. subst g. rewrite Hwl. lia.
      * exists g. rewrite lookup_insert_ne by congruence. split; [exact Hg|lia].
    + intros fk Hn. destruct (decide (fk = (rt, col))) as [->|Hne]; [congruence|].
      rewrite lookup_insert_ne by congruence. exact Hn.
  - intros fk g' Hg'. destruct (decide (fk = (rt, col))) as [->|Hne].
    + rewrite lookup_insert_eq in Hg'. injection Hg' as <-. exists f.
      split; [exact Hf | exact Hwl].
    + rewrite lookup_insert_ne in Hg' by congruence. exists g'. split; [exact Hg'|reflexivity].
Qed.

(** *** The invariant of the buffer pool *)

(** While a page is being rewritten in place (between the write into the
    shared buffer and [__set_page]) its key and its buffer are pinned: the
    entry of that key need not agree with the files. *)
Definition pinned (x : list (page_key * nat)) (k : page_key) : Prop := k ∈ x.*1.

(** One entry of the pool: its buffer is a page, its file holds the page,
    the counters are at most [N], its buffer is not the pinned buffer of
    another key, and a clean page agrees with its file on everything but
    the counter word. *)
Definition entry_ok (N : Z) (w : World) (x : list (page_key * nat))
    (e : page_key * (bool * Page)) : Prop :=
  (data e.2.2 < length (objects w))%nat /\
  Z.of_nat (length (buffer (objects w) e.2.2)) = PAGESIZE /\
  0 <= e.1.1.2 /\
  (exists f, disk w !! (e.1.1.1, e.1.2) = Some f /\
             e.1.1.2 < Z.of_nat (length f) / PAGESIZE) /\
  0 <= num_records e.2.2 <= N /\
  counter_word (buffer (objects w) e.2.2) <= N /\
  (forall kx lx, (kx, lx) ∈ x -> e.1 <> kx -> data e.2.2 <> lx) /\
  (~ pinned x e.1 -> e.2.1 = false ->
   drop 8 (buffer (objects w) e.2.2) = drop 8 (disk_page (disk w) e.1)).

Record wfx (N : Z) (x : list (page_key * nat)) (c : Cache) : Prop := mk_wfx {
  wf_size : 1 <= size c;
  wf_keys : NoDup (cache c).*1;
  wf_locs : NoDup ((fun e => data e.2.2) <$> cache c);
  wf_entries : Forall (entry_ok N (world c) x) (cache c);
  wf_whole : files_whole (disk (world c));
  wf_counters : forall k, counter_word (disk_page (disk (world c)) k) <= N;
  wf_pin : forall kx lx, (kx, lx) ∈ x ->
    (lx < length (objects (world c)))%nat /\
    Z.of_nat (length (default [] (objects (world c) !! lx))) = PAGESIZE
}.

(** What the page operations leave alone in the pool. *)
Definition cache_meta (c : Cache) : Z * bytes * bytes :=
  (size c, last_rid_base c, last_rid_tail c).

Section OrderedDictMore.
Context {K V : Type} `{EqDecision K}.
Implicit Types (d : list (K * V)) (k : K) (v : V).

Lemma od_del_sublist d k : od_del d k `sublist_of` d.
Proof.
  induction d as [|[k' v'] d IH]; simpl; [constructor|].
  destruct (decide (k' = k)); [apply sublist_cons; exact IH | apply sublist_skip; exact IH].
Qed.

Lemma od_get_None_iff d k : od_get d k = None <-> k ∉ d.*1.
Proof.
  induction d as [|[k' v'] d IH]; simpl.
  - split; [intros _; apply not_elem_of_nil | reflexivity].
  - destruct (decide (k' = k)) as [->|Hne].
    + split; [discriminate|]. intros Hn. exfalso. apply Hn. apply elem_of_cons. left.
      reflexivity.
    + rewrite IH. rewrite not_elem_of_cons. split; [intros Hn; split; [congruence|exact Hn]|].
      intros [_ Hn]. exact Hn.
Qed.

Lemma od_get_elem d k v : od_get d k = Some v -> (k, v) ∈ d.
Proof.
  induction d as [|[k' v'] d IH]; simpl; [discriminate|].
  destruct (decide (k' = k)) as [->|Hne].
  - intros [= ->]. apply elem_of_cons. left. reflexivity.
  - intros Hg. apply elem_of_cons. right. apply IH. exact Hg.
Qed.

Lemma od_get_of_elem d k v : NoDup d.*1 -> (k, v) ∈ d -> od_get d k = Some v.
Proof.
  induction d as [|[k' v'] d IH]; simpl; intros Hnd Hin.
  - apply elem_of_nil in Hin. contradiction.
  - apply NoDup_cons in Hnd as [Hni Hnd]. apply elem_of_cons in Hin as [Heq|Hin].
    + injection Heq as <- <-. rewrite decide_True by reflexivity. reflexivity.
    + destruct (decide (k' = k)) as [->|Hne].
      * exfalso. apply Hni. apply (list_elem_of_fmap_2 fst) in Hin. exact Hin.
      * apply IH; assumption.
Qed.

Lemma od_del_keys d k k' : k' ∈ (od_del d k).*1 -> k' ∈ d.*1 /\ k' <> k.
Proof.
  induction d as [|[k0 v0] d IH]; simpl.
  - intros Hin. apply elem_of_nil in Hin. contradiction.
  - destruct (decide (k0 = k)) as [->|Hne].
    + intros Hin. destruct (IH Hin) as [H1 H2]. split; [|exact H2].
      apply elem_of_cons. right. exact H1.
    + simpl. intros Hin. apply elem_of_cons in Hin as [->|Hin].
      * split; [apply elem_of_cons; left; reflexivity | exact Hne].
      * destruct (IH Hin) as [H1 H2]. split; [|exact H2].
        apply elem_of_cons. right. exact H1.
Qed.

End OrderedDictMore.

Lemma buffer_ext (h h' : list bytes) (p : Page) :
  (data p < length h)%nat ->
  (forall l, (l < length h)%nat -> h' !! l = h !! l) ->
  buffer h' p = buffer h p.
Proof. intros Hl He. unfold buffer. rewrite He by exact Hl. reflexivity. Qed.

(** An entry stays in order when the world moves on around it. *)
Lemma entry_ok_transfer N N' (w w' : World) x x' e :
  entry_ok N w x e -> N <= N' ->
  (forall l, (l < length (objects w))%nat -> objects w' !! l = objects w !! l) ->
  (length (objects w) <= length (objects w'))%nat ->
  disk_ext (disk w) (disk w') ->
  (forall kx lx, (kx, lx) ∈ x' -> e.1 <> kx -> (kx, lx) ∈ x \/ data e.2.2 <> lx) ->
  (~ pinned x' e.1 -> e.2.1 = false ->
     ~ pinned x e.1 /\ disk_page (disk w') e.1 = disk_page (disk w) e.1) ->
  entry_ok N' w' x' e.
Proof.
  intros (Hl & Hlen & Hi & (f & Hf & Hif) & Hn & Hc & Hloc & Hag) HN Hobj Hlo [Hext _]
    Hpins Hpin.
  assert (Hb : buffer (objects w') e.2.2 = buffer (objects w) e.2.2)
    by (apply buffer_ext; assumption).
  unfold entry_ok. rewrite Hb.
  split; [lia|]. split; [exact Hlen|]. split; [exact Hi|]. split.
  { destruct (Hext _ _ Hf) as (f' & Hf' & Hlf). exists f'. split; [exact Hf'|].
    assert (Z.of_nat (length f) / PAGESIZE <= Z.of_nat (length f') / PAGESIZE).
    { apply Z.div_le_mono; [unfold PAGESIZE; lia | lia]. }
    lia. }
  split; [lia|]. split; [lia|]. split.
  - intros kx lx Hin Hne. destruct (Hpins kx lx Hin Hne) as [Hin'|Hd]; [|exact Hd].
    apply (Hloc kx lx Hin' Hne).
  - intros Hnp Hclean. destruct (Hpin Hnp Hclean) as (Hnp' & Hdp). rewrite Hdp.
    apply (Hag Hnp' Hclean).
Qed.

(** The first two steps of [__set_page]: the key moves to the young end. *)
Lemma Cache__set_page_unfold k p c :
  Cache__set_page k p c =
  let c2 := set_cache (od_del (cache c) k ++ [(k, (true, p))]) c in
  if decide (Z.of_nat (length (cache c2)) > size c2) then
    match cache c2 with
    | (kv, (is_dirty, page)) :: rest =>
        if negb is_dirty then (Ok tt, set_cache rest c2)
        else
          let '(r, w') := DiskHelper_write_page kv.1.1 kv.1.2 kv.2 page (world c2) in
          (r, set_world w' (set_cache rest c2))
    | [] => (Err KeyError, c2)
    end
  else (Ok tt, c2).
Proof.
  unfold Cache__set_page, bind, modify, gets.
  assert (Hc2 : set_cache
            (od_set (cache match od_get (cache c) k with
                           | Some _ => set_cache (od_del (cache c) k) c
                           | None => c
                           end) k (true, p))
            match od_get (cache c) k with
            | Some _ => set_cache (od_del (cache c) k) c
            | None => c
            end = set_cache (od_del (cache c) k ++ [(k, (true, p))]) c).
  { destruct (od_get (cache c) k) eqn:Hg.
    - unfold set_cache. cbn [cache size last_rid_base last_rid_tail world].
      rewrite od_set_absent by apply od_get_del_eq. reflexivity.
    - rewrite od_set_absent by exact Hg. rewrite od_del_absent by exact Hg. reflexivity. }
  rewrite Hc2. cbn zeta. unfold id.
  set (c2 := set_cache (od_del (cache c) k ++ [(k, (true, p))]) c).
  destruct (decide (Z.of_nat (length (cache c2)) > size c2)); [|reflexivity].
  destruct (cache c2) as [|[kv [[] page]] rest]; [reflexivity| |reflexivity].
  cbn [negb]. destruct kv as [[rt i] col]. cbn [fst snd].
  unfold in_world, zoom, raise, ret.
  unfold set_cache at 1. cbn [world].
  destruct (DiskHelper_write_page rt i col page (world c2)) as [r w']. reflexivity.
Qed.

Lemma content_cached c k e :
  od_get (cache c) k = Some e -> content c k = buffer (objects (world c)) e.2.
Proof. intros H. unfold content. rewrite H. reflexivity. Qed.

Lemma content_uncached c k :
  od_get (cache c) k = None -> content c k = disk_page (disk (world c)) k.
Proof. intros H. unfold content. rewrite H. reflexivity. Qed.

Lemma mask_counter_eq (b1 b2 : bytes) :
  drop 8 b1 = drop 8 b2 -> mask_counter b1 = mask_counter b2.
Proof. intros H. unfold mask_counter. rewrite H. reflexivity. Qed.

(** [__set_page]: the page becomes the dirty entry of its key; whatever is
    evicted keeps its contents, in the files. *)
Lemma Cache__set_page_spec N x k p c :
  wfx N ((k, data p) :: x) c ->
  ~ pinned x k ->
  (forall kx lx, (kx, lx) ∈ x -> data p <> lx) ->
  0 <= num_records p <= N ->
  counter_word (buffer (objects (world c)) p) <= N ->
  0 <= k.1.2 ->
  (exists f, disk (world c) !! (k.1.1, k.2) = Some f /\
             k.1.2 < Z.of_nat (length f) / PAGESIZE) ->
  exists c',
    Cache__set_page k p c = (Ok tt, c') /\
    wfx N x c' /\
    od_get (cache c') k = Some (true, p) /\
    objects (world c') = objects (world c) /\
    (forall k', k' <> k -> ~ pinned x k' -> pv c' k' = pv c k') /\
    cache_meta c' = cache_meta c /\
    disk_ext (disk (world c)) (disk (world c')) /\
    disk_page (disk (world c')) k = disk_page (disk (world c)) k.
Proof.
  intros [Hsz Hkeys Hlocs Hent Hwh Hcnt Hpin] Hnpk Hpx Hattr Hcw Hki Hfile.
  destruct (Hpin k (data p)) as [Hpl Hplen]; [apply elem_of_cons; left; reflexivity|].
  assert (Hpin' : forall kx lx, (kx, lx) ∈ x ->
            (lx < length (objects (world c)))%nat /\
            Z.of_nat (length (default [] (objects (world c) !! lx))) = PAGESIZE).
  { intros kx lx Hin. apply (Hpin kx lx). apply elem_of_cons. right. exact Hin. }
  rewrite Cache__set_page_unfold. cbn zeta.
  set (L1 := od_del (cache c) k).
  assert (HL1sub : L1 `sublist_of` cache c) by apply od_del_sublist.
  assert (HL1k : od_get L1 k = None) by apply od_get_del_eq.
  assert (HL1keys : NoDup L1.*1).
  { eapply sublist_NoDup; [exact Hkeys | apply fmap_sublist; exact HL1sub]. }
  assert (HL1locs : NoDup ((fun e => data e.2.2) <$> L1)).
  { eapply sublist_NoDup; [exact Hlocs | apply fmap_sublist; exact HL1sub]. }
  assert (HL1ent : forall e, e ∈ L1 ->
            entry_ok N (world c) ((k, data p) :: x) e /\ e.1 <> k).
  { intros e He. split.
    - rewrite Forall_forall in Hent. apply Hent. eapply elem_of_sublist; eassumption.
    - apply (list_elem_of_fmap_2 fst) in He. apply od_del_keys in He. apply He. }
  assert (HL1get : forall k', k' <> k -> od_get L1 k' = od_get (cache c) k').
  { intros k' Hne. apply od_get_del_ne. congruence. }
  assert (Hnew : entry_ok N (world c) x (k, (true, p))).
  { unfold entry_ok. cbn [fst snd]. repeat split; try lia; try assumption;
      try discriminate. intros kx lx Hin _. apply (Hpx kx lx Hin). }
  assert (Hold : forall e, e ∈ L1 -> entry_ok N (world c) x e).
  { intros e He. destruct (HL1ent e He) as [Hok Hne].
    eapply entry_ok_transfer; [exact Hok | lia | auto | lia | apply disk_ext_refl | |].
    - intros kx lx Hin _. left. apply elem_of_cons. right. exact Hin.
    - intros Hnp _. split; [|reflexivity]. unfold pinned. rewrite fmap_cons.
      rewrite not_elem_of_cons. split; [exact Hne | exact Hnp]. }
  assert (Hploc : forall e, e ∈ L1 -> data e.2.2 <> data p).
  { intros e He. destruct (HL1ent e He) as [(_ & _ & _ & _ & _ & _ & Hloc & _) Hne].
    apply (Hloc k (data p)); [apply elem_of_cons; left; reflexivity | exact Hne]. }
  unfold set_cache. cbn [cache size world last_rid_base last_rid_tail].
  destruct (decide (Z.of_nat (length (L1 ++ [(k, (true, p))])) > size c)) as [Hbig|Hfit].
  - (* one entry is evicted: the head of the old entries *)
    destruct L1 as [|[kv [dv pg]] L1'] eqn:HL1.
    { rewrite length_app in Hbig. simpl in Hbig. lia. }
    cbn [app].
    assert (Hv : entry_ok N (world c) x (kv, (dv, pg)))
      by (apply Hold; apply elem_of_cons; left; reflexivity).
    assert (Hkvne : kv <> k).
    { destruct (HL1ent (kv, (dv, pg))) as [_ Hne];
        [apply elem_of_cons; left; reflexivity | exact Hne]. }
    rewrite fmap_cons in HL1keys. apply NoDup_cons in HL1keys as [Hkvni HL1'keys].
    cbn [fst] in Hkvni.
    assert (HL1'kv : od_get L1' kv = None) by (apply od_get_None_iff; exact Hkvni).
    assert (HL1'k : od_get L1' k = None).
    { cbn [od_get] in HL1k. rewrite decide_False in HL1k by exact Hkvne. exact HL1k. }
    assert (Hrestk : od_get (L1' ++ [(k, (true, p))]) k = Some (true, p)).
    { rewrite od_get_app, HL1'k. cbn [od_get]. rewrite decide_True by reflexivity.
      reflexivity. }
    assert (Hrestget : forall k', k' <> k -> k' <> kv ->
              od_get (L1' ++ [(k, (true, p))]) k' = od_get (cache c) k').
    { intros k' Hne Hne'. rewrite od_get_app. rewrite <- (HL1get k' Hne).
      cbn [od_get]. rewrite (decide_False (P := kv = k')) by congruence.
      rewrite (decide_False (P := k = k')) by congruence.
      destruct (od_get L1' k'); reflexivity. }
    assert (Hrestkv : od_get (L1' ++ [(k, (true, p))]) kv = None).
    { rewrite od_get_app, HL1'kv. cbn [od_get]. rewrite decide_False by congruence.
      reflexivity. }
    assert (Hckv : od_get (cache c) kv = Some (dv, pg)).
    { rewrite <- (HL1get kv Hkvne). cbn [od_get]. rewrite decide_True by reflexivity.
      reflexivity. }
    assert (Hrkeys : NoDup (L1' ++ [(k, (true, p))]).*1).
    { rewrite fmap_app. apply NoDup_app. split; [exact HL1'keys|]. split.
      - intros k0 Hk0 Hin. cbn in Hin. apply list_elem_of_singleton in Hin. subst k0.
        apply od_get_None_iff in HL1'k. contradiction.
      - cbn. apply NoDup_singleton. }
    assert (Hrlocs : NoDup ((fun e => data e.2.2) <$> (L1' ++ [(k, (true, p))]))).
    { rewrite fmap_app. apply NoDup_app. split.
      - rewrite fmap_cons in HL1locs. apply NoDup_cons in HL1locs as [_ H']. exact H'.
      - split; [|cbn; apply NoDup_singleton].
        intros l Hl Hin. cbn in Hin. apply list_elem_of_singleton in Hin. subst l.
        apply list_elem_of_fmap in Hl as (e & Hel & He).
        apply (Hploc e); [apply elem_of_cons; right; exact He | symmetry; exact Hel]. }
    destruct dv.
    + (* a dirty page: it is written to its file *)
      cbn [negb].
      destruct Hv as (Hvl & Hvlen & Hvi & (fv & Hfv & Hvif) & Hvn & Hvc & _).
      cbn [fst snd] in *.
      destruct (write_page_spec kv.1.1 kv.1.2 kv.2 pg (world c) fv Hfv Hwh
                  (conj Hvi Hvif) Hvlen)
        as (w' & Hwr & Hobj' & Hwh' & Hdp' & Hext' & Hlen').
      rewrite Hwr.
      eexists. split; [reflexivity|].
      unfold set_world, set_cache. cbn [cache world size last_rid_base last_rid_tail].
      assert (Hkveq : (kv.1.1, kv.1.2, kv.2) = kv) by (destruct kv as [[? ?] ?]; reflexivity).
      rewrite Hkveq in Hdp'.
      split; [|split; [exact Hrestk|split; [exact Hobj'|split; [|split; [reflexivity|split; [exact Hext' | rewrite Hdp'; rewrite decide_False by congruence; reflexivity]]]]]].
      * constructor; cbn [cache world size]; try assumption.
        -- apply Forall_forall. intros e He. apply elem_of_app in He as [He|He].
           ++ assert (Hee : e ∈ (kv, (true, pg)) :: L1') by (apply elem_of_cons; right; exact He).
              eapply entry_ok_transfer; [apply (Hold e Hee) | lia | | | exact Hext' | |].
              ** intros l _. rewrite Hobj'. reflexivity.
              ** rewrite Hobj'. lia.
              ** intros kx lx Hin _. left. exact Hin.
              ** intros Hnp _. split; [exact Hnp|].
                 rewrite Hdp'. rewrite decide_False; [reflexivity|].
                 intros Heq. apply Hkvni. rewrite <- Heq.
                 apply (list_elem_of_fmap_2 fst) in He. exact He.
           ++ apply list_elem_of_singleton in He. subst e.
              eapply entry_ok_transfer; [exact Hnew | lia | | | exact Hext' | |].
              ** intros l _. rewrite Hobj'. reflexivity.
              ** rewrite Hobj'. lia.
              ** intros kx lx Hin _. left. exact Hin.
              ** intros Hnp Hcl. discriminate.
        -- intros k0. rewrite Hdp'. case_decide; [exact Hvc | apply Hcnt].
        -- intros kx lx Hx. rewrite Hobj'. apply (Hpin' kx lx Hx).
      * intros k' Hne Hnp'. unfold pv, content. cbn [cache world].
        destruct (decide (k' = kv)) as [->|Hne'].
        -- rewrite Hrestkv, Hckv. cbn [snd]. rewrite Hdp'.
           rewrite decide_True by reflexivity. reflexivity.
        -- rewrite (Hrestget k' Hne Hne'). rewrite Hobj'.
           destruct (od_get (cache c) k'); [reflexivity|].
           rewrite Hdp'. rewrite decide_False by exact Hne'. reflexivity.
    + (* a clean page: it is dropped *)
      cbn [negb].
      eexists. split; [reflexivity|].
      unfold set_cache. cbn [cache world size last_rid_base last_rid_tail].
      split; [|split; [exact Hrestk|split; [reflexivity|split; [|split; [reflexivity|split; [apply disk_ext_refl | reflexivity]]]]]].
      * constructor; cbn [cache world size]; try assumption.
        apply Forall_forall. intros e He. apply elem_of_app in He as [He|He].
        -- apply Hold. apply elem_of_cons. right. exact He.
        -- apply list_elem_of_singleton in He. subst e. exact Hnew.
      * intros k' Hne Hnp'. unfold pv, content. cbn [cache world].
        destruct (decide (k' = kv)) as [->|Hne'].
        -- rewrite Hrestkv, Hckv. cbn [snd]. symmetry. apply mask_counter_eq.
           destruct Hv as (_ & _ & _ & _ & _ & _ & _ & Hag). cbn [fst snd] in Hag.
           apply Hag; [exact Hnp' | reflexivity].
        -- rewrite (Hrestget k' Hne Hne'). reflexivity.
  - (* nothing is evicted *)
    eexists. split; [reflexivity|].
    unfold set_cache. cbn [cache world size last_rid_base last_rid_tail].
    assert (Hgetk : od_get (L1 ++ [(k, (true, p))]) k = Some (true, p)).
    { rewrite od_get_app, HL1k. cbn [od_get]. rewrite decide_True by reflexivity.
      reflexivity. }
    split; [|split; [exact Hgetk|split; [reflexivity|split; [|split; [reflexivity|split; [apply disk_ext_refl | reflexivity]]]]]].
    + constructor; cbn [cache world size]; try assumption.
      * rewrite fmap_app. apply NoDup_app. split; [exact HL1keys|]. split.
        -- intros k0 Hk0 Hin. cbn in Hin. apply list_elem_of_singleton in Hin. subst k0.
           apply od_get_None_iff in HL1k. contradiction.
        -- cbn. apply NoDup_singleton.
      * rewrite fmap_app. apply NoDup_app. split; [exact HL1locs|].
        split; [|cbn; apply NoDup_singleton].
        intros l Hl Hin. cbn in Hin. apply list_elem_of_singleton in Hin. subst l.
        apply list_elem_of_fmap in Hl as (e & Hel & He).
        apply (Hploc e He). symmetry. exact Hel.
      * apply Forall_forall. intros e He. apply elem_of_app in He as [He|He].
        -- apply Hold. exact He.
        -- apply list_elem_of_singleton in He. subst e. exact Hnew.
    + intros k' Hne Hnp'. unfold pv, content. cbn [cache world].
      rewrite od_get_app, (HL1get k' Hne).
      destruct (od_get (cache c) k'); [reflexivity|]. cbn [od_get].
      rewrite decide_False by congruence. reflexivity.
Qed.

Section OrderedDictMove.
Context {K V : Type} `{EqDecision K}.
Implicit Types (d : list (K * V)) (k : K) (v : V).

Lemma od_get_move_to_end d k k' : od_get (od_move_to_end d k) k' = od_get d k'.
Proof.
  unfold od_move_to_end. destruct (od_get d k) as [v|] eqn:Hg; [|reflexivity].
  rewrite od_get_app. destruct (decide (k = k')) as [<-|Hne].
  - rewrite od_get_del_eq. cbn [od_get]. rewrite decide_True by reflexivity.
    symmetry. exact Hg.
  - rewrite od_get_del_ne by exact Hne. destruct (od_get d k'); [reflexivity|].
    cbn [od_get]. rewrite decide_False by exact Hne. reflexivity.
Qed.

Lemma od_del_perm d k v :
  NoDup d.*1 -> od_get d k = Some v -> d ≡ₚ (k, v) :: od_del d k.
Proof.
  induction d as [|[k0 v0] d IH]; intros Hnd Hg; [discriminate|].
  rewrite fmap_cons in Hnd. apply NoDup_cons in Hnd as [Hni Hnd]. cbn [fst] in Hni.
  cbn [od_get od_del] in *.
  destruct (decide (k0 = k)) as [->|Hne].
  - injection Hg as ->. rewrite od_del_absent; [reflexivity|].
    apply od_get_None_iff. exact Hni.
  - transitivity ((k0, v0) :: (k, v) :: od_del d k).
    + apply perm_skip. apply (IH Hnd Hg).
    + apply perm_swap.
Qed.

Lemma od_move_to_end_perm d k : NoDup d.*1 -> od_move_to_end d k ≡ₚ d.
Proof.
  intros Hnd. unfold od_move_to_end. destruct (od_get d k) as [v|] eqn:Hg; [|reflexivity].
  transitivity ((k, v) :: od_del d k).
  - apply (Permutation_app_comm (od_del d k) [(k, v)]).
  - symmetry. apply (od_del_perm d k v Hnd Hg).
Qed.

Lemma od_set_present_fmap {X} (f : K * V -> X) d k v v0 :
  od_get d k = Some v0 -> f (k, v) = f (k, v0) -> f <$> od_set d k v = f <$> d.
Proof.
  induction d as [|[k1 v1] d IH]; intros Hg Hf; [discriminate|].
  cbn [od_get od_set] in *.
  destruct (decide (k1 = k)) as [->|Hne].
  - injection Hg as ->. rewrite !fmap_cons. rewrite Hf. reflexivity.
  - rewrite !fmap_cons. rewrite (IH Hg Hf). reflexivity.
Qed.

Lemma od_set_Forall (P : K * V -> Prop) d k v :
  Forall P d -> P (k, v) -> Forall P (od_set d k v).
Proof.
  induction d as [|[k1 v1] d IH]; simpl; intros HF HP.
  - constructor; [exact HP | constructor].
  - apply Forall_cons in HF as [H1 HF]. destruct (decide (k1 = k)).
    + constructor; assumption.
    + constructor; [exact H1 | apply IH; assumption].
Qed.

End OrderedDictMove.

Lemma counter_word_nonneg (b : bytes) : 0 <= counter_word b.
Proof. unfold counter_word. apply le_combine_bound. Qed.

(** [__get_page]: the page of the key, from the pool or from the files;
    the contents of the pages are what they were. *)
Lemma Cache__get_page_spec N x k c :
  wfx N x c -> ~ pinned x k -> 0 <= k.1.2 ->
  is_Some (disk (world c) !! (k.1.1, k.2)) ->
  exists p c' dirty,
    Cache__get_page k c = (Ok p, c') /\
    wfx N x c' /\
    od_get (cache c') k = Some (dirty, p) /\
    buffer (objects (world c')) p = content c k /\
    (forall k', ~ pinned x k' -> pv c' k' = pv c k') /\
    (forall l, (l < length (objects (world c)))%nat ->
               objects (world c') !! l = objects (world c) !! l) /\
    (length (objects (world c)) <= length (objects (world c')))%nat /\
    cache_meta c' = cache_meta c /\
    disk_ext (disk (world c)) (disk (world c')).
Proof.
  intros Hwf Hnp Hki [f Hf].
  pose proof Hwf as [Hsz Hkeys Hlocs Hent Hwh Hcnt Hpin].
  unfold Cache__get_page. destruct k as [[rt i] col]. cbn [fst snd] in *.
  set (k := (rt, i, col)) in *.
  unfold bind at 1. unfold gets at 1.
  destruct (od_get (cache c) k) as [[d p]|] eqn:Hg.
  - (* in the pool: the entry moves to the young end *)
    unfold bind, modify, gets, ret, raise. unfold set_cache at 1 2. cbn [cache].
    rewrite od_get_move_to_end, Hg.
    exists p, (set_cache (od_move_to_end (cache c) k) c), d.
    split; [reflexivity|]. unfold set_cache. cbn [cache world].
    pose proof (od_move_to_end_perm (cache c) k Hkeys) as Hperm.
    split; [|split; [|split; [|split; [|split; [|split; [|split]]]]]].
    + constructor; cbn [cache world size]; try assumption.
      * rewrite Hperm. exact Hkeys.
      * rewrite Hperm. exact Hlocs.
      * rewrite Hperm. exact Hent.
    + rewrite od_get_move_to_end. exact Hg.
    + unfold content. rewrite Hg. reflexivity.
    + intros k' _. unfold pv, content. cbn [cache world].
      rewrite od_get_move_to_end. reflexivity.
    + auto.
    + lia.
    + reflexivity.
    + apply disk_ext_refl.
  - (* not in the pool: the page is read and enters the pool, clean *)
    destruct (read_page_spec rt i col (world c) f Hf Hwh Hki)
      as (l & w1 & Hrd & Hl & Hlge & (extra & Hextra) & Hwh1 & Hdp1 & (f1 & Hf1 & Hif1) & Hext1).
    set (pg := disk_page (disk (world c)) k) in *.
    set (p := mkPage l (counter_word pg)) in *.
    assert (Hpre : forall l0, (l0 < length (objects (world c)))%nat ->
              objects w1 !! l0 = objects (world c) !! l0).
    { intros l0 Hl0. rewrite Hextra. apply lookup_app_l. exact Hl0. }
    assert (Hlen1 : (length (objects (world c)) <= length (objects w1))%nat).
    { rewrite Hextra, length_app. lia. }
    assert (Hpglen : Z.of_nat (length pg) = PAGESIZE) by (apply disk_page_length; exact Hwh).
    assert (Hbp : buffer (objects w1) p = pg).
    { unfold buffer. cbn [data p]. rewrite Hl. reflexivity. }
    unfold bind at 1. unfold in_world at 1, zoom. rewrite Hrd.
    set (c1 := set_world w1 c).
    assert (Hwf1 : wfx N ((k, l) :: x) c1).
    { constructor; unfold c1, set_world; cbn [cache world size]; try assumption.
      - apply Forall_forall. intros e He. rewrite Forall_forall in Hent.
        eapply entry_ok_transfer; [apply (Hent e He) | lia | exact Hpre | exact Hlen1
                                  | exact Hext1 | |].
        + intros kx lx Hin Hne. apply elem_of_cons in Hin as [Heq|Hin]; [|left; exact Hin].
          right. injection Heq as -> ->.
          destruct (Hent e He) as (Hdl & _). lia.
        + intros Hnp' _. split; [|apply Hdp1].
          intros Hp. apply Hnp'. unfold pinned. rewrite fmap_cons.
          apply elem_of_cons. right. exact Hp.
      - intros k0. rewrite Hdp1. apply Hcnt.
      - intros kx lx Hin. apply elem_of_cons in Hin as [Heq|Hin].
        + injection Heq as -> ->. split.
          * apply lookup_lt_Some in Hl. exact Hl.
          * rewrite Hl. exact Hpglen.
        + destruct (Hpin kx lx Hin) as [H1 H2]. split; [lia|].
          rewrite Hpre by exact H1. exact H2. }
    destruct (Cache__set_page_spec N x k p c1 Hwf1 Hnp) as
      (c2 & Hsp & Hwf2 & Hg2 & Hobj2 & Hpv2 & Hmeta2 & Hext2 & Hdp2).
    { intros kx lx Hin. cbn [data p]. destruct (Hpin kx lx Hin) as [H1 _]. lia. }
    { cbn [num_records p]. split; [apply counter_word_nonneg|].
      unfold pg. apply Hcnt. }
    { unfold c1, set_world. cbn [world]. rewrite Hbp. apply Hcnt. }
    { exact Hki. }
    { exists f1. split; [exact Hf1 | exact Hif1]. }
    rewrite (bind_ok _ _ _ _ _ Hsp).
    unfold bind, modify, ret.
    exists p, (set_cache (od_set (cache c2) k (false, p)) c2), false.
    split; [reflexivity|].
    pose proof Hwf2 as [Hsz2 Hkeys2 Hlocs2 Hent2 Hwh2 Hcnt2 Hpin2].
    assert (Hc1w : world c1 = w1) by reflexivity.
    assert (Hc1c : cache c1 = cache c) by reflexivity.
    unfold set_cache. cbn [cache world].
    split; [|split; [|split; [|split; [|split; [|split; [|split]]]]]].
    + constructor; cbn [cache world size]; try assumption.
      * rewrite (od_set_present_fmap fst _ k (false, p) (true, p) Hg2 eq_refl).
        exact Hkeys2.
      * rewrite (od_set_present_fmap (fun e => data e.2.2) _ k (false, p) (true, p)
                   Hg2 eq_refl). exact Hlocs2.
      * apply od_set_Forall; [exact Hent2|].
        rewrite Forall_forall in Hent2.
        pose proof (Hent2 _ (od_get_elem _ _ _ Hg2)) as
          (E1 & E2 & E3 & E4 & E5 & E6 & E7 & E8).
        unfold entry_ok. cbn [fst snd] in *.
        repeat (split; [assumption|]). 
        intros _ _. rewrite Hdp2. rewrite Hobj2, Hc1w, Hbp, Hdp1. reflexivity.
    + apply od_get_set_eq.
    + rewrite Hobj2, Hc1w, Hbp. unfold content. rewrite Hg. reflexivity.
    + intros k' Hnp'. unfold pv, content. cbn [cache world].
      destruct (decide (k' = k)) as [->|Hne].
      * rewrite od_get_set_eq, Hg. cbn [snd]. rewrite Hobj2, Hc1w, Hbp. reflexivity.
      * rewrite od_get_set_ne by congruence.
        pose proof (Hpv2 k' Hne Hnp') as Hpv. unfold pv, content in Hpv.
        rewrite Hpv. rewrite Hc1c, Hc1w.
        destruct (od_get (cache c) k') as [e|] eqn:Hg'.
        -- rewrite Forall_forall in Hent.
           destruct (Hent _ (od_get_elem _ _ _ Hg')) as (Hdl & _). cbn [snd] in Hdl.
           rewrite (buffer_ext (objects (world c)) (objects w1)); [reflexivity|exact Hdl|exact Hpre].
        -- rewrite Hdp1. reflexivity.
    + intros l0 Hl0. rewrite Hobj2, Hc1w. apply Hpre. exact Hl0.
    + rewrite Hobj2, Hc1w. exact Hlen1.
    + unfold cache_meta in *. cbn [size last_rid_base last_rid_tail].
      rewrite Hmeta2. reflexivity.
    + eapply disk_ext_trans; [exact Hext1 | exact Hext2].
Qed.

(** *** Words of a page *)

Lemma unpack_II_bounds rid p o :
  unpack_II rid = Ok (p, o) -> 0 <= p < 2 ^ 32 /\ 0 <= o < 2 ^ 32.
Proof.
  unfold unpack_II. case_decide as Hl; [|discriminate]. intros H. ok_inj H.
  injection H as <- <-.
  pose proof (le_combine_bound (take 4 rid)) as H1.
  pose proof (le_combine_bound (drop 4 rid)) as H2.
  rewrite length_take in H1. rewrite length_drop in H2. rewrite Hl in H1, H2.
  split; [exact H1 | exact H2].
Qed.

Lemma mask_counter_length (b : bytes) :
  (8 <= length b)%nat -> length (mask_counter b) = length b.
Proof.
  intros H. unfold mask_counter. rewrite length_app, length_replicate, length_drop. lia.
Qed.

Lemma getslice_mask (b : bytes) o :
  8 <= o -> o + WORDSIZE <= Z.of_nat (length b) ->
  getslice (mask_counter b) o (o + WORDSIZE) = getslice b o (o + WORDSIZE).
Proof.
  intros H1 H2. unfold WORDSIZE in *.
  rewrite !getslice_in by (rewrite ?mask_counter_length; lia).
  unfold mask_counter. rewrite drop_app_ge by (rewrite length_replicate; lia).
  rewrite length_replicate, drop_drop. do 2 f_equal. lia.
Qed.

Lemma mask_setslice (b d : bytes) o :
  8 <= o -> o + WORDSIZE <= Z.of_nat (length b) ->
  mask_counter (setslice b o (o + WORDSIZE) d) =
  setslice (mask_counter b) o (o + WORDSIZE) d.
Proof.
  intros H1 H2. unfold WORDSIZE in *.
  rewrite !setslice_in by (rewrite ?mask_counter_length; lia).
  unfold mask_counter.
  assert (E1 : drop 8 (take (Z.to_nat o) b ++ d ++ drop (Z.to_nat (o + 8)) b)
               = drop 8 (take (Z.to_nat o) b) ++ d ++ drop (Z.to_nat (o + 8)) b)
    by (apply drop_app_le; rewrite length_take; lia).
  assert (E2 : take (Z.to_nat o) (replicate 8 Byte.x00 ++ drop 8 b)
               = replicate 8 Byte.x00 ++ take (Z.to_nat o - 8) (drop 8 b)).
  { rewrite take_app_ge by (rewrite length_replicate; lia).
    rewrite length_replicate. reflexivity. }
  assert (E3 : drop (Z.to_nat (o + 8)) (replicate 8 Byte.x00 ++ drop 8 b)
               = drop (Z.to_nat (o + 8)) b).
  { rewrite drop_app_ge by (rewrite length_replicate; lia).
    rewrite length_replicate, drop_drop. f_equal. lia. }
  assert (E4 : drop 8 (take (Z.to_nat o) b) = take (Z.to_nat o - 8) (drop 8 b)).
  { rewrite take_drop_commute. do 2 f_equal. lia. }
  rewrite E1, E2, E3, E4, <- app_assoc. reflexivity.
Qed.

Lemma mask_counter_app (w b : bytes) :
  length w = 8%nat -> mask_counter (w ++ drop 8 b) = mask_counter b.
Proof.
  intros H. unfold mask_counter. rewrite drop_app_length' by (symmetry; exact H).
  reflexivity.
Qed.

Lemma counter_word_setslice (b d : bytes) o :
  8 <= o -> o + WORDSIZE <= Z.of_nat (length b) ->
  counter_word (setslice b o (o + WORDSIZE) d) = counter_word b.
Proof.
  intros H1 H2. unfold WORDSIZE in *. unfold counter_word.
  rewrite setslice_in by lia.
  rewrite take_app_le by (rewrite length_take; lia).
  rewrite take_take. f_equal. f_equal. lia.
Qed.

Lemma counter_word_app (w r : bytes) :
  length w = 8%nat -> counter_word (w ++ r) = le_combine w.
Proof.
  intros H. unfold counter_word. rewrite take_app_length' by (symmetry; exact H).
  reflexivity.
Qed.

(** The word of a record in a column, and the pages after a word is written. *)
Definition rd (v : page_key -> bytes) (rt : range_type) (col : Z) (rid : bytes) : bytes :=
  match unpack_II rid with
  | Ok (p, o) => getslice (v (rt, p, col)) o (o + WORDSIZE)
  | Err _ => []
  end.

Definition wr (v : page_key -> bytes) (rt : range_type) (col : Z) (rid d : bytes)
  : page_key -> bytes :=
  match unpack_II rid with
  | Ok (p, o) =>
      fun k => if decide (k = (rt, p, col)) then setslice (v k) o (o + WORDSIZE) d else v k
  | Err _ => v
  end.

(** What every operation of the pool keeps: the objects already there, the
    allocator and the set of files. *)
Definition frame (c c' : Cache) : Prop :=
  (forall l, (l < length (objects (world c)))%nat ->
             objects (world c') !! l = objects (world c) !! l) /\
  (length (objects (world c)) <= length (objects (world c')))%nat /\
  cache_meta c' = cache_meta c /\
  disk_ext (disk (world c)) (disk (world c')).

Lemma frame_refl c : frame c c.
Proof.
  split; [|split; [|split]]; [auto | lia | reflexivity | apply disk_ext_refl].
Qed.

Lemma frame_trans c1 c2 c3 : frame c1 c2 -> frame c2 c3 -> frame c1 c3.
Proof.
  intros (H1 & H2 & H3 & H4) (H1' & H2' & H3' & H4').
  split; [|split; [|split]].
  - intros l Hl. rewrite H1' by lia. apply H1. exact Hl.
  - lia.
  - congruence.
  - eapply disk_ext_trans; eassumption.
Qed.

Lemma wfx_mono N N' x c : wfx N x c -> N <= N' -> wfx N' x c.
Proof.
  intros [Hsz Hkeys Hlocs Hent Hwh Hcnt Hpin] HN. constructor; try assumption.
  - eapply Forall_impl; [exact Hent|]. intros e He.
    eapply entry_ok_transfer; [exact He | exact HN | auto | lia | apply disk_ext_refl | |].
    + intros kx lx Hin _. left. exact Hin.
    + intros Hnp _. split; [exact Hnp | reflexivity].
  - intros k. specialize (Hcnt k). lia.
Qed.

Lemma content_length N x c k :
  wfx N x c -> Z.of_nat (length (content c k)) = PAGESIZE.
Proof.
  intros [_ _ _ Hent Hwh _ _]. unfold content.
  destruct (od_get (cache c) k) as [e|] eqn:Hg.
  - rewrite Forall_forall in Hent. apply od_get_elem in Hg.
    destruct (Hent _ Hg) as (_ & Hl & _). exact Hl.
  - apply disk_page_length. exact Hwh.
Qed.

(** [get_entry]: the word at the RID, and nothing moves. *)
Lemma Cache_get_entry_spec N x rt rid col c p o :
  wfx N x c -> unpack_II rid = Ok (p, o) -> ~ pinned x (rt, p, col) ->
  is_Some (disk (world c) !! (rt, col)) ->
  8 <= o <= PAGESIZE - WORDSIZE ->
  exists c',
    Cache_get_entry rt rid col c = (Ok (rd (pv c) rt col rid), c') /\
    wfx N x c' /\
    (forall k', ~ pinned x k' -> pv c' k' = pv c k') /\
    frame c c'.
Proof.
  intros Hwf Hu Hnp Hfile Ho.
  destruct (unpack_II_bounds _ _ _ Hu) as [Hp _].
  destruct (Cache__get_page_spec N x (rt, p, col) c Hwf Hnp (proj1 Hp) Hfile)
    as (pg & c' & dirty & Hget & Hwf' & Hg' & Hbuf & Hpv & Hpre & Hlen & Hmeta & Hext).
  unfold Cache_get_entry. unfold bind at 1. unfold lift_result at 1. rewrite Hu.
  cbn [fst snd]. unfold Cache_get_page. rewrite (bind_ok _ _ _ _ _ Hget).
  unfold in_world, in_heap, zoom.
  rewrite Page_read_field_in_bounds by lia. rewrite Hbuf.
  exists c'. split.
  - f_equal.
    + f_equal. unfold rd. rewrite Hu. unfold pv. symmetry. apply getslice_mask; [lia|].
      rewrite (content_length N x c _ Hwf). lia.
    + destruct c' as [s l lb lt [h d]]. reflexivity.
  - split; [exact Hwf'|]. split; [exact Hpv|].
    split; [exact Hpre | split; [exact Hlen | split; [exact Hmeta | exact Hext]]].
Qed.

(** *** Writing into the buffer of a cached page *)

(** The pool after the buffer at [l] was overwritten in place. *)
Definition heap_set (l : nat) (b : bytes) (c : Cache) : Cache :=
  set_world (set_objects (<[l := b]> (objects (world c))) (world c)) c.

Lemma in_world_in_heap {A} (m : M (list bytes) A) c :
  in_world (in_heap m) c =
  (fst (m (objects (world c))),
   set_world (set_objects (snd (m (objects (world c)))) (world c)) c).
Proof.
  unfold in_world, in_heap, zoom. destruct (m (objects (world c))) as [r h'].
  reflexivity.
Qed.

Lemma pack_into_Q_ok (l : nat) (n : Z) (h : list bytes) :
  0 <= n < 2 ^ 64 -> (8 <= length (default [] (h !! l)))%nat ->
  pack_into_Q l n h = (Ok tt, <[l := le_split 8 n ++ drop 8 (default [] (h !! l))]> h).
Proof.
  intros Hn Hl. unfold pack_into_Q, bind, lift_result, pack_Q, deref, assign.
  rewrite decide_True by lia. rewrite decide_False by lia. reflexivity.
Qed.

Lemma NoDup_fmap_elem_inj {A B} (f : A -> B) (l : list A) a b :
  NoDup (f <$> l) -> a ∈ l -> b ∈ l -> f a = f b -> a = b.
Proof.
  induction l as [|x l IH]; intros Hnd Ha Hb Hf.
  - apply elem_of_nil in Ha. contradiction.
  - rewrite fmap_cons in Hnd. apply NoDup_cons in Hnd as [Hni Hnd].
    apply elem_of_cons in Ha as [->|Ha]; apply elem_of_cons in Hb as [->|Hb].
    + reflexivity.
    + exfalso. apply Hni. rewrite Hf. apply list_elem_of_fmap_2. exact Hb.
    + exfalso. apply Hni. rewrite <- Hf. apply list_elem_of_fmap_2. exact Ha.
    + apply IH; assumption.
Qed.

(** Pinning the cached page of a key. *)
Lemma wfx_pin N c k d0 p0 :
  wfx N [] c -> od_get (cache c) k = Some (d0, p0) -> wfx N [(k, data p0)] c.
Proof.
  intros [Hsz Hkeys Hlocs Hent Hwh Hcnt Hpin] Hg.
  pose proof (od_get_elem _ _ _ Hg) as Hin.
  constructor; try assumption.
  - apply Forall_forall. intros e He. rewrite Forall_forall in Hent.
    eapply entry_ok_transfer; [apply (Hent e He) | lia | auto | lia | apply disk_ext_refl | |].
    + intros kx lx Hx Hne. right. apply list_elem_of_singleton in Hx. injection Hx as -> ->.
      intros Heq. apply Hne.
      assert (e = (k, (d0, p0))) as ->; [|reflexivity].
      apply (NoDup_fmap_elem_inj (fun e => data e.2.2) (cache c)); assumption.
    + intros _ _. split; [|reflexivity]. unfold pinned. cbn. apply not_elem_of_nil.
  - intros kx lx Hx. apply list_elem_of_singleton in Hx. injection Hx as -> ->.
    rewrite Forall_forall in Hent. destruct (Hent _ Hin) as (H1 & H2 & _).
    cbn [snd] in *. split; [exact H1 | exact H2].
Qed.

(** Overwriting a pinned buffer with a page. *)
Lemma wfx_pinned_write N x c k l b' :
  wfx N x c -> (k, l) ∈ x ->
  Z.of_nat (length b') = PAGESIZE -> counter_word b' <= N ->
  wfx N x (heap_set l b' c).
Proof.
  intros [Hsz Hkeys Hlocs Hent Hwh Hcnt Hpin] Hx Hlen Hcw.
  destruct (Hpin k l Hx) as [Hll _].
  constructor; unfold heap_set, set_world, set_objects; cbn [cache world size objects disk];
    try assumption.
  - apply Forall_forall. intros e He. rewrite Forall_forall in Hent.
    destruct (Hent e He) as (E1 & E2 & E3 & E4 & E5 & E6 & E7 & E8).
    unfold entry_ok. cbn [objects disk]. rewrite length_insert.
    destruct (decide (data e.2.2 = l)) as [Heq|Hne].
    + assert (Hk : e.1 = k).
      { destruct (decide (e.1 = k)) as [?|Hnk]; [assumption|].
        exfalso. apply (E7 k l Hx Hnk Heq). }
      unfold buffer. rewrite Heq. rewrite list_lookup_insert_eq by exact Hll.
      cbn [default].
      split; [exact Hll|]. split; [exact Hlen|]. split; [exact E3|]. split; [exact E4|].
      split; [exact E5|]. split; [exact Hcw|]. split; [rewrite <- Heq; exact E7|].
      intros Hnp. exfalso. apply Hnp. unfold pinned. rewrite Hk.
      apply (list_elem_of_fmap_2 fst) in Hx. exact Hx.
    + assert (Hb : buffer (<[l:=b']> (objects (world c))) e.2.2
                   = buffer (objects (world c)) e.2.2).
      { unfold buffer. rewrite list_lookup_insert_ne by congruence. reflexivity. }
      rewrite Hb. repeat (split; [assumption|]). exact E8.
  - intros kx lx Hin. destruct (Hpin kx lx Hin) as [H1 H2]. rewrite length_insert.
    split; [exact H1|]. destruct (decide (lx = l)) as [->|Hne].
    + rewrite list_lookup_insert_eq by exact Hll. exact Hlen.
    + rewrite list_lookup_insert_ne by congruence. exact H2.
Qed.

(** The contents of the pages that are not pinned do not see the write. *)
Lemma pv_heap_set N x c k l b' k' :
  wfx N x c -> (k, l) ∈ x -> ~ pinned x k' ->
  pv (heap_set l b' c) k' = pv c k'.
Proof.
  intros [_ _ _ Hent _ _ _] Hx Hnp. unfold pv, content, heap_set, set_world, set_objects.
  cbn [cache world objects disk].
  destruct (od_get (cache c) k') as [e|] eqn:Hg; [|reflexivity].
  rewrite Forall_forall in Hent.
  destruct (Hent _ (od_get_elem _ _ _ Hg)) as (_ & _ & _ & _ & _ & _ & E7 & _).
  cbn [fst snd] in E7. unfold buffer. rewrite list_lookup_insert_ne; [reflexivity|].
  intros Heq. apply (E7 k l Hx); [|symmetry; exact Heq].
  intros ->. apply Hnp. apply (list_elem_of_fmap_2 fst) in Hx. exact Hx.
Qed.

Lemma frame_heap_set c l b' :
  (forall l0, (l0 < length (objects (world c)))%nat -> l0 <> l ->
     objects (world (heap_set l b' c)) !! l0 = objects (world c) !! l0) /\
  length (objects (world (heap_set l b' c))) = length (objects (world c)) /\
  cache_meta (heap_set l b' c) = cache_meta c /\
  disk (world (heap_set l b' c)) = disk (world c) /\
  cache (heap_set l b' c) = cache c.
Proof.
  unfold heap_set, set_world, set_objects. cbn [cache world objects disk].
  split; [|split; [apply length_insert | repeat split]].
  intros l0 _ Hne. apply list_lookup_insert_ne. congruence.
Qed.

(** What a write keeps: the allocator and the set of files. *)
Definition wframe (c c' : Cache) : Prop :=
  (length (objects (world c)) <= length (objects (world c')))%nat /\
  cache_meta c' = cache_meta c /\
  disk_ext (disk (world c)) (disk (world c')).

Lemma frame_wframe c c' : frame c c' -> wframe c c'.
Proof. intros (_ & H2 & H3 & H4). split; [exact H2 | split; [exact H3 | exact H4]]. Qed.

Lemma wframe_refl c : wframe c c.
Proof. apply frame_wframe, frame_refl. Qed.

Lemma wframe_trans c1 c2 c3 : wframe c1 c2 -> wframe c2 c3 -> wframe c1 c3.
Proof.
  intros (H2 & H3 & H4) (H2' & H3' & H4'). split; [lia|]. split; [congruence|].
  eapply disk_ext_trans; eassumption.
Qed.


Lemma heap_pack_into_Q (l : nat) (n : Z) c :
  0 <= n < 2 ^ 64 -> (8 <= length (default [] (objects (world c) !! l)))%nat ->
  in_world (in_heap (pack_into_Q l n)) c =
  (Ok tt, heap_set l (le_split 8 n ++ drop 8 (default [] (objects (world c) !! l))) c).
Proof.
  intros Hn Hl. rewrite in_world_in_heap. rewrite pack_into_Q_ok by assumption.
  reflexivity.
Qed.

Lemma heap_write_field (pg : Page) o (d : bytes) c :
  Z.of_nat (length d) = WORDSIZE ->
  in_world (in_heap (Page_write_field pg o d)) c =
  (Ok tt, heap_set (data pg)
            (setslice (buffer (objects (world c)) pg) o (o + WORDSIZE) d) c).
Proof.
  intros Hd. rewrite in_world_in_heap. rewrite Page_write_field_total by exact Hd.
  reflexivity.
Qed.

Lemma heap_set_twice l b1 b2 c : heap_set l b2 (heap_set l b1 c) = heap_set l b2 c.
Proof.
  unfold heap_set, set_world, set_objects. cbn [world objects disk size cache
    last_rid_base last_rid_tail]. rewrite list_insert_insert_eq. reflexivity.
Qed.

Lemma buffer_heap_set l b c pg :
  data pg = l -> (l < length (objects (world c)))%nat ->
  buffer (objects (world (heap_set l b c))) pg = b.
Proof.
  intros Hd Hl. unfold buffer, heap_set, set_world, set_objects. cbn [world objects].
  rewrite Hd, list_lookup_insert_eq by exact Hl. reflexivity.
Qed.

(** The end of [set_entry]: the rewritten buffer becomes the dirty page of
    the key. *)
Lemma set_entry_finish N k c1 dirty pg0 target bf :
  wfx N [(k, data pg0)] c1 ->
  od_get (cache c1) k = Some (dirty, pg0) ->
  data target = data pg0 ->
  0 <= num_records target <= N ->
  Z.of_nat (length bf) = PAGESIZE ->
  counter_word bf <= N ->
  exists c2,
    Cache__set_page k target (heap_set (data pg0) bf c1) = (Ok tt, c2) /\
    wfx N [] c2 /\
    od_get (cache c2) k = Some (true, target) /\
    content c2 k = bf /\
    (forall k', k' <> k -> pv c2 k' = pv c1 k') /\
    wframe c1 c2.
Proof.
  intros Hwf Hg Hdt Hattr Hlen Hcw.
  assert (Hx : (k, data pg0) ∈ [(k, data pg0)]) by (apply list_elem_of_singleton; reflexivity).
  pose proof (wfx_pinned_write N _ c1 k (data pg0) bf Hwf Hx Hlen Hcw) as Hwf'.
  destruct (frame_heap_set c1 (data pg0) bf) as (Hh1 & Hh2 & Hh3 & Hh4 & Hh5).
  pose proof Hwf as [_ _ _ Hent _ _ Hpin].
  destruct (Hpin _ _ Hx) as [Hll _].
  rewrite Forall_forall in Hent.
  destruct (Hent _ (od_get_elem _ _ _ Hg)) as (_ & _ & E3 & E4 & _).
  cbn [fst snd] in E3, E4.
  assert (Hbt : buffer (objects (world (heap_set (data pg0) bf c1))) target = bf).
  { unfold buffer, heap_set, set_world, set_objects. cbn [world objects].
    rewrite Hdt. rewrite list_lookup_insert_eq by exact Hll. reflexivity. }
  destruct (Cache__set_page_spec N [] k target (heap_set (data pg0) bf c1)) as
    (c2 & Hsp & Hwf2 & Hg2 & Hobj2 & Hpv2 & Hmeta2 & Hext2 & _).
  - rewrite Hdt. exact Hwf'.
  - unfold pinned. cbn. apply not_elem_of_nil.
  - intros kx lx Hin. apply elem_of_nil in Hin. contradiction.
  - exact Hattr.
  - rewrite Hbt. exact Hcw.
  - exact E3.
  - rewrite Hh4. exact E4.
  - exists c2. split; [exact Hsp|]. split; [exact Hwf2|]. split; [exact Hg2|].
    split; [|split].
    + rewrite (content_cached _ _ _ Hg2). cbn [snd]. rewrite Hobj2. exact Hbt.
    + intros k' Hne. rewrite Hpv2; [|exact Hne|unfold pinned; cbn; apply not_elem_of_nil].
      apply (pv_heap_set N _ c1 k (data pg0) bf k' Hwf Hx).
      unfold pinned. cbn. intros Hin. apply list_elem_of_singleton in Hin. contradiction.
    + split; [rewrite Hobj2, Hh2; lia|]. split; [congruence|].
      rewrite <- Hh4. exact Hext2.
Qed.

(** [set_entry] with data: the word is written, the page is dirty. *)
Lemma Cache_set_entry_data_spec N rt rid col d (app : bool) c p o :
  wfx N [] c -> unpack_II rid = Ok (p, o) ->
  is_Some (disk (world c) !! (rt, col)) ->
  8 <= o <= PAGESIZE - WORDSIZE ->
  Z.of_nat (length d) = WORDSIZE ->
  (app = true -> N + 1 < 2 ^ 64) ->
  exists c' pg,
    Cache_set_entry rt rid col (Some d) app c = (Ok tt, c') /\
    wfx (if app then N + 1 else N) [] c' /\
    od_get (cache c') (rt, p, col) = Some (true, pg) /\
    (forall k', pv c' k' = wr (pv c) rt col rid d k') /\
    wframe c c'.
Proof.
  intros Hwf Hu Hfile Ho Hd HN.
  destruct (unpack_II_bounds _ _ _ Hu) as [Hp _].
  set (k := (rt, p, col)).
  assert (Hnp : ~ pinned [] k) by (unfold pinned; cbn; apply not_elem_of_nil).
  destruct (Cache__get_page_spec N [] k c Hwf Hnp (proj1 Hp) Hfile)
    as (pg0 & c1 & dirty & Hget & Hwf1 & Hg1 & Hbuf & Hpv1 & Hpre & Hlen1 & Hmeta1 & Hext1).
  pose proof (content_length N [] c k Hwf) as Hbl.
  set (b := content c k) in *.
  pose proof (wfx_pin N c1 k dirty pg0 Hwf1 Hg1) as Hwfp.
  pose proof Hwf1 as [_ _ _ Hent1 _ _ _]. rewrite Forall_forall in Hent1.
  destruct (Hent1 _ (od_get_elem _ _ _ Hg1)) as (E1 & _ & _ & _ & E5 & E6 & _).
  cbn [fst snd] in E1, E5, E6. rewrite Hbuf in E6.
  assert (Hdef : default [] (objects (world c1) !! data pg0) = b) by exact Hbuf.
  assert (HP : PAGESIZE = 4096) by reflexivity.
  assert (HW : WORDSIZE = 8) by reflexivity.
  unfold Cache_set_entry. unfold bind at 1. unfold lift_result at 1. rewrite Hu.
  cbn [fst snd]. unfold Cache_get_page. fold k. rewrite (bind_ok _ _ _ _ _ Hget).
  unfold copy.
  assert (Hwr : wr (pv c) rt col rid d k = setslice (pv c k) o (o + WORDSIZE) d /\
                (forall k', k' <> k -> wr (pv c) rt col rid d k' = pv c k')).
  { unfold wr. rewrite Hu. split.
    - rewrite decide_True by reflexivity. reflexivity.
    - intros k' Hne. rewrite decide_False by exact Hne. reflexivity. }
  destruct Hwr as [Hwrk Hwro].
  destruct app.
  - (* the counter is bumped first *)
    specialize (HN eq_refl).
    set (w := le_split 8 (num_records pg0 + 1)).
    assert (Hwl : length w = 8%nat) by apply length_le_split.
    set (bf := setslice (w ++ drop 8 b) o (o + WORDSIZE) d).
    assert (Hb0l : Z.of_nat (length (w ++ drop 8 b)) = PAGESIZE).
    { rewrite length_app, length_drop. lia. }
    assert (Hbfl : Z.of_nat (length bf) = PAGESIZE).
    { unfold bf. rewrite <- Hd. rewrite setslice_in_length by lia. exact Hb0l. }
    assert (Hbfc : counter_word bf <= N + 1).
    { unfold bf. rewrite counter_word_setslice by lia.
      rewrite counter_word_app by exact Hwl. unfold w.
      rewrite le_combine_split. change (2 ^ (Z.of_nat 8 * 8)) with (2 ^ 64).
      rewrite Z.mod_small by lia. lia. }
    unfold bind at 1. unfold bind at 1. cbn [data num_records].
    rewrite heap_pack_into_Q by (rewrite ?Hdef; lia). rewrite Hdef. fold w.
    unfold ret at 1. unfold bind at 1.
    rewrite heap_write_field by exact Hd. cbn [data].
    rewrite buffer_heap_set; [|reflexivity|exact E1].
    rewrite heap_set_twice. fold bf.
    destruct (set_entry_finish (N + 1) k c1 dirty pg0
                (mkPage (data pg0) (num_records pg0 + 1)) bf)
      as (c2 & Hsp & Hwf2 & Hg2 & Hc2 & Hpv2 & Hfr2);
      [apply (wfx_mono N); [exact Hwfp | lia] | exact Hg1 | reflexivity
      | cbn [num_records]; lia | exact Hbfl | exact Hbfc |].
    rewrite Hsp.
    exists c2, (mkPage (data pg0) (num_records pg0 + 1)).
    split; [reflexivity|]. split; [exact Hwf2|]. split; [exact Hg2|]. split.
    + intros k'. destruct (decide (k' = k)) as [->|Hne].
      * rewrite Hwrk. unfold pv at 1. rewrite Hc2. unfold bf.
        rewrite mask_setslice by lia. rewrite mask_counter_app by exact Hwl. reflexivity.
      * rewrite (Hwro k' Hne). rewrite (Hpv2 k' Hne). apply Hpv1.
        unfold pinned. cbn. apply not_elem_of_nil.
    + eapply wframe_trans; [|exact Hfr2].
      split; [exact Hlen1 | split; [exact Hmeta1 | exact Hext1]].
  - (* no append *)
    set (bf := setslice b o (o + WORDSIZE) d).
    assert (Hbfl : Z.of_nat (length bf) = PAGESIZE).
    { unfold bf. rewrite <- Hd. rewrite setslice_in_length by lia. exact Hbl. }
    assert (Hbfc : counter_word bf <= N).
    { unfold bf. rewrite counter_word_setslice by lia. exact E6. }
    unfold bind at 1. unfold ret at 1. unfold bind at 1.
    rewrite heap_write_field by exact Hd.
    rewrite Hbuf. fold bf.
    destruct (set_entry_finish N k c1 dirty pg0 pg0 bf)
      as (c2 & Hsp & Hwf2 & Hg2 & Hc2 & Hpv2 & Hfr2);
      [exact Hwfp | exact Hg1 | reflexivity | exact E5 | exact Hbfl | exact Hbfc |].
    rewrite Hsp.
    exists c2, pg0.
    split; [reflexivity|]. split; [exact Hwf2|]. split; [exact Hg2|]. split.
    + intros k'. destruct (decide (k' = k)) as [->|Hne].
      * rewrite Hwrk. unfold pv at 1. rewrite Hc2. unfold bf.
        rewrite mask_setslice by lia. reflexivity.
      * rewrite (Hwro k' Hne). rewrite (Hpv2 k' Hne). apply Hpv1.
        unfold pinned. cbn. apply not_elem_of_nil.
    + eapply wframe_trans; [|exact Hfr2].
      split; [exact Hlen1 | split; [exact Hmeta1 | exact Hext1]].
Qed.

(** Releasing a pin: the entry of the key agrees with its file again. *)
Lemma wfx_unpin N c k l :
  wfx N [(k, l)] c ->
  (forall e, od_get (cache c) k = Some e -> e.1 = false ->
     drop 8 (buffer (objects (world c)) e.2) = drop 8 (disk_page (disk (world c)) k)) ->
  wfx N [] c.
Proof.
  intros [Hsz Hkeys Hlocs Hent Hwh Hcnt Hpin] Hag.
  constructor; try assumption.
  - apply Forall_forall. intros e He. rewrite Forall_forall in Hent.
    destruct (Hent e He) as (E1 & E2 & E3 & E4 & E5 & E6 & E7 & E8).
    unfold entry_ok. repeat (split; [assumption|]). split.
    + intros kx lx Hin. apply elem_of_nil in Hin. contradiction.
    + intros _ Hcl. destruct (decide (e.1 = k)) as [Hk|Hnk].
      * rewrite Hk. apply (Hag e.2); [|exact Hcl].
        rewrite <- Hk. apply od_get_of_elem; [exact Hkeys|]. destruct e; exact He.
      * apply E8; [|exact Hcl]. unfold pinned. cbn. intros Hin.
        apply list_elem_of_singleton in Hin. contradiction.
  - intros kx lx Hin. apply elem_of_nil in Hin. contradiction.
Qed.

(** [set_entry] without data: at most the counter of the page moves. *)
Lemma Cache_set_entry_nodata_spec N rt rid col (app : bool) c p o :
  wfx N [] c -> unpack_II rid = Ok (p, o) ->
  is_Some (disk (world c) !! (rt, col)) ->
  (app = true -> N + 1 < 2 ^ 64) ->
  exists c',
    Cache_set_entry rt rid col None app c = (Ok tt, c') /\
    wfx (if app then N + 1 else N) [] c' /\
    (forall k', pv c' k' = pv c k') /\
    wframe c c'.
Proof.
  intros Hwf Hu Hfile HN.
  destruct (unpack_II_bounds _ _ _ Hu) as [Hp _].
  set (k := (rt, p, col)).
  assert (Hnp : forall k', ~ pinned [] k') by (intros k'; unfold pinned; cbn; apply not_elem_of_nil).
  destruct (Cache__get_page_spec N [] k c Hwf (Hnp k) (proj1 Hp) Hfile)
    as (pg0 & c1 & dirty & Hget & Hwf1 & Hg1 & Hbuf & Hpv1 & Hpre & Hlen1 & Hmeta1 & Hext1).
  pose proof (content_length N [] c k Hwf) as Hbl.
  set (b := content c k) in *.
  assert (HP : PAGESIZE = 4096) by reflexivity.
  unfold Cache_set_entry. unfold bind at 1. unfold lift_result at 1. rewrite Hu.
  cbn [fst snd]. unfold Cache_get_page. fold k. rewrite (bind_ok _ _ _ _ _ Hget).
  unfold copy.
  destruct app.
  - specialize (HN eq_refl).
    pose proof (wfx_pin N c1 k dirty pg0 Hwf1 Hg1) as Hwfp.
    pose proof Hwf1 as [_ Hkeys1 _ Hent1 _ _ _]. rewrite Forall_forall in Hent1.
    destruct (Hent1 _ (od_get_elem _ _ _ Hg1)) as (E1 & _ & _ & _ & E5 & E6 & _ & E8).
    cbn [fst snd] in E1, E5, E6, E8. rewrite Hbuf in E6, E8.
    assert (Hdef : default [] (objects (world c1) !! data pg0) = b) by exact Hbuf.
    set (w := le_split 8 (num_records pg0 + 1)).
    assert (Hwl : length w = 8%nat) by apply length_le_split.
    assert (Hx : (k, data pg0) ∈ [(k, data pg0)]) by (apply list_elem_of_singleton; reflexivity).
    unfold bind at 1. unfold bind at 1. cbn [data num_records].
    rewrite heap_pack_into_Q by (rewrite ?Hdef; lia). rewrite Hdef. fold w.
    unfold ret.
    exists (heap_set (data pg0) (w ++ drop 8 b) c1). split; [reflexivity|].
    destruct (frame_heap_set c1 (data pg0) (w ++ drop 8 b)) as (Hh1 & Hh2 & Hh3 & Hh4 & Hh5).
    split; [|split].
    + apply (wfx_unpin (N + 1) _ k (data pg0)).
      * apply wfx_pinned_write with (k := k); [apply (wfx_mono N); [exact Hwfp|lia] | exact Hx | |].
        -- rewrite length_app, length_drop. lia.
        -- rewrite counter_word_app by exact Hwl. unfold w.
           rewrite le_combine_split. change (2 ^ (Z.of_nat 8 * 8)) with (2 ^ 64).
           rewrite Z.mod_small by lia. lia.
      * intros e He Hcl. rewrite Hh5, Hg1 in He. injection He as <-. cbn [fst snd] in *.
        rewrite buffer_heap_set by (try reflexivity; exact E1).
        rewrite drop_app_length' by (symmetry; exact Hwl). rewrite Hh4.
        apply E8; [apply Hnp | exact Hcl].
    + intros k'. rewrite <- (Hpv1 k' (Hnp k')).
      destruct (decide (k' = k)) as [->|Hne].
      * unfold pv, content. rewrite Hh5, Hg1. cbn [snd].
        rewrite buffer_heap_set by (try reflexivity; exact E1).
        rewrite Hbuf. apply mask_counter_app. exact Hwl.
      * apply (pv_heap_set N _ c1 k (data pg0) _ k' Hwfp Hx).
        unfold pinned. cbn. intros Hin. apply list_elem_of_singleton in Hin. contradiction.
    + split; [rewrite Hh2; exact Hlen1|]. split; [congruence|]. rewrite Hh4. exact Hext1.
  - unfold bind, ret. exists c1. split; [reflexivity|]. split; [exact Hwf1|].
    split; [intros k'; apply Hpv1, Hnp|].
    split; [exact Hlen1 | split; [exact Hmeta1 | exact Hext1]].
Qed.

(** ** What a computation keeps, whatever its outcome *)

(** [keeps R m]: the state [m] ends in, with a result or with an exception,
    is related by [R] to the state it started from. *)
Definition keeps {S A} (R : S -> S -> Prop) (m : M S A) : Prop :=
  forall s, R s (m s).2.

(** The relation of the states that agree on a component. *)
Definition same {S B} (f : S -> B) : S -> S -> Prop := fun s s' => f s' = f s.

#[global] Instance same_refl {S B} (f : S -> B) : Reflexive (same f).
Proof. intros s. reflexivity. Qed.

#[global] Instance same_trans {S B} (f : S -> B) : Transitive (same f).
Proof. intros s1 s2 s3 H1 H2. unfold same in *. congruence. Qed.

Section Keeps.
Context {S : Type} (R : S -> S -> Prop) `{!Reflexive R} `{!Transitive R}.

Lemma keeps_ret {A} (a : A) : keeps R (ret a).
Proof. intros s. reflexivity. Qed.

Lemma keeps_raise {A} e : keeps R (raise e : M S A).
Proof. intros s. reflexivity. Qed.

Lemma keeps_lift_result {A} (r : result A) : keeps R (lift_result r).
Proof. intros s. reflexivity. Qed.

Lemma keeps_gets {A} (f : S -> A) : keeps R (gets f).
Proof. intros s. reflexivity. Qed.

Lemma keeps_modify (g : S -> S) : (forall s, R s (g s)) -> keeps R (modify g).
Proof. intros H s. apply H. Qed.

Lemma keeps_bind {A B} (m : M S A) (f : A -> M S B) :
  keeps R m -> (forall a, keeps R (f a)) -> keeps R (bind m f).
Proof.
  intros Hm Hf s. unfold bind. specialize (Hm s).
  destruct (m s) as [[a|e] s1]; cbn [snd] in *; [|exact Hm].
  etransitivity; [exact Hm | apply Hf].
Qed.

Lemma keeps_for_each {A} (l : list A) (body : A -> M S unit) :
  (forall x, keeps R (body x)) -> keeps R (for_each l body).
Proof.
  intros Hb. induction l as [|x l IH]; cbn [for_each].
  - apply keeps_ret.
  - apply keeps_bind; [apply Hb | intros _; exact IH].
Qed.

Lemma keeps_map_M {A B} (f : A -> M S B) (l : list A) :
  (forall x, keeps R (f x)) -> keeps R (map_M f l).
Proof.
  intros Hf. induction l as [|x l IH]; cbn [map_M].
  - apply keeps_ret.
  - apply keeps_bind; [apply Hf | intros y].
    apply keeps_bind; [exact IH | intros ys; apply keeps_ret].
Qed.
End Keeps.

Lemma keeps_zoom {S T A} (R : T -> T -> Prop) (proj : T -> S) (inj : S -> T -> T)
    (m : M S A) :
  (forall t s', R t (inj s' t)) -> keeps R (zoom proj inj m).
Proof. intros H t. unfold zoom. destruct (m (proj t)) as [r s']. apply H. Qed.

Lemma keeps_zoom_in {S T A} (R : T -> T -> Prop) (R' : S -> S -> Prop)
    (proj : T -> S) (inj : S -> T -> T) (m : M S A) :
  (forall t s', R' (proj t) s' -> R t (inj s' t)) ->
  keeps R' m -> keeps R (zoom proj inj m).
Proof.
  intros H Hm t. unfold zoom. specialize (Hm (proj t)).
  destruct (m (proj t)) as [r s']. apply H. exact Hm.
Qed.

(** One step through a computation built from the monad's operations. *)
Ltac keeps_step :=
  lazymatch goal with
  | |- keeps _ (bind _ _) => apply keeps_bind; [typeclasses eauto.. | | intros ?]
  | |- keeps _ (ret _) => apply keeps_ret; typeclasses eauto
  | |- keeps _ (raise _) => apply keeps_raise; typeclasses eauto
  | |- keeps _ (lift_result _) => apply keeps_lift_result; typeclasses eauto
  | |- keeps _ (gets _) => apply keeps_gets; typeclasses eauto
  | |- keeps _ (for_each _ _) => apply keeps_for_each; [typeclasses eauto.. | intros ?]
  | |- keeps _ (map_M _ _) => apply keeps_map_M; [typeclasses eauto.. | intros ?]
  | |- keeps _ (if ?b then _ else _) => destruct b
  | |- keeps _ (match ?x with _ => _ end) => destruct x
  | |- keeps _ (let '(_, _) := ?x in _) => destruct x
  end.

(** *** The pool: the page operations keep the allocator *)

Lemma in_world_keeps_meta {A} (m : M World A) : keeps (same cache_meta) (in_world m).
Proof. apply keeps_zoom. intros c w. reflexivity. Qed.

Lemma Cache__set_page_keeps_meta k p : keeps (same cache_meta) (Cache__set_page k p).
Proof.
  unfold Cache__set_page.
  keeps_step.
  { apply keeps_modify. intros c. destruct (od_get (cache c) k); reflexivity. }
  keeps_step; [apply keeps_modify; intros c; reflexivity|].
  keeps_step; [keeps_step|].
  repeat keeps_step; try (apply keeps_modify; intros c; reflexivity).
  apply in_world_keeps_meta.
Qed.

Lemma Cache__get_page_keeps_meta k : keeps (same cache_meta) (Cache__get_page k).
Proof.
  unfold Cache__get_page. destruct k as [[rt p] col].
  keeps_step; [keeps_step|].
  repeat keeps_step;
    try (apply keeps_modify; intros c; reflexivity);
    try apply in_world_keeps_meta; try apply Cache__set_page_keeps_meta.
Qed.


Lemma Cache_set_entry_keeps_meta rt rid col d app :
  keeps (same cache_meta) (Cache_set_entry rt rid col d app).
Proof.
  unfold Cache_set_entry, Cache_get_page.
  repeat keeps_step; try apply in_world_keeps_meta;
    try apply Cache__get_page_keeps_meta; try apply Cache__set_page_keeps_meta.
Qed.

(** *** The table: what the operations on the pages keep *)

(** The table but for the pages of its pool: the allocator and everything
    outside the pool. *)
Definition table_meta (t : Table) :=
  (cache_meta (t_cache t), index t, merge_queue_matrix t, merge_counter t,
   (key_index t, num_columns t, lock_manager t, closed t, merge_trigger t)).

Lemma in_cache_keeps_meta {A} (m : M Cache A) :
  keeps (same cache_meta) m -> keeps (same table_meta) (in_cache m).
Proof.
  intros Hm. apply (keeps_zoom_in _ (same cache_meta)); [|exact Hm].
  intros t c' Hc. unfold same, table_meta in *. cbn. rewrite Hc. reflexivity.
Qed.

Lemma in_cache_keeps_index {A} (m : M Cache A) : keeps (same index) (in_cache m).
Proof. apply keeps_zoom. intros t c'. reflexivity. Qed.

Lemma Table_insert_record_keeps_meta now r :
  keeps (same table_meta) (Table_insert_record now r).
Proof.
  unfold Table_insert_record.
  repeat keeps_step;
    try (apply in_cache_keeps_meta, Cache_set_entry_keeps_meta).
Qed.

(** ** [query.py]: the queries that look the key up in column 0 *)

Lemma locate_not_indexed key col t :
  py_nth (index_created (index t)) col = Ok false ->
  in_index (Index_locate key col) t = (Err NotIndexed, t).
Proof.
  intros H. rewrite in_index_locate. unfold Index_locate, bind, gets, lift_result.
  cbn [fst snd]. rewrite H. reflexivity.
Qed.

Lemma bind_gets {S A B} (f : S -> A) (k : A -> M S B) s :
  bind (gets f) k s = k (f s) s.
Proof. reflexivity. Qed.

(** The keys of a sum over a proper range: there is a first one. *)
Lemma py_range3_sum_keys s e :
  s <> e ->
  exists i l,
    py_range3 s (e + (e - s) / Z.abs (e - s)) ((e - s) / Z.abs (e - s)) = i :: l.
Proof.
  intros Hne. destruct (Z_lt_le_dec s e) as [Hlt|Hge].
  - rewrite Z.abs_eq by lia. rewrite Z.div_same by lia.
    unfold py_range3. rewrite decide_True by lia.
    destruct (Z.to_nat (e + 1 - s)) as [|m] eqn:Hm; [lia|].
    cbn [seq fmap list_fmap]. eexists _, _. reflexivity.
  - assert (Hstep : (e - s) / Z.abs (e - s) = -1).
    { rewrite Z.abs_neq by lia. symmetry.
      apply (Z.div_unique (e - s) (- (e - s)) (-1) 0); lia. }
    rewrite Hstep. unfold py_range3. rewrite decide_False by lia.
    destruct (Z.to_nat (s - (e + -1))) as [|m] eqn:Hm; [lia|].
    cbn [seq fmap list_fmap]. eexists _, _. reflexivity.
Qed.

Lemma Table_get_new_rid_tail_keeps_index :
  keeps (same index) (Table_get_new_rid tail).
Proof. unfold Table_get_new_rid. repeat keeps_step. apply in_cache_keeps_index. Qed.

Lemma same_table_meta_index t t' : same table_meta t t' -> index t' = index t.
Proof. unfold same, table_meta. intros H. congruence. Qed.

(** A table created on a key column other than column 0 has no index on
    column 0. *)
Lemma Table_init_column_0 CACHE_SIZE n k w t :
  Table_init CACHE_SIZE n k w = Ok t -> 0 < k < n ->
  py_nth (index_created (index t)) 0 = Ok false.
Proof.
  unfold Table_init, Index_init, py_set. intros H Hk.
  rewrite length_replicate in H.
  rewrite (decide_False (P := k < 0)) in H by lia.
  rewrite decide_True in H by lia. cbn [rbind] in H.
  destruct (Cache_init CACHE_SIZE w) as [c|]; [|discriminate]. cbn [rbind] in H.
  destruct (fst (Cache_last_page_index base c)) as [last|]; [|discriminate].
  cbn [rbind] in H. ok_inj H. cbn [index index_created].
  unfold py_nth. rewrite length_insert, length_replicate.
  rewrite (decide_False (P := 0 < 0)) by lia. rewrite decide_True by lia.
  change (Z.to_nat 0) with 0%nat.
  rewrite list_lookup_insert_ne by lia.
  rewrite lookup_replicate_2 by lia. reflexivity.
Qed.

Lemma put_bucket_keeps_created fi k rids :
  keeps (same index_created) (put_bucket fi k rids).
Proof.
  unfold put_bucket. repeat keeps_step. apply keeps_modify. intros ix. reflexivity.
Qed.

Lemma Index_map_insert_keeps_created r :
  keeps (same index_created) (Index_map_insert r).
Proof.
  unfold Index_map_insert. repeat keeps_step; apply put_bucket_keeps_created.
Qed.

(** Inserting records builds no index: a table created on another key
    column stays without an index on column 0. *)
Lemma Query_insert_keeps_created now cols :
  keeps (same (fun t => index_created (index t))) (Query_insert now cols).
Proof.
  unfold Query_insert, Table_get_new_rid.
  repeat keeps_step;
    try (apply keeps_modify; intros t; reflexivity);
    try (apply keeps_zoom; intros t c'; reflexivity).
  - apply (keeps_zoom_in _ (same index_created)); [|apply Index_map_insert_keeps_created].
    intros t ix' H. exact H.
  - intros t.
    lazymatch goal with
    | |- context [Table_insert_record ?n ?r t] =>
        pose proof (Table_insert_record_keeps_meta n r t) as H
    end.
    apply same_table_meta_index in H. unfold same. rewrite H. reflexivity.
Qed.

(** C9, amended: on a table state without an index on column 0 (as in a
    table created with a key column between 1 and the last column, on
    which no index on column 0 was built since), [Query.delete] raises the
    [NotIndexed] error of [Index.locate] for every key, and so does
    [Query.sum] for every range and every aggregate column of the table,
    both leaving the table as it was; [Query.update] with as many columns
    as the table has always raises, and what it raises is [NotIndexed]
    whenever its tail append ([get_new_rid('tail')], [insert_record])
    succeeds, the state being that after the append.  Whether the key
    exists does not matter: the three look the key up in column 0. *)
Theorem queries_on_column_0_not_indexed (MERGE_EPOCH : Z) (t : Table) :
  py_nth (index_created (index t)) 0 = Ok false ->
  (forall fuel key, Query_delete fuel key t = (Err NotIndexed, t)) /\
  (forall fuel s e a, 0 <= a < num_columns t ->
     Query_sum fuel s e a t = (Err NotIndexed, t)) /\
  (forall fuel now key cols, Z.of_nat (length cols) = num_columns t ->
     exists e t',
       Query_update MERGE_EPOCH fuel now key cols t = (Err e, t') /\
       (forall t1,
          (r <- Table_get_new_rid tail ;;
           Table_insert_record now (mkRecord r key cols tail)) t = (Ok tt, t1) ->
          e = NotIndexed /\ t' = t1)).
Proof.
  intros Hc. split; [|split].
  - intros fuel key. unfold Query_delete, first_located.
    erewrite bind_err; [reflexivity|]. erewrite bind_err; [reflexivity|].
    apply locate_not_indexed. exact Hc.
  - intros fuel s e a Ha. unfold Query_sum. unfold bind at 1. unfold gets at 1.
    unfold bind at 1. unfold lift_result at 1.
    unfold py_set. rewrite length_replicate.
    rewrite (decide_False (P := a < 0)) by lia.
    rewrite (decide_True (P := 0 <= a < Z.of_nat (Z.to_nat (num_columns t)))) by lia.
    destruct (decide (s = e)) as [->|Hne].
    + unfold select_one, Query_select.
      erewrite bind_err; [reflexivity|].
      unfold bind at 1. unfold gets at 1.
      rewrite decide_False.
      2:{ intros Hl. apply Hl. rewrite length_insert, length_replicate. lia. }
      erewrite bind_err; [reflexivity|]. apply locate_not_indexed. exact Hc.
    + destruct (py_range3_sum_keys s e Hne) as (i & l & Hl). rewrite Hl.
      cbn [sum_loop]. erewrite bind_err; [reflexivity|].
      apply locate_not_indexed. exact Hc.
  - intros fuel now key cols Hlen. unfold Query_update.
    rewrite bind_gets. rewrite decide_False by lia.
    pose proof (Table_get_new_rid_tail_keeps_index t) as Hk1.
    destruct (Table_get_new_rid tail t) as [[r|e] t1] eqn:Hr; cbn [snd] in Hk1.
    + rewrite (bind_ok _ _ _ _ _ Hr).
      pose proof (Table_insert_record_keeps_meta now (mkRecord r key cols tail) t1)
        as Hk2. apply same_table_meta_index in Hk2.
      destruct (Table_insert_record now (mkRecord r key cols tail) t1)
        as [[[]|e] t2] eqn:Hi; cbn [snd] in Hk2.
      * rewrite (bind_ok _ _ _ _ _ Hi). exists NotIndexed, t2. split.
        -- erewrite bind_err; [reflexivity|]. unfold first_located.
           erewrite bind_err; [reflexivity|]. apply locate_not_indexed.
           rewrite Hk2, Hk1. exact Hc.
        -- intros t1' H. rewrite (bind_ok _ _ _ _ _ Hr), Hi in H.
           split; [reflexivity|]. congruence.
      * rewrite (bind_err _ _ _ _ _ Hi). exists e, t2. split; [reflexivity|].
        intros t1' H. rewrite (bind_ok _ _ _ _ _ Hr), Hi in H. discriminate.
    + rewrite (bind_err _ _ _ _ _ Hr). exists e, t1. split; [reflexivity|].
      intros t1' H. rewrite (bind_err _ _ _ _ _ Hr) in H. discriminate.
Qed.

(** A table of three columns keyed on column 1, holding the record
    (10, 1, 100). *)
Definition table_keyed_on_1 : Table :=
  snd (Query_insert 0 [10; 1; 100]
         (table_or_empty (Table_init 16 3 1 (fresh_world 3)))).

Lemma queries_on_column_0_not_indexed_witness :
  (exists rids, fst (Index_locate 1 1 (index table_keyed_on_1)) = Ok (Some rids)) /\
  Query_delete 8 1 table_keyed_on_1 = (Err NotIndexed, table_keyed_on_1) /\
  Query_sum 8 1 2 2 table_keyed_on_1 = (Err NotIndexed, table_keyed_on_1) /\
  fst (Query_update 2 8 0 1 [None; None; Some 5] table_keyed_on_1) = Err NotIndexed.
Proof.
  destruct (queries_on_column_0_not_indexed 2 table_keyed_on_1) as (Hd & Hs & Hu).
  { vm_compute. reflexivity. }
  assert (Hn : num_columns table_keyed_on_1 = 3) by (vm_compute; reflexivity).
  split; [eexists; vm_compute; reflexivity|].
  split; [apply Hd|]. split; [apply Hs; rewrite Hn; lia|].
  destruct (Hu 8%nat 0 1 [None; None; Some 5]) as (e & t' & Hq & Hcl);
    [rewrite Hn; reflexivity|].
  assert (Hp : exists t1,
             (r <- Table_get_new_rid tail ;;
              Table_insert_record 0 (mkRecord r 1 [None; None; Some 5] tail))
               table_keyed_on_1 = (Ok tt, t1))
    by (eexists; vm_compute; reflexivity).
  destruct Hp as [t1 Hp]. destruct (Hcl t1 Hp) as [He _].
  rewrite Hq. cbn [fst]. rewrite He. reflexivity.
Defined.

(** ** The exceptions a computation can raise *)

Definition raises_only {S A} (P : error -> Prop) (m : M S A) : Prop :=
  forall s e s', m s = (Err e, s') -> P e.

Section RaisesOnly.
Context {S : Type} (P : error -> Prop).




Lemma raises_only_raise {A} e : P e -> raises_only P (raise e : M S A).
Proof. intros He s e' s' H. unfold raise in H. congruence. Qed.



End RaisesOnly.






(** ** The RID allocator *)

Lemma Cache_get_new_rid_fresh rt c r c' :
  Cache_get_new_rid rt c = (Ok r, c') ->
  c' = set_last_rid rt r c /\ r <> last_rid c rt.
Proof.
  unfold Cache_get_new_rid. rewrite bind_gets. intros H.
  apply bind_inv_ok in H. destruct H as ([p o] & c1 & Hu & H).
  unfold lift_result in Hu. injection Hu as Hu <-.
  apply bind_inv_ok in H. destruct H as (nr & c1 & Hp & H).
  unfold lift_result in Hp. injection Hp as Hp <-.
  unfold bind, modify, ret in H.
  assert (nr = r) by congruence. subst nr.
  assert (c' = set_last_rid rt r c) by congruence. subst c'. clear H.
  split; [reflexivity|]. intros ->.
  apply unpack_pack_II in Hp. rewrite Hu in Hp. cbn [fst snd] in Hp.
  assert (HW : WORDSIZE = 8) by reflexivity.
  case_decide; cbn [fst snd] in Hp.
  { assert (p = p + 1) by congruence. lia. }
  assert (Hp2 : o = (o `div` WORDSIZE + 1) * WORDSIZE) by congruence.
  rewrite HW in Hp2. pose proof (Z.div_mod o 8). pose proof (Z.mod_pos_bound o 8). lia.
Qed.




(** ** The allocator under the queries *)













(** ** [query.py]: an insert or an update of a duplicate key *)


Lemma py_nth_lookup {A} (l : list A) i x :
  0 <= i -> l !! Z.to_nat i = Some x -> py_nth l i = Ok x.
Proof.
  intros Hi Hl. unfold py_nth. rewrite (decide_False (P := i < 0)) by lia.
  pose proof (lookup_lt_Some _ _ _ Hl).
  rewrite decide_True by lia. rewrite Hl. reflexivity.
Qed.


Lemma enumerate_split {A} (l : list A) (i : nat) (x : A) :
  l !! i = Some x ->
  enumerate l =
  zip (Z.of_nat <$> seq 0 i) (take i l) ++
  (Z.of_nat i, x) :: zip (Z.of_nat <$> seq (S i) (length l - S i)) (drop (S i) l).
Proof.
  intros Hx. unfold enumerate.
  pose proof (lookup_lt_Some _ _ _ Hx) as Hlt.
  assert (Hs : seq 0 (length l) = seq 0 i ++ i :: seq (S i) (length l - S i)).
  { replace (length l) with (i + S (length l - S i))%nat at 1 by lia.
    rewrite seq_app. reflexivity. }
  rewrite Hs. rewrite <- (take_drop_middle l i x Hx) at 2.
  rewrite fmap_app. cbn [fmap list_fmap].
  rewrite zip_with_app.
  - reflexivity.
  - rewrite length_fmap, length_seq, length_take. lia.
Qed.




Lemma zoom_eq_id {S T A} (proj : T -> S) (inj : S -> T -> T) (m : M S A) t r :
  m (proj t) = (r, proj t) -> inj (proj t) t = t -> zoom proj inj m t = (r, t).
Proof. intros H Hi. unfold zoom. rewrite H, Hi. reflexivity. Qed.


(** The sample table holding the record (1, 10, 100). *)
Definition table_with_key_1 : Table :=
  snd (Query_insert 0 [1; 10; 100] sample_table).



(** ** Reading through the pool *)

(** What a read leaves of a coherent pool: coherence, the logical contents
    of every page, the objects, the allocator and the set of files. *)
Definition reads_pool (N : Z) (c c' : Cache) : Prop :=
  wfx N [] c ->
  wfx N [] c' /\ (forall k, pv c' k = pv c k) /\ frame c c'.

#[global] Instance reads_pool_refl N : Reflexive (reads_pool N).
Proof.
  intros c Hwf. split; [exact Hwf|]. split; [reflexivity | apply frame_refl].
Qed.

#[global] Instance reads_pool_trans N : Transitive (reads_pool N).
Proof.
  intros c1 c2 c3 H12 H23 Hwf.
  destruct (H12 Hwf) as (Hwf2 & Hpv2 & Hfr2).
  destruct (H23 Hwf2) as (Hwf3 & Hpv3 & Hfr3).
  split; [exact Hwf3|]. split.
  - intros k. rewrite Hpv3. apply Hpv2.
  - eapply frame_trans; eassumption.
Qed.

Lemma set_world_id c : set_world (world c) c = c.
Proof. destruct c; reflexivity. Qed.

Lemma set_objects_id w : set_objects (objects w) w = w.
Proof. destruct w; reflexivity. Qed.

Lemma not_pinned_nil k : ~ pinned [] k.
Proof. unfold pinned. cbn. apply not_elem_of_nil. Qed.

Lemma Cache__get_page_reads N k :
  0 <= k.1.2 -> keeps (reads_pool N) (Cache__get_page k).
Proof.
  intros Hk c Hwf.
  destruct (disk (world c) !! (k.1.1, k.2)) as [f|] eqn:Hf.
  - destruct (Cache__get_page_spec N [] k c Hwf (not_pinned_nil k) Hk)
      as (p & c' & dirty & Hget & Hwf' & _ & _ & Hpv & Hpre & Hlen & Hmeta & Hext).
    { rewrite Hf. eexists. reflexivity. }
    rewrite Hget. cbn [snd]. split; [exact Hwf'|]. split.
    + intros k'. apply Hpv, not_pinned_nil.
    + split; [exact Hpre | split; [exact Hlen | split; [exact Hmeta | exact Hext]]].
  - assert (Hrun : snd (Cache__get_page k c) = c).
    { unfold Cache__get_page. destruct k as [[rt i] col]. cbn [fst snd] in *.
      rewrite bind_gets.
      destruct (od_get (cache c) (rt, i, col)) as [e|] eqn:Hg.
      - exfalso. pose proof Hwf as [_ _ _ Hent _ _ _]. rewrite Forall_forall in Hent.
        destruct (Hent _ (od_get_elem _ _ _ Hg)) as (_ & _ & _ & (f & Hf' & _) & _).
        cbn [fst snd] in Hf'. congruence.
      - erewrite bind_err; [reflexivity|].
        unfold in_world. apply zoom_eq_id; [|apply set_world_id].
        unfold DiskHelper_read_page. erewrite bind_err; [reflexivity|].
        unfold DiskHelper__open_file. rewrite Hf. reflexivity. }
    rewrite Hrun. apply reads_pool_refl. exact Hwf.
Qed.

Lemma Page_read_field_state p o h : snd (Page_read_field p o h) = h.
Proof. unfold Page_read_field. case_decide; reflexivity. Qed.

Lemma heap_read_field_state p o c :
  snd (in_world (in_heap (Page_read_field p o)) c) = c.
Proof.
  rewrite in_world_in_heap. cbn [snd]. rewrite Page_read_field_state.
  rewrite set_objects_id. apply set_world_id.
Qed.

Lemma heap_read_field_reads N p o :
  keeps (reads_pool N) (in_world (in_heap (Page_read_field p o))).
Proof. intros c. rewrite heap_read_field_state. reflexivity. Qed.

Lemma Cache_get_page_reads N rt p col :
  0 <= p -> keeps (reads_pool N) (Cache_get_page rt p col).
Proof. intros Hp. apply (Cache__get_page_reads N (rt, p, col)). exact Hp. Qed.

Lemma Cache_get_entry_reads N rt rid col :
  keeps (reads_pool N) (Cache_get_entry rt rid col).
Proof.
  unfold Cache_get_entry. intros c.
  unfold bind at 1. unfold lift_result at 1.
  destruct (unpack_II rid) as [[p o]|e] eqn:Hu; [|reflexivity].
  revert c. change (keeps (reads_pool N)
    (target_page <- Cache_get_page rt (p, o).1 col ;;
     in_world (in_heap (Page_read_field target_page (p, o).2)))).
  apply keeps_bind; [typeclasses eauto.. | | intros pg; apply heap_read_field_reads].
  apply Cache_get_page_reads. cbn [fst]. apply (unpack_II_bounds _ _ _ Hu).
Qed.

(** *** The table under reads *)

(** The table outside its pool. *)
Definition outside_pool (t : Table) :=
  (key_index t, num_columns t, index t, lock_manager t,
   (merge_queue_matrix t, merge_counter t, closed t, merge_trigger t)).

(** What a read leaves of a table. *)
Definition reads_table (N : Z) (t t' : Table) : Prop :=
  outside_pool t' = outside_pool t /\ reads_pool N (t_cache t) (t_cache t').

#[global] Instance reads_table_refl N : Reflexive (reads_table N).
Proof. intros t. split; reflexivity. Qed.

#[global] Instance reads_table_trans N : Transitive (reads_table N).
Proof.
  intros t1 t2 t3 [H1 H1'] [H2 H2']. split; [congruence|].
  etransitivity; eassumption.
Qed.

Lemma in_cache_reads {A} N (m : M Cache A) :
  keeps (reads_pool N) m -> keeps (reads_table N) (in_cache m).
Proof.
  intros Hm. apply (keeps_zoom_in _ (reads_pool N)); [|exact Hm].
  intros t c' Hc. split; [reflexivity | exact Hc].
Qed.

Lemma in_index_locate_reads N key col :
  keeps (reads_table N) (in_index (Index_locate key col)).
Proof. intros t. rewrite in_index_locate. reflexivity. Qed.

Ltac keeps_reads :=
  repeat first
    [ keeps_step
    | apply in_index_locate_reads
    | apply in_cache_reads;
      first [ apply Cache_get_entry_reads | apply heap_read_field_reads ] ].

Lemma Table_base_up_to_date_reads N b f :
  keeps (reads_table N) (Table_base_up_to_date b f).
Proof.
  unfold Table_base_up_to_date. intros t.
  unfold bind at 1. unfold lift_result at 1.
  destruct (unpack_II b) as [[p o]|e] eqn:Hu; [|reflexivity].
  revert t.
  lazymatch goal with
  | |- forall t, reads_table N t (snd (?m t)) => change (keeps (reads_table N) m)
  end.
  keeps_step.
  { apply in_cache_reads, Cache_get_page_reads. cbn [fst].
    apply (unpack_II_bounds _ _ _ Hu). }
  keeps_reads.
Qed.

Lemma walk_chain_reads N fuel f r enc :
  keeps (reads_table N) (walk_chain fuel f r enc).
Proof.
  revert r enc. induction fuel as [|fuel IH]; intros r enc; cbn [walk_chain].
  - keeps_reads.
  - keeps_step; [keeps_reads|]. keeps_step; [|keeps_reads].
    keeps_step; [keeps_reads|]. keeps_step; [keeps_reads|]. apply IH.
Qed.

Lemma Table_select_feature_reads N fuel b f :
  keeps (reads_table N) (Table_select_feature fuel b f).
Proof.
  unfold Table_select_feature.
  keeps_step; [keeps_reads|].
  keeps_step; [apply Table_base_up_to_date_reads|].
  keeps_step; [keeps_reads|].
  keeps_step; [keeps_reads|].
  keeps_step; [keeps_reads|]. keeps_step; [keeps_reads|].
  keeps_step; [apply walk_chain_reads|]. keeps_reads.
Qed.

Lemma Query_select_reads N fuel key ki mask :
  keeps (reads_table N) (Query_select fuel key ki mask).
Proof.
  unfold Query_select.
  keeps_step; [keeps_reads|]. keeps_step; [keeps_reads|].
  keeps_step; [keeps_reads|]. keeps_step; [|keeps_reads].
  keeps_step. keeps_step; [|keeps_reads].
  keeps_step. keeps_step; [keeps_reads|]. keeps_step; [keeps_reads|].
  keeps_step; [apply Table_select_feature_reads | keeps_reads].
Qed.

(** ** The table over its logical pages *)

(** A RID whose slot lies inside a page, past the counter word. *)
Definition rid_ok (r : bytes) : Prop :=
  match unpack_II r with
  | Ok (p, o) => 8 <= o <= PAGESIZE - WORDSIZE
  | Err _ => False
  end.

#[global] Instance rid_ok_dec r : Decision (rid_ok r).
Proof. unfold rid_ok. destruct (unpack_II r) as [[p o]|]; apply _. Defined.

(** The files of all the columns of the table exist. *)
Definition files_for (t : Table) : Prop :=
  0 <= num_columns t /\
  forall rt col, 0 <= col < num_columns t + NUM_INTERNAL_COLUMN ->
    is_Some (disk (world (t_cache t)) !! (rt, col)).

(** A table whose pool is coherent, with counters up to [N], logical pages
    [v], allocator [a] and the rest [o]. *)
Definition tstate (N : Z) (v : page_key -> bytes) (a : Z * bytes * bytes)
    (o : _) (t : Table) : Prop :=
  wfx N [] (t_cache t) /\ files_for t /\
  (forall k, pv (t_cache t) k = v k) /\
  cache_meta (t_cache t) = a /\ outside_pool t = o.

Lemma rd_ext v v' rt col rid :
  (forall k, v k = v' k) -> rd v rt col rid = rd v' rt col rid.
Proof. intros H. unfold rd. destruct (unpack_II rid) as [[p o]|]; [rewrite H|]; reflexivity. Qed.

Lemma wr_ext v v' rt col rid d k :
  (forall k, v k = v' k) -> wr v rt col rid d k = wr v' rt col rid d k.
Proof.
  intros H. unfold wr. destruct (unpack_II rid) as [[p o]|]; [|apply H].
  case_decide; rewrite H; reflexivity.
Qed.

Lemma disk_ext_is_Some d d' fk : disk_ext d d' -> is_Some (d !! fk) -> is_Some (d' !! fk).
Proof.
  intros [H _] [g Hg]. destruct (H _ _ Hg) as (g' & Hg' & _). rewrite Hg'. eexists. reflexivity.
Qed.

Lemma outside_pool_num_columns t t' :
  outside_pool t' = outside_pool t -> num_columns t' = num_columns t.
Proof. unfold outside_pool. intros H. congruence. Qed.

Lemma outside_pool_set_t_cache c t : outside_pool (set_t_cache c t) = outside_pool t.
Proof. reflexivity. Qed.

(** A read keeps the state of the table. *)
Lemma reads_table_tstate N v a o t t' :
  reads_table N t t' -> tstate N v a o t -> tstate N v a o t'.
Proof.
  intros [Ho Hr] (Hwf & [Hn Hfiles] & Hv & Ha & Hout).
  destruct (Hr Hwf) as (Hwf' & Hpv & (_ & _ & Hmeta & Hext)).
  pose proof (outside_pool_num_columns _ _ Ho) as Hnc.
  split; [exact Hwf'|]. split.
  { split; [lia|]. intros rt col Hcol. eapply disk_ext_is_Some; [exact Hext|].
    apply Hfiles. lia. }
  split; [intros k; rewrite Hpv; apply Hv|]. split; congruence.
Qed.

Lemma in_cache_run {A} (m : M Cache A) t r c' :
  m (t_cache t) = (r, c') -> in_cache m t = (r, set_t_cache c' t).
Proof. apply zoom_eq. Qed.

(** [get_entry] on the table: the word of the record. *)
Lemma tget_entry N v a o t rt rid col :
  tstate N v a o t -> rid_ok rid -> 0 <= col < num_columns t + NUM_INTERNAL_COLUMN ->
  exists t',
    in_cache (Cache_get_entry rt rid col) t = (Ok (rd v rt col rid), t') /\
    tstate N v a o t'.
Proof.
  intros Hst Hrid Hcol. pose proof Hst as (Hwf & [Hn Hfiles] & Hv & Ha & Hout).
  unfold rid_ok in Hrid. destruct (unpack_II rid) as [[p off]|] eqn:Hu; [|contradiction].
  destruct (Cache_get_entry_spec N [] rt rid col (t_cache t) p off Hwf Hu
              (not_pinned_nil _) (Hfiles rt col Hcol) Hrid) as (c' & Hget & _).
  exists (set_t_cache c' t). split.
  - rewrite (in_cache_run _ _ _ _ Hget). rewrite (rd_ext _ v) by exact Hv. reflexivity.
  - eapply reads_table_tstate; [|exact Hst].
    pose proof (in_cache_reads N _ (Cache_get_entry_reads N rt rid col) t) as Hk.
    rewrite (in_cache_run _ _ _ _ Hget) in Hk. exact Hk.
Qed.

(** [set_entry] with data on the table: the word of the record is written. *)
Lemma tset_entry_data N v a o t rt rid col d (app : bool) :
  tstate N v a o t -> rid_ok rid -> 0 <= col < num_columns t + NUM_INTERNAL_COLUMN ->
  Z.of_nat (length d) = WORDSIZE ->
  (app = true -> N + 1 < 2 ^ 64) ->
  exists t',
    in_cache (Cache_set_entry rt rid col (Some d) app) t = (Ok tt, t') /\
    tstate (if app then N + 1 else N) (wr v rt col rid d) a o t'.
Proof.
  intros (Hwf & [Hn Hfiles] & Hv & Ha & Hout) Hrid Hcol Hd HN.
  unfold rid_ok in Hrid. destruct (unpack_II rid) as [[p off]|] eqn:Hu; [|contradiction].
  destruct (Cache_set_entry_data_spec N rt rid col d app (t_cache t) p off Hwf Hu
              (Hfiles rt col Hcol) Hrid Hd HN)
    as (c' & pg & Hset & Hwf' & _ & Hpv & (_ & Hmeta & Hext)).
  exists (set_t_cache c' t). split; [apply in_cache_run; exact Hset|].
  split; [exact Hwf'|]. split.
  { split; [exact Hn|]. intros rt' col' Hc'.
    eapply disk_ext_is_Some; [exact Hext|]. apply Hfiles. exact Hc'. }
  split; [intros k; cbn [t_cache set_t_cache]; rewrite Hpv; apply wr_ext; exact Hv|].
  split; [cbn [t_cache set_t_cache]; congruence | exact Hout].
Qed.

(** [set_entry] without data on the table: no word moves. *)
Lemma tset_entry_nodata N v a o t rt rid col (app : bool) :
  tstate N v a o t -> rid_ok rid -> 0 <= col < num_columns t + NUM_INTERNAL_COLUMN ->
  (app = true -> N + 1 < 2 ^ 64) ->
  exists t',
    in_cache (Cache_set_entry rt rid col None app) t = (Ok tt, t') /\
    tstate (if app then N + 1 else N) v a o t'.
Proof.
  intros (Hwf & [Hn Hfiles] & Hv & Ha & Hout) Hrid Hcol HN.
  unfold rid_ok in Hrid. destruct (unpack_II rid) as [[p off]|] eqn:Hu; [|contradiction].
  destruct (Cache_set_entry_nodata_spec N rt rid col app (t_cache t) p off Hwf Hu
              (Hfiles rt col Hcol) HN)
    as (c' & Hset & Hwf' & Hpv & (_ & Hmeta & Hext)).
  exists (set_t_cache c' t). split; [apply in_cache_run; exact Hset|].
  split; [exact Hwf'|]. split.
  { split; [exact Hn|]. intros rt' col' Hc'.
    eapply disk_ext_is_Some; [exact Hext|]. apply Hfiles. exact Hc'. }
  split; [intros k; cbn [t_cache set_t_cache]; rewrite Hpv; apply Hv|].
  split; [cbn [t_cache set_t_cache]; congruence | exact Hout].
Qed.

(** *** Selecting over the logical pages *)

(** The comparison of [base_up_to_date]: the first RID is past the second. *)
Definition newer (a b : Z * Z) : bool :=
  if decide (a.1 > b.1) then true
  else if decide (a.1 = b.1) then bool_decide (a.2 > b.2)
  else false.

(** The lineage of a base page: its word 1. *)
Definition lineage_v (v : page_key -> bytes) (p f : Z) : bytes :=
  getslice (v (base, p, f + NUM_INTERNAL_COLUMN)) WORDSIZE (WORDSIZE + WORDSIZE).

(** [Table.base_up_to_date] over the logical pages. *)
Definition base_up_to_date_v (v : page_key -> bytes) (b : bytes) (f : Z) : result bool :=
  rbind (unpack_II b) (fun pr =>
  rbind (unpack_II (lineage_v v pr.1 f)) (fun lin =>
  rbind (unpack_II (rd v base INDIRECTION_COLUMN b)) (fun lat =>
  Ok (newer lin lat)))).

(** The walk of [Table.select_feature] down the chain, over the logical
    pages, through RIDs inside their pages. *)
Fixpoint walk_v (fuel : nat) (v : page_key -> bytes) (f : Z) (r enc : bytes)
  : result bytes :=
  rbind (Table_is_updated enc f) (fun u =>
  if decide (u = 0) then
    match fuel with
    | O => Err OutOfFuel
    | S fuel' =>
        if decide (rid_ok r) then
          let r' := rd v tail INDIRECTION_COLUMN r in
          if decide (rid_ok r')
          then walk_v fuel' v f r' (rd v tail SCHEMA_ENCODING_COLUMN r')
          else Err OutOfBounds
        else Err OutOfBounds
    end
  else Ok r).

(** [Table.select_feature] over the logical pages. *)
Definition select_feature_v (fuel : nat) (v : page_key -> bytes) (b : bytes) (f : Z)
  : result Z :=
  if decide (rid_ok b) then
    rbind (base_up_to_date_v v b f) (fun up =>
    rbind (if (up : bool) then Ok true
           else rbind (Table_is_updated (rd v base SCHEMA_ENCODING_COLUMN b) f)
                  (fun u => Ok (bool_decide (u = 0)))) (fun from_base =>
    if (from_base : bool) then unpack_q (rd v base (f + NUM_INTERNAL_COLUMN) b)
    else
      let r := rd v base INDIRECTION_COLUMN b in
      if decide (rid_ok r) then
        rbind (walk_v fuel v f r (rd v tail SCHEMA_ENCODING_COLUMN r)) (fun r' =>
        if decide (rid_ok r')
        then unpack_q (rd v tail (f + NUM_INTERNAL_COLUMN) r')
        else Err OutOfBounds)
      else Err OutOfBounds))
  else Err OutOfBounds.

Lemma rbind_inv_ok {A B} (r : result A) (f : A -> result B) b :
  rbind r f = Ok b -> exists a, r = Ok a /\ f a = Ok b.
Proof. destruct r as [a|e]; cbn; [eauto | discriminate]. Qed.

Lemma bind_lift_ok {S A B} (r : result A) (k : A -> M S B) a s :
  r = Ok a -> bind (lift_result r) k s = k a s.
Proof. intros ->. reflexivity. Qed.

Lemma tstate_columns N v a o t :
  tstate N v a o t -> 0 <= num_columns t.
Proof. intros (_ & [Hn _] & _). exact Hn. Qed.

Lemma walk_chain_spec N v a o fuel f r enc r' t :
  tstate N v a o t ->
  walk_v fuel v f r enc = Ok r' ->
  exists t', walk_chain fuel f r enc t = (Ok r', t') /\ tstate N v a o t'.
Proof.
  assert (HC : NUM_INTERNAL_COLUMN = 4) by reflexivity.
  revert r enc t. induction fuel as [|fuel IH]; intros r enc t Hst Hw;
    cbn [walk_v walk_chain] in *.
  - apply rbind_inv_ok in Hw. destruct Hw as (u & Hu & Hw).
    rewrite (bind_lift_ok _ _ _ _ Hu).
    case_decide; [discriminate|]. ok_inj Hw. exists t. split; [reflexivity | exact Hst].
  - apply rbind_inv_ok in Hw. destruct Hw as (u & Hu & Hw).
    rewrite (bind_lift_ok _ _ _ _ Hu).
    case_decide; [|ok_inj Hw; exists t; split; [reflexivity | exact Hst]].
    case_decide as Hr; [|discriminate]. case_decide as Hr'; [|discriminate].
    pose proof (tstate_columns _ _ _ _ _ Hst) as Hn.
    destruct (tget_entry N v a o t tail r INDIRECTION_COLUMN Hst Hr)
      as (t1 & Hg1 & Hst1); [unfold INDIRECTION_COLUMN; lia|].
    rewrite (bind_ok _ _ _ _ _ Hg1).
    pose proof (tstate_columns _ _ _ _ _ Hst1) as Hn1.
    destruct (tget_entry N v a o t1 tail _ SCHEMA_ENCODING_COLUMN Hst1 Hr')
      as (t2 & Hg2 & Hst2); [unfold SCHEMA_ENCODING_COLUMN; lia|].
    rewrite (bind_ok _ _ _ _ _ Hg2).
    apply IH; assumption.
Qed.

(** [base_up_to_date] on the table. *)
Lemma Table_base_up_to_date_spec N v a o b f up t :
  tstate N v a o t -> rid_ok b -> 0 <= f < num_columns t ->
  base_up_to_date_v v b f = Ok up ->
  exists t', Table_base_up_to_date b f t = (Ok up, t') /\ tstate N v a o t'.
Proof.
  assert (HC : NUM_INTERNAL_COLUMN = 4) by reflexivity.
  assert (HW : WORDSIZE = 8) by reflexivity.
  assert (HP : PAGESIZE = 4096) by reflexivity.
  intros Hst Hb Hf Hup. unfold base_up_to_date_v in Hup.
  apply rbind_inv_ok in Hup. destruct Hup as ([p off] & Hu & Hup).
  apply rbind_inv_ok in Hup. destruct Hup as (lin & Hlin & Hup).
  apply rbind_inv_ok in Hup. destruct Hup as (lat & Hlat & Hup). ok_inj Hup.
  cbn [fst] in Hlin.
  unfold Table_base_up_to_date. rewrite (bind_lift_ok _ _ _ _ Hu). cbn [fst snd].
  pose proof Hst as (Hwf & [Hn Hfiles] & Hv & Ha & Hout).
  destruct (unpack_II_bounds _ _ _ Hu) as [Hp _].
  destruct (Cache__get_page_spec N [] (base, p, f + NUM_INTERNAL_COLUMN) (t_cache t)
              Hwf (not_pinned_nil _) (proj1 Hp))
    as (pg & c1 & dirty & Hget & Hwf1 & Hg1 & Hbuf & _).
  { cbn [fst snd]. apply Hfiles. lia. }
  pose proof (in_cache_reads N _ (Cache_get_page_reads N base p
                (f + NUM_INTERNAL_COLUMN) (proj1 Hp)) t) as Hk1.
  unfold Cache_get_page in Hk1 |- *.
  rewrite (in_cache_run _ _ _ _ Hget) in Hk1. cbn [snd] in Hk1.
  rewrite (bind_ok _ _ _ _ _ (in_cache_run _ _ _ _ Hget)).
  pose proof (reads_table_tstate _ _ _ _ _ _ Hk1 Hst) as Hst1.
  set (t1 := set_t_cache c1 t) in *.
  assert (Hread : in_cache (in_world (in_heap (Page_read_field pg WORDSIZE))) t1 =
                  (Ok (lineage_v v p f), t1)).
  { unfold in_cache. apply zoom_eq_id; [|destruct t1; reflexivity].
    rewrite in_world_in_heap.
    rewrite Page_read_field_in_bounds by lia. cbn [fst snd].
    rewrite set_objects_id, set_world_id. f_equal. f_equal.
    unfold t1. cbn [t_cache set_t_cache]. rewrite Hbuf.
    unfold lineage_v. rewrite <- Hv. unfold pv.
    symmetry. apply getslice_mask; [lia|].
    rewrite (content_length N [] _ _ Hwf). lia. }
  rewrite (bind_ok _ _ _ _ _ Hread).
  destruct (tget_entry N v a o t1 base b INDIRECTION_COLUMN Hst1 Hb)
    as (t2 & Hg2 & Hst2).
  { pose proof (tstate_columns _ _ _ _ _ Hst1). unfold INDIRECTION_COLUMN. lia. }
  rewrite (bind_ok _ _ _ _ _ Hg2).
  rewrite (bind_lift_ok _ _ _ _ Hlin). rewrite (bind_lift_ok _ _ _ _ Hlat).
  exists t2. split; [|exact Hst2].
  unfold newer. repeat case_decide; reflexivity.
Qed.

(** [select_feature] on the table: what the logical pages give. *)
Lemma Table_select_feature_spec N v a o fuel b f z t :
  tstate N v a o t -> 0 <= f < num_columns t ->
  select_feature_v fuel v b f = Ok z ->
  exists t', Table_select_feature fuel b f t = (Ok z, t') /\ tstate N v a o t'.
Proof.
  assert (HC : NUM_INTERNAL_COLUMN = 4) by reflexivity.
  intros Hst Hf Hsel. unfold select_feature_v in Hsel.
  case_decide as Hb; [|discriminate].
  apply rbind_inv_ok in Hsel. destruct Hsel as (up & Hup & Hsel).
  apply rbind_inv_ok in Hsel. destruct Hsel as (fb & Hfb & Hsel).
  unfold Table_select_feature.
  destruct (tget_entry N v a o t base b SCHEMA_ENCODING_COLUMN Hst Hb)
    as (t1 & Hg1 & Hst1); [unfold SCHEMA_ENCODING_COLUMN; lia|].
  rewrite (bind_ok _ _ _ _ _ Hg1).
  assert (Hnc1 : num_columns t1 = num_columns t).
  { destruct Hst as (_ & _ & _ & _ & Ho), Hst1 as (_ & _ & _ & _ & Ho1).
    apply outside_pool_num_columns. congruence. }
  destruct (Table_base_up_to_date_spec N v a o b f up t1 Hst1 Hb) as (t2 & Hg2 & Hst2);
    [lia | exact Hup |].
  rewrite (bind_ok _ _ _ _ _ Hg2).
  assert (Hnc2 : num_columns t2 = num_columns t).
  { destruct Hst as (_ & _ & _ & _ & Ho), Hst2 as (_ & _ & _ & _ & Ho2).
    apply outside_pool_num_columns. congruence. }
  assert (Hfrom : (if up then ret true
                   else u <- lift_result
                          (Table_is_updated (rd v base SCHEMA_ENCODING_COLUMN b) f) ;;
                        ret (bool_decide (u = 0))) t2 = (Ok fb, t2)).
  { destruct up; [ok_inj Hfb; reflexivity|].
    apply rbind_inv_ok in Hfb. destruct Hfb as (u & Hu & Hfb). ok_inj Hfb.
    rewrite (bind_lift_ok _ _ _ _ Hu). reflexivity. }
  rewrite (bind_ok _ _ _ _ _ Hfrom).
  destruct fb.
  - destruct (tget_entry N v a o t2 base b (f + NUM_INTERNAL_COLUMN) Hst2 Hb)
      as (t3 & Hg3 & Hst3); [lia|].
    rewrite (bind_ok _ _ _ _ _ Hg3). unfold lift_result. rewrite Hsel.
    exists t3. split; [reflexivity | exact Hst3].
  - cbn zeta in Hsel. case_decide as Hr; [|discriminate].
    apply rbind_inv_ok in Hsel. destruct Hsel as (r' & Hw & Hsel).
    case_decide as Hr'; [|discriminate].
    destruct (tget_entry N v a o t2 base b INDIRECTION_COLUMN Hst2 Hb)
      as (t3 & Hg3 & Hst3); [unfold INDIRECTION_COLUMN; lia|].
    rewrite (bind_ok _ _ _ _ _ Hg3).
    assert (Hnc3 : num_columns t3 = num_columns t).
    { destruct Hst as (_ & _ & _ & _ & Ho), Hst3 as (_ & _ & _ & _ & Ho3).
      apply outside_pool_num_columns. congruence. }
    destruct (tget_entry N v a o t3 tail _ SCHEMA_ENCODING_COLUMN Hst3 Hr)
      as (t4 & Hg4 & Hst4); [unfold SCHEMA_ENCODING_COLUMN; lia|].
    rewrite (bind_ok _ _ _ _ _ Hg4).
    destruct (walk_chain_spec N v a o fuel f _ _ r' t4 Hst4 Hw) as (t5 & Hg5 & Hst5).
    rewrite (bind_ok _ _ _ _ _ Hg5).
    assert (Hnc5 : num_columns t5 = num_columns t).
    { destruct Hst as (_ & _ & _ & _ & Ho), Hst5 as (_ & _ & _ & _ & Ho5).
      apply outside_pool_num_columns. congruence. }
    destruct (tget_entry N v a o t5 tail r' (f + NUM_INTERNAL_COLUMN) Hst5 Hr')
      as (t6 & Hg6 & Hst6); [lia|].
    rewrite (bind_ok _ _ _ _ _ Hg6). unfold lift_result. rewrite Hsel.
    exists t6. split; [reflexivity | exact Hst6].
Qed.

(** * Further properties of the engine *)

(** ** Fresh files and the pool over them *)

Lemma fresh_disk_empty n fk f : fresh_disk n !! fk = Some f -> f = [].
Proof.
  unfold fresh_disk. intros H. apply elem_of_list_to_map_2 in H.
  apply list_elem_of_In, in_flat_map in H. destruct H as (c & _ & Hin).
  destruct Hin as [Hin|[Hin|[]]]; congruence.
Qed.

Lemma py_range_elem n i : 0 <= i < n -> i ∈ py_range n.
Proof.
  intros Hi. unfold py_range. apply list_elem_of_fmap. exists (Z.to_nat i).
  split; [lia|]. apply elem_of_seq. lia.
Qed.

Lemma elem_py_range n i : i ∈ py_range n -> 0 <= i < n.
Proof.
  unfold py_range. intros H. apply list_elem_of_fmap in H. destruct H as (j & -> & Hj).
  apply elem_of_seq in Hj. lia.
Qed.

Lemma fresh_disk_file n rt col :
  0 <= col < n + NUM_INTERNAL_COLUMN -> fresh_disk n !! (rt, col) = Some [].
Proof.
  intros Hc. destruct (fresh_disk n !! (rt, col)) as [f|] eqn:Hf.
  - rewrite (fresh_disk_empty _ _ _ Hf). reflexivity.
  - exfalso. unfold fresh_disk in Hf. apply not_elem_of_list_to_map in Hf. apply Hf.
    apply list_elem_of_fmap. exists ((rt, col), []). split; [reflexivity|].
    apply list_elem_of_In, in_flat_map. exists col. split.
    + apply list_elem_of_In, py_range_elem. exact Hc.
    + destruct rt; [left | right; left]; reflexivity.
Qed.

Lemma counter_word_fresh_page rt :
  counter_word (fresh_page rt) = match rt with base => 2 | tail => 1 end.
Proof. destruct rt; vm_compute; reflexivity. Qed.

Lemma disk_page_fresh n k : disk_page (fresh_disk n) k = fresh_page k.1.1.
Proof.
  unfold disk_page. destruct (fresh_disk n !! (k.1.1, k.2)) as [f|] eqn:Hf; [|reflexivity].
  rewrite (fresh_disk_empty _ _ _ Hf). rewrite decide_False; [reflexivity|].
  cbn [length]. change (Z.of_nat 0 / PAGESIZE) with 0. lia.
Qed.

(** An empty pool over fresh files is coherent. *)
Lemma wfx_fresh sz lb lt n :
  1 <= sz -> wfx 2 [] (mkCache sz [] lb lt (fresh_world n)).
Proof.
  intros Hsz. constructor; cbn [size cache world fresh_world disk objects].
  - exact Hsz.
  - constructor.
  - constructor.
  - constructor.
  - intros fk f Hf. rewrite (fresh_disk_empty _ _ _ Hf). reflexivity.
  - intros k. rewrite disk_page_fresh, counter_word_fresh_page. destruct k.1.1; lia.
  - intros kx lx Hin. apply elem_of_nil in Hin. contradiction.
Qed.

(** ** Words of the logical pages *)

Lemma pv_length N c k : wfx N [] c -> Z.of_nat (length (pv c k)) = PAGESIZE.
Proof.
  intros Hwf. unfold pv. pose proof (content_length N [] c k Hwf) as Hl.
  rewrite mask_counter_length; [exact Hl|]. unfold PAGESIZE in Hl. lia.
Qed.

Lemma rd_wr_same v rt col rid d p o :
  unpack_II rid = Ok (p, o) -> 0 <= o -> o + WORDSIZE <= Z.of_nat (length (v (rt, p, col))) ->
  Z.of_nat (length d) = WORDSIZE ->
  rd (wr v rt col rid d) rt col rid = d.
Proof.
  intros Hu Ho Hl Hd. unfold rd, wr. rewrite Hu. rewrite decide_True by reflexivity.
  rewrite <- Hd. apply getslice_setslice_same; lia.
Qed.

Lemma rd_wr_other v rt col rid d rt' col' rid' p o p' o' :
  unpack_II rid = Ok (p, o) -> unpack_II rid' = Ok (p', o') ->
  0 <= o -> o + WORDSIZE <= Z.of_nat (length (v (rt, p, col))) ->
  0 <= o' -> o' + WORDSIZE <= Z.of_nat (length (v (rt, p, col))) ->
  Z.of_nat (length d) = WORDSIZE ->
  (rt', p', col') <> (rt, p, col) \/ o' + WORDSIZE <= o \/ o + WORDSIZE <= o' ->
  rd (wr v rt col rid d) rt' col' rid' = rd v rt' col' rid'.
Proof.
  intros Hu Hu' Ho Hl Ho' Hl' Hd Hne. unfold rd, wr. rewrite Hu, Hu'.
  case_decide as Hk; [|reflexivity].
  destruct Hne as [Hne|Hne]; [contradiction|]. rewrite Hk.
  rewrite <- Hd. apply getslice_setslice_other; lia.
Qed.

(** ** [cache.py]: reading back what was written *)

(** X1: a word written with [Cache.set_entry] is the word [Cache.get_entry]
    returns for the same record and column, whatever the pool evicted in
    between, and the words of the other records are the ones that were
    there before the write. *)
Theorem get_entry_after_set_entry N c rt rid col d (app : bool) p o :
  wfx N [] c -> unpack_II rid = Ok (p, o) ->
  8 <= o <= PAGESIZE - WORDSIZE ->
  is_Some (disk (world c) !! (rt, col)) ->
  Z.of_nat (length d) = WORDSIZE ->
  (app = true -> N + 1 < 2 ^ 64) ->
  exists c1 c2,
    Cache_set_entry rt rid col (Some d) app c = (Ok tt, c1) /\
    Cache_get_entry rt rid col c1 = (Ok d, c2) /\
    (forall rt' rid' col' p' o',
       unpack_II rid' = Ok (p', o') -> 8 <= o' <= PAGESIZE - WORDSIZE ->
       is_Some (disk (world c) !! (rt', col')) ->
       (rt', p', col') <> (rt, p, col) \/ o' + WORDSIZE <= o \/ o + WORDSIZE <= o' ->
       fst (Cache_get_entry rt' rid' col' c1) = fst (Cache_get_entry rt' rid' col' c)).
Proof.
  intros Hwf Hu Ho Hfile Hd HN.
  assert (HW : WORDSIZE = 8) by reflexivity.
  assert (HP : PAGESIZE = 4096) by reflexivity.
  destruct (Cache_set_entry_data_spec N rt rid col d app c p o Hwf Hu Hfile Ho Hd HN)
    as (c1 & pg & Hset & Hwf1 & _ & Hpv & (_ & _ & Hext)).
  set (N1 := if app then N + 1 else N) in *.
  destruct (Cache_get_entry_spec N1 [] rt rid col c1 p o Hwf1 Hu (not_pinned_nil _)
              (disk_ext_is_Some _ _ _ Hext Hfile) Ho) as (c2 & Hget & _).
  exists c1, c2. split; [exact Hset|]. split.
  - rewrite Hget. f_equal. f_equal.
    rewrite (rd_ext _ (wr (pv c) rt col rid d)) by exact Hpv.
    apply (rd_wr_same _ _ _ _ _ p o Hu); [lia | | exact Hd].
    rewrite (pv_length N c _ Hwf). lia.
  - intros rt' rid' col' p' o' Hu' Ho' Hfile' Hne.
    destruct (Cache_get_entry_spec N1 [] rt' rid' col' c1 p' o' Hwf1 Hu' (not_pinned_nil _)
                (disk_ext_is_Some _ _ _ Hext Hfile') Ho') as (c3 & Hget' & _).
    destruct (Cache_get_entry_spec N [] rt' rid' col' c p' o' Hwf Hu' (not_pinned_nil _)
                Hfile' Ho') as (c4 & Hget0 & _).
    rewrite Hget', Hget0. cbn [fst]. f_equal.
    rewrite (rd_ext _ (wr (pv c) rt col rid d)) by exact Hpv.
    apply (rd_wr_other _ _ _ _ _ _ _ _ p o p' o' Hu Hu'); try lia; try exact Hd;
      try (rewrite (pv_length N c _ Hwf); lia).
    destruct Hne as [Hne|Hne]; [left; exact Hne | right; lia].
Qed.

Lemma get_entry_after_set_entry_witness :
  exists c1 c2,
    Cache_set_entry tail rid_0_8 0 (Some (le_split 8 7)) false one_page_cache
      = (Ok tt, c1) /\
    Cache_get_entry tail rid_0_8 0 c1 = (Ok (le_split 8 7), c2).
Proof.
  destruct (get_entry_after_set_entry 2 one_page_cache tail rid_0_8 0 (le_split 8 7)
              false 0 8) as (c1 & c2 & H1 & H2 & _).
  - apply wfx_fresh. lia.
  - vm_compute. reflexivity.
  - unfold PAGESIZE, WORDSIZE. lia.
  - cbn [one_page_cache world fresh_world disk].
    rewrite fresh_disk_file by (unfold NUM_INTERNAL_COLUMN; lia). eexists. reflexivity.
  - reflexivity.
  - discriminate.
  - exists c1, c2. split; assumption.
Defined.

(** X2: a read through the pool leaves every page as it was: after
    [Cache.get_entry] or [Cache.get_page], with a result or with an
    exception, the pool is coherent again, every page (cached or in its
    file) holds the bytes it held past its counter word, and the allocator
    has not moved, though the read may have evicted and written back other
    pages. *)
Theorem reads_keep_pages N c :
  wfx N [] c ->
  (forall rt rid col,
     wfx N [] (snd (Cache_get_entry rt rid col c)) /\
     (forall k, pv (snd (Cache_get_entry rt rid col c)) k = pv c k) /\
     cache_meta (snd (Cache_get_entry rt rid col c)) = cache_meta c) /\
  (forall rt p col, 0 <= p ->
     wfx N [] (snd (Cache_get_page rt p col c)) /\
     (forall k, pv (snd (Cache_get_page rt p col c)) k = pv c k) /\
     cache_meta (snd (Cache_get_page rt p col c)) = cache_meta c).
Proof.
  intros Hwf. split.
  - intros rt rid col.
    destruct (Cache_get_entry_reads N rt rid col c Hwf) as (H1 & H2 & (_ & _ & H3 & _)).
    split; [exact H1 | split; [exact H2 | exact H3]].
  - intros rt p col Hp.
    destruct (Cache_get_page_reads N rt p col Hp c Hwf) as (H1 & H2 & (_ & _ & H3 & _)).
    split; [exact H1 | split; [exact H2 | exact H3]].
Qed.

Lemma reads_keep_pages_witness :
  pv (snd (Cache_get_entry tail rid_0_8 0 one_page_cache)) (tail, 0, 0)
    = pv one_page_cache (tail, 0, 0).
Proof.
  destruct (reads_keep_pages 2 one_page_cache) as [H _]; [apply wfx_fresh; lia|].
  exact (proj1 (proj2 (H tail rid_0_8 0)) (tail, 0, 0)).
Defined.

(** ** [cache.py]: the size of the pool *)

(** The pool holds no more pages than its size. *)
Definition pool_fits (c : Cache) : Prop :=
  1 <= size c /\ Z.of_nat (length (cache c)) <= size c.

Definition fits_after (c c' : Cache) : Prop := pool_fits c -> pool_fits c'.

#[global] Instance fits_after_refl : Reflexive fits_after.
Proof. intros c H. exact H. Qed.

#[global] Instance fits_after_trans : Transitive fits_after.
Proof. intros c1 c2 c3 H1 H2 H. apply H2, H1, H. Qed.

Section OrderedDictLength.
Context {K V : Type} `{EqDecision K}.
Implicit Types (d : list (K * V)) (k : K) (v : V).




End OrderedDictLength.







(** ** [cache.py]: the RID allocator *)

Lemma Cache_get_new_rid_next rt c p o :
  unpack_II (last_rid c rt) = Ok (p, o) -> o < PAGESIZE -> p + 1 < 2 ^ 32 ->
  exists r p' o',
    Cache_get_new_rid rt c = (Ok r, set_last_rid rt r c) /\
    unpack_II r = Ok (p', o') /\
    WORDSIZE <= o' <= PAGESIZE - WORDSIZE /\ o' mod WORDSIZE = 0 /\
    ((p' = p /\ o < o') \/
     (p' = p + 1 /\ PAGESIZE - WORDSIZE <= o /\
      o' = match rt with base => 2 | tail => 1 end * WORDSIZE)).
Proof.
  intros Hu Ho Hp.
  assert (HW : WORDSIZE = 8) by reflexivity.
  assert (HP : PAGESIZE = 4096) by reflexivity.
  destruct (unpack_II_bounds _ _ _ Hu) as [Hp0 Ho0].
  pose proof (Z.div_mod o 8 ltac:(lia)) as Hdm.
  pose proof (Z.mod_pos_bound o 8 ltac:(lia)) as Hmb.
  unfold Cache_get_new_rid. rewrite bind_gets. rewrite (bind_lift_ok _ _ _ _ Hu).
  cbn [fst snd]. change (PAGESIZE `div` WORDSIZE) with 512. rewrite HW.
  destruct (decide (o `div` 8 + 1 = 512)) as [Hfull|Hroom]; cbn [fst snd].
  - set (s := match rt with base => 2 | tail => 1 end).
    assert (Hs : 1 <= s <= 2) by (unfold s; destruct rt; lia).
    assert (Hpk : pack_II (p + 1) (s * 8) = Ok (le_split 4 (p + 1) ++ le_split 4 (s * 8))).
    { unfold pack_II. rewrite decide_True by lia. reflexivity. }
    rewrite (bind_lift_ok _ _ _ _ Hpk).
    eexists _, (p + 1), (s * 8). split; [reflexivity|].
    split; [apply unpack_pack_II; exact Hpk|].
    split; [lia|]. split; [apply Z.mod_mul; lia|]. right. lia.
  - assert (Hpk : pack_II p ((o `div` 8 + 1) * 8)
                  = Ok (le_split 4 p ++ le_split 4 ((o `div` 8 + 1) * 8))).
    { unfold pack_II. rewrite decide_True by lia. reflexivity. }
    rewrite (bind_lift_ok _ _ _ _ Hpk).
    eexists _, p, ((o `div` 8 + 1) * 8). split; [reflexivity|].
    split; [apply unpack_pack_II; exact Hpk|].
    split; [lia|]. split; [apply Z.mod_mul; lia|]. left. lia.
Qed.

(** X4: [Cache.get_new_rid] hands out the slot after the last RID
    [(p, o)] of its range and stores it as the last RID: offset
    [(o // 8 + 1) * 8] of page [p], or, when that is the end of the page
    ([o // 8 + 1 = 512]), the first record slot of page [p + 1] (word 2 of
    a base page, word 1 of a tail page); [p + 1] and [o + 8] fit 32 bits.
    The new offset is a whole number of words; in the same page it is past
    [o] by at most one word.  It is a record slot of the page (8 to 4088)
    when [o] is below the page size, and lies past the page when [o] is
    not: from the offset 4096 that [get_last_rids] gives for a full last
    page, the RID handed out has offset 4104. *)
Theorem get_new_rid_next_slot rt c p o :
  unpack_II (last_rid c rt) = Ok (p, o) -> p + 1 < 2 ^ 32 -> o + WORDSIZE < 2 ^ 32 ->
  exists r p' o',
    Cache_get_new_rid rt c = (Ok r, set_last_rid rt r c) /\
    unpack_II r = Ok (p', o') /\
    (p', o') = (if decide (o / WORDSIZE + 1 = PAGESIZE / WORDSIZE)
                then (p + 1, match rt with base => 2 | tail => 1 end * WORDSIZE)
                else (p, (o / WORDSIZE + 1) * WORDSIZE)) /\
    o' mod WORDSIZE = 0 /\
    (p' = p -> o < o' <= o + WORDSIZE) /\
    (o < PAGESIZE -> WORDSIZE <= o' <= PAGESIZE - WORDSIZE) /\
    (PAGESIZE <= o -> p' = p /\ PAGESIZE < o').
Proof.
  intros Hu Hp Ho.
  assert (HW : WORDSIZE = 8) by reflexivity.
  assert (HP : PAGESIZE = 4096) by reflexivity.
  destruct (unpack_II_bounds _ _ _ Hu) as [Hp0 Ho0].
  pose proof (Z.div_mod o 8 ltac:(lia)) as Hdm.
  pose proof (Z.mod_pos_bound o 8 ltac:(lia)) as Hmb.
  unfold Cache_get_new_rid. rewrite bind_gets. rewrite (bind_lift_ok _ _ _ _ Hu).
  cbn [fst snd]. change (PAGESIZE `div` WORDSIZE) with 512. rewrite HW in *.
  destruct (decide (o `div` 8 + 1 = 512)) as [Hfull|Hroom]; cbn [fst snd].
  - set (s := match rt with base => 2 | tail => 1 end).
    assert (Hs : 1 <= s <= 2) by (unfold s; destruct rt; lia).
    assert (Hpk : pack_II (p + 1) (s * 8) = Ok (le_split 4 (p + 1) ++ le_split 4 (s * 8))).
    { unfold pack_II. rewrite decide_True by lia. reflexivity. }
    rewrite (bind_lift_ok _ _ _ _ Hpk).
    eexists _, (p + 1), (s * 8). split; [reflexivity|].
    split; [apply unpack_pack_II; exact Hpk|]. split; [reflexivity|].
    split; [apply Z.mod_mul; lia|]. split; [lia|]. split; lia.
  - assert (Hpk : pack_II p ((o `div` 8 + 1) * 8)
                  = Ok (le_split 4 p ++ le_split 4 ((o `div` 8 + 1) * 8))).
    { unfold pack_II. rewrite decide_True by lia. reflexivity. }
    rewrite (bind_lift_ok _ _ _ _ Hpk).
    eexists _, p, ((o `div` 8 + 1) * 8). split; [reflexivity|].
    split; [apply unpack_pack_II; exact Hpk|]. split; [reflexivity|].
    split; [apply Z.mod_mul; lia|]. split; [lia|]. split; lia.
Qed.

(** A pool over the files of a table whose last tail page is full:
    [get_last_rids] gives the offset 4096 for it. *)
Definition full_page_cache : Cache :=
  mkCache 1 [] (le_split 4 0 ++ le_split 4 8) (le_split 4 0 ++ le_split 4 4096)
    (fresh_world 1).

Lemma get_new_rid_next_slot_witness :
  (exists r, Cache_get_new_rid tail one_page_cache
             = (Ok r, set_last_rid tail r one_page_cache) /\
             unpack_II r = Ok (0, 8)) /\
  (exists r, Cache_get_new_rid tail full_page_cache
             = (Ok r, set_last_rid tail r full_page_cache) /\
             unpack_II r = Ok (0, 4104)).
Proof.
  split.
  - destruct (get_new_rid_next_slot tail one_page_cache 0 0)
      as (r & p' & o' & Hr & Hu & Heq & _).
    + vm_compute. reflexivity.
    + lia.
    + unfold WORDSIZE. lia.
    + exists r. split; [exact Hr|]. rewrite Hu. f_equal. rewrite Heq.
      vm_compute. reflexivity.
  - destruct (get_new_rid_next_slot tail full_page_cache 0 4096)
      as (r & p' & o' & Hr & Hu & Heq & _).
    + vm_compute. reflexivity.
    + lia.
    + unfold WORDSIZE. lia.
    + exists r. split; [exact Hr|]. rewrite Hu. f_equal. rewrite Heq.
      vm_compute. reflexivity.
Defined.

(** ** [disk_helper.py]: pages in their files *)

(** X5: a page written with [DiskHelper.write_page] is the page
    [DiskHelper.read_page] reads back from the same place, in a new
    [bytearray] and with the counter of its word 0; the other pages of the
    files are as they were. *)
Theorem read_page_after_write_page rt i col (p : Page) (w : World) (f : bytes) :
  disk w !! (rt, col) = Some f -> files_whole (disk w) ->
  0 <= i < Z.of_nat (length f) / PAGESIZE ->
  Z.of_nat (length (buffer (objects w) p)) = PAGESIZE ->
  exists w1 l w2,
    DiskHelper_write_page rt i col p w = (Ok tt, w1) /\
    DiskHelper_read_page rt i col w1
      = (Ok (mkPage l (counter_word (buffer (objects w) p))), w2) /\
    objects w2 !! l = Some (buffer (objects w) p) /\
    (length (objects w) <= l)%nat /\
    (forall k, k <> (rt, i, col) -> disk_page (disk w2) k = disk_page (disk w) k).
Proof.
  intros Hf Hw Hi Hl.
  destruct (write_page_spec rt i col p w f Hf Hw Hi Hl)
    as (w1 & Hwr & Hobj & Hw1 & Hdp & Hext & Hsame).
  destruct (proj1 Hext _ _ Hf) as (f1 & Hf1 & Hlen1).
  destruct (read_page_spec rt i col w1 f1 Hf1 Hw1 (proj1 Hi))
    as (l & w2 & Hrd & Hl2 & Hnew & _ & _ & Hdp2 & _).
  rewrite (Hdp (rt, i, col)) in Hrd, Hl2. rewrite decide_True in Hrd, Hl2 by reflexivity.
  exists w1, l, w2. split; [exact Hwr|]. split; [exact Hrd|]. split; [exact Hl2|].
  split; [rewrite <- Hobj; exact Hnew|].
  intros k Hk. rewrite Hdp2, Hdp. rewrite decide_False by exact Hk. reflexivity.
Qed.

Lemma read_page_after_write_page_witness :
  exists pg w w1 l w2,
    DiskHelper_read_page tail 0 0 (fresh_world 1) = (Ok pg, w) /\
    DiskHelper_write_page tail 0 0 pg w = (Ok tt, w1) /\
    DiskHelper_read_page tail 0 0 w1
      = (Ok (mkPage l (counter_word (buffer (objects w) pg))), w2).
Proof.
  assert (Hf0 : disk (fresh_world 1) !! (tail, 0) = Some []).
  { cbn [fresh_world disk]. apply fresh_disk_file. unfold NUM_INTERNAL_COLUMN. lia. }
  assert (Hw0 : files_whole (disk (fresh_world 1))).
  { intros fk f Hf. cbn [fresh_world disk] in Hf.
    rewrite (fresh_disk_empty _ _ _ Hf). reflexivity. }
  destruct (read_page_spec tail 0 0 (fresh_world 1) [] Hf0 Hw0 ltac:(lia))
    as (l0 & w & Hrd & Hl0 & _ & _ & Hw & _ & (f' & Hf' & Hi) & _).
  destruct (read_page_after_write_page tail 0 0
              (mkPage l0 (counter_word (disk_page (disk (fresh_world 1)) (tail, 0, 0))))
              w f' Hf' Hw ltac:(lia))
    as (w1 & l & w2 & H1 & H2 & _).
  - unfold buffer. cbn [data]. rewrite Hl0. cbn [default].
    apply disk_page_length. exact Hw0.
  - eexists _, w, w1, l, w2. split; [exact Hrd|]. split; [exact H1 | exact H2].
Defined.

(** X6: reading a page past the end of its file does not fail: the file
    is grown by [page_index + 1] fresh pages (however few were missing)
    and the page read is a fresh page of the range, with counter 2 for a
    base page and 1 for a tail page; two [bytearray]s are created on the
    way.  Writing a page past the end raises and leaves everything as it
    was. *)
Theorem read_page_past_the_end rt i col (w : World) (f : bytes) :
  disk w !! (rt, col) = Some f -> Z.of_nat (length f) mod PAGESIZE = 0 ->
  Z.of_nat (length f) / PAGESIZE <= i ->
  DiskHelper_read_page rt i col w =
    (Ok (mkPage (S (length (objects w))) (match rt with base => 2 | tail => 1 end)),
     mkWorld (objects w ++ [fresh_page rt; fresh_page rt])
       (<[(rt, col) := f ++ mjoin (replicate (Z.to_nat (i + 1)) (fresh_page rt))]>
          (disk w))) /\
  forall p, DiskHelper_write_page rt i col p w = (Err OutOfBounds, w).
Proof.
  intros Hf Hm Hge.
  assert (HP : PAGESIZE = 4096) by reflexivity.
  assert (Hq0 : 0 <= Z.of_nat (length f) / PAGESIZE) by (apply Z.div_pos; lia).
  split.
  - unfold DiskHelper_read_page. unfold bind at 1.
    unfold DiskHelper__open_file at 1. rewrite Hf.
    destruct w as [h d]. cbn [objects disk] in *.
    rewrite decide_True by lia.
    unfold bind at 1. unfold bind at 1.
    unfold in_heap at 1, zoom. cbn [objects].
    rewrite Page_init_fresh. unfold bind at 1.
    unfold in_heap at 1, zoom, deref. cbn [objects set_objects data disk].
    rewrite lookup_app_r by lia. rewrite Nat.sub_diag. cbn [lookup list_lookup default].
    unfold store_file, modify. cbn [set_disk disk objects].
    unfold bind at 1. unfold DiskHelper__open_file.
    unfold set_objects, set_disk, id. cbn [objects disk].
    rewrite lookup_insert_eq.
    set (f' := f ++ mjoin (replicate (Z.to_nat (i + 1)) (fresh_page rt))).
    assert (Hpg : file_read f' (i * PAGESIZE) PAGESIZE = fresh_page rt).
    { unfold f'. rewrite file_read_grown by (try apply fresh_page_length; lia).
      rewrite decide_False by lia. rewrite decide_True by lia. reflexivity. }
    unfold in_heap, zoom. unfold set_objects. cbn [objects disk].
    rewrite Page_init_bytes by (rewrite Hpg; apply fresh_page_length).
    rewrite Hpg, counter_word_fresh_page.
    rewrite length_app. cbn [length]. rewrite Nat.add_1_r.
    rewrite <- app_assoc. reflexivity.
  - intros p. unfold DiskHelper_write_page. unfold bind at 1.
    unfold DiskHelper__open_file. rewrite Hf. rewrite decide_True by lia. reflexivity.
Qed.

Lemma read_page_past_the_end_witness :
  fst (DiskHelper_read_page base 2 0 (fresh_world 1)) = Ok (mkPage 1 2) /\
  disk (snd (DiskHelper_read_page base 2 0 (fresh_world 1))) !! (base, 0)
    = Some (fresh_page base ++ fresh_page base ++ fresh_page base).
Proof.
  destruct (read_page_past_the_end base 2 0 (fresh_world 1) []) as [H _].
  - cbn [fresh_world disk]. apply fresh_disk_file. unfold NUM_INTERNAL_COLUMN. lia.
  - reflexivity.
  - cbn [length]. change (Z.of_nat 0 / PAGESIZE) with 0. lia.
  - rewrite H. cbn [fst snd disk]. split; [reflexivity|].
    rewrite lookup_insert_eq. change (Z.to_nat (2 + 1)) with 3%nat.
    cbn [replicate mjoin list_join app]. rewrite app_nil_r. reflexivity.
Defined.

(** ** [table.py]: a table over fresh files *)

Lemma Table_init_fresh_table CACHE_SIZE n k :
  1 <= CACHE_SIZE -> 0 <= k < n ->
  exists t,
    Table_init CACHE_SIZE n k (fresh_world n) = Ok t /\
    key_index t = k /\ num_columns t = n /\
    index t = mkIndex n (<[Z.to_nat k := true]> (replicate (Z.to_nat n) false))
                (replicate (Z.to_nat n) []) k /\
    (forall key, fst (Index_locate key k (index t)) = Ok None) /\
    merge_queue_matrix t = replicate (Z.to_nat n) [[]] /\
    unpack_II (last_rid_base (t_cache t)) = Ok (0, 8) /\
    unpack_II (last_rid_tail (t_cache t)) = Ok (0, 0) /\
    cache (t_cache t) = [] /\
    wfx 2 [] (t_cache t) /\ files_for t.
Proof.
  intros HC Hk.
  assert (Hfile : forall rt, disk (fresh_world n) !! (rt, 0) = Some []).
  { intros rt. cbn [fresh_world disk]. apply fresh_disk_file.
    unfold NUM_INTERNAL_COLUMN. lia. }
  assert (Hlast : forall rt, last_rid_of rt (fresh_world n) =
            (pack_II 0 (match rt with base => 8 | tail => 0 end), fresh_world n)).
  { intros rt. unfold last_rid_of. unfold bind at 1. unfold DiskHelper__open_file.
    rewrite Hfile. cbn [length].
    rewrite (decide_False (P := Z.of_nat 0 mod PAGESIZE <> 0))
      by (intros H; apply H; reflexivity).
    rewrite (decide_True (P := Z.of_nat 0 = 0)) by reflexivity. reflexivity. }
  unfold Table_init, Index_init, py_set. rewrite length_replicate.
  rewrite (decide_False (P := k < 0)) by lia.
  rewrite decide_True by lia. cbn [rbind].
  unfold Cache_init, DiskHelper_get_last_rids.
  unfold bind at 1. rewrite (Hlast base).
  change (pack_II 0 8) with (Ok (le_split 4 0 ++ le_split 4 8) : result bytes).
  unfold bind at 1. rewrite (Hlast tail).
  change (pack_II 0 0) with (Ok (le_split 4 0 ++ le_split 4 0) : result bytes).
  cbn [ret rbind fst snd]. unfold ret. cbn [rbind].
  eexists. split; [reflexivity|]. cbn [key_index num_columns index merge_queue_matrix
    t_cache last_rid_base last_rid_tail cache].
  split; [reflexivity|]. split; [reflexivity|]. split; [reflexivity|].
  split.
  { intros key. unfold Index_locate. rewrite !bind_gets. cbn [index_created map_list].
    assert (Hc : py_nth (<[Z.to_nat k := true]> (replicate (Z.to_nat n) false)) k = Ok true).
    { apply py_nth_lookup; [lia|]. apply list_lookup_insert_eq.
      rewrite length_replicate. lia. }
    rewrite (bind_lift_ok _ _ _ _ Hc). cbn [negb]. rewrite bind_gets.
    assert (Hm : py_nth (replicate (Z.to_nat n) ([] : index_map)) k = Ok []).
    { apply py_nth_lookup; [lia|]. apply lookup_replicate_2. lia. }
    rewrite (bind_lift_ok _ _ _ _ Hm). reflexivity. }
  split; [reflexivity|].
  split; [vm_compute; reflexivity|]. split; [vm_compute; reflexivity|].
  split; [reflexivity|]. split; [apply wfx_fresh; exact HC|].
  split; cbn [num_columns t_cache world fresh_world disk]; [lia|].
  intros rt col Hcol. rewrite fresh_disk_file by exact Hcol. eexists. reflexivity.
Qed.

(** X7: [Table.__init__] over the empty files [create_table] leaves
    succeeds for a key column of the table and a pool of at least one
    page: the index exists for the key column only and holds no key, there
    is one empty merge queue per column, the allocators stand before the
    first record slot of page 0, and the pool is empty and coherent over
    files that exist for every column. *)
Theorem Table_init_fresh CACHE_SIZE n k :
  1 <= CACHE_SIZE -> 0 <= k < n ->
  exists t,
    Table_init CACHE_SIZE n k (fresh_world n) = Ok t /\
    key_index t = k /\ num_columns t = n /\
    index t = mkIndex n (<[Z.to_nat k := true]> (replicate (Z.to_nat n) false))
                (replicate (Z.to_nat n) []) k /\
    (forall key, fst (Index_locate key k (index t)) = Ok None) /\
    merge_queue_matrix t = replicate (Z.to_nat n) [[]] /\
    unpack_II (last_rid_base (t_cache t)) = Ok (0, 8) /\
    unpack_II (last_rid_tail (t_cache t)) = Ok (0, 0) /\
    cache (t_cache t) = [] /\
    wfx 2 [] (t_cache t) /\ files_for t.
Proof. exact (Table_init_fresh_table CACHE_SIZE n k). Qed.

Lemma Table_init_fresh_witness :
  exists t, Table_init 16 3 0 (fresh_world 3) = Ok t /\ wfx 2 [] (t_cache t) /\
            files_for t.
Proof.
  destruct (Table_init_fresh 16 3 0) as (t & Ht & H); [lia | lia |].
  exists t. split; [exact Ht|].
  destruct H as (_ & _ & _ & _ & _ & _ & _ & _ & Hw & Hf). split; assumption.
Defined.

(** ** [index.py]: inserting, deleting and locating keys *)

(** An index whose two lists have one entry per column. *)
Definition index_shape (ix : Index) : Prop :=
  Z.of_nat (length (index_created ix)) = num_features ix /\
  Z.of_nat (length (map_list ix)) = num_features ix.

Lemma put_bucket_run fi key rids ix m :
  0 <= fi -> map_list ix !! Z.to_nat fi = Some m ->
  put_bucket fi key rids ix =
  (Ok tt, set_map_list (<[Z.to_nat fi := od_set m key rids]> (map_list ix)) ix).
Proof.
  intros Hfi Hm. unfold put_bucket. rewrite bind_gets.
  rewrite (bind_lift_ok _ _ _ _ (py_nth_lookup _ _ _ Hfi Hm)).
  pose proof (lookup_lt_Some _ _ _ Hm) as Hlt.
  unfold py_set. rewrite (decide_False (P := fi < 0)) by lia.
  rewrite decide_True by lia. reflexivity.
Qed.

Lemma del_bucket_run fi key ix m :
  0 <= fi -> map_list ix !! Z.to_nat fi = Some m ->
  del_bucket fi key ix =
  match od_get m key with
  | None => (Err KeyError, ix)
  | Some _ => (Ok tt, set_map_list (<[Z.to_nat fi := od_del m key]> (map_list ix)) ix)
  end.
Proof.
  intros Hfi Hm. unfold del_bucket. rewrite bind_gets.
  rewrite (bind_lift_ok _ _ _ _ (py_nth_lookup _ _ _ Hfi Hm)).
  destruct (od_get m key); [|reflexivity].
  pose proof (lookup_lt_Some _ _ _ Hm) as Hlt.
  unfold py_set. rewrite (decide_False (P := fi < 0)) by lia.
  rewrite decide_True by lia. reflexivity.
Qed.

Lemma Index_locate_run key fi ix (b : bool) m :
  0 <= fi -> index_created ix !! Z.to_nat fi = Some b ->
  map_list ix !! Z.to_nat fi = Some m ->
  Index_locate key fi ix =
  (if b then
     match od_get m (Some key) with
     | None => Ok None
     | Some ans => if decide (length ans = 0%nat) then Ok None else Ok (Some ans)
     end
   else Err NotIndexed, ix).
Proof.
  intros Hfi Hc Hm. unfold Index_locate. rewrite bind_gets.
  rewrite (bind_lift_ok _ _ _ _ (py_nth_lookup _ _ _ Hfi Hc)).
  destruct b; cbn [negb]; [|reflexivity].
  rewrite bind_gets. rewrite (bind_lift_ok _ _ _ _ (py_nth_lookup _ _ _ Hfi Hm)).
  destruct (od_get m (Some key)) as [ans|]; [|reflexivity].
  case_decide; reflexivity.
Qed.

(** A loop over [enumerate(l)] that keeps an invariant indexed by the
    number of rounds. *)
Lemma for_each_enumerate_from {St A} (I : nat -> St -> Prop) (l : list A)
    (body : Z * A -> M St unit) (n : nat) s :
  I n s ->
  (forall i x s1, l !! i = Some x -> I (n + i)%nat s1 ->
     exists s2, body (Z.of_nat (n + i)%nat, x) s1 = (Ok tt, s2) /\ I (S (n + i)%nat) s2) ->
  exists s', for_each (zip (Z.of_nat <$> seq n (length l)) l) body s = (Ok tt, s') /\
             I (n + length l)%nat s'.
Proof.
  revert n s. induction l as [|x l IH]; intros n s H0 Hstep.
  - exists s. split; [reflexivity|]. rewrite Nat.add_0_r. exact H0.
  - cbn [length seq fmap list_fmap zip zip_with for_each].
    destruct (Hstep 0%nat x s eq_refl) as (s2 & Hb & H2); [rewrite Nat.add_0_r; exact H0|].
    rewrite Nat.add_0_r in Hb, H2. rewrite (bind_ok _ _ _ _ _ Hb).
    destruct (IH (S n) s2 H2) as (s' & Hrun & HI).
    + intros i y s1 Hy HI1.
      destruct (Hstep (S i) y s1 Hy) as (s3 & Hb3 & H3).
      * replace (n + S i)%nat with (S n + i)%nat by lia. exact HI1.
      * exists s3. replace (S n + i)%nat with (n + S i)%nat by lia. split; assumption.
    + exists s'. split; [exact Hrun|].
      replace (n + S (length l))%nat with (S n + length l)%nat by lia. exact HI.
Qed.

Lemma for_each_enumerate_inv {St A} (I : nat -> St -> Prop) (l : list A)
    (body : Z * A -> M St unit) s :
  I 0%nat s ->
  (forall i x s1, l !! i = Some x -> I i s1 ->
     exists s2, body (Z.of_nat i, x) s1 = (Ok tt, s2) /\ I (S i) s2) ->
  exists s', for_each (enumerate l) body s = (Ok tt, s') /\ I (length l) s'.
Proof.
  intros H0 Hstep. apply (for_each_enumerate_from I l body 0 s H0).
  intros i x s1 Hx HI. apply (Hstep i x s1 Hx HI).
Qed.

Lemma Index_map_insert_new_key (r : Record_) (ix : Index) (k : Z) (m : index_map) :
  index_shape ix ->
  Z.of_nat (length (columns r)) = num_features ix ->
  0 <= primary_key_index ix ->
  columns r !! Z.to_nat (primary_key_index ix) = Some (Some k) ->
  index_created ix !! Z.to_nat (primary_key_index ix) = Some true ->
  map_list ix !! Z.to_nat (primary_key_index ix) = Some m ->
  od_get m (Some k) = None ->
  exists ix',
    Index_map_insert r ix = (Ok tt, ix') /\
    fst (Index_locate k (primary_key_index ix) ix') = Ok (Some [rid r]) /\
    (forall k', k' <> k ->
       fst (Index_locate k' (primary_key_index ix) ix')
       = fst (Index_locate k' (primary_key_index ix) ix)) /\
    index_created ix' = index_created ix /\ index_shape ix' /\
    num_features ix' = num_features ix /\
    primary_key_index ix' = primary_key_index ix /\
    map_list ix' !! Z.to_nat (primary_key_index ix) = Some (od_set m (Some k) [rid r]).
Proof.
  intros [Hsc Hsm] Hlen Hpk Hkey Hcr Hm Hfresh.
  set (pk := Z.to_nat (primary_key_index ix)) in *.
  set (I := fun (i : nat) (ix1 : Index) =>
    index_created ix1 = index_created ix /\
    num_features ix1 = num_features ix /\
    primary_key_index ix1 = primary_key_index ix /\
    length (map_list ix1) = length (map_list ix) /\
    (forall j, (i <= j)%nat -> map_list ix1 !! j = map_list ix !! j) /\
    ((pk < i)%nat -> map_list ix1 !! pk = Some (od_set m (Some k) [rid r]))).
  unfold Index_map_insert. rewrite bind_gets.
  rewrite (decide_False (P := Z.of_nat (length (columns r)) <> num_features ix))
    by (intros H; apply H; exact Hlen).
  destruct (for_each_enumerate_inv I (columns r)
    (fun '(feature_index, new_key) =>
      created <- gets index_created ;;
      is_created <- lift_result (py_nth created feature_index) ;;
      if negb is_created then ret tt
      else
        pk <- gets primary_key_index ;;
        ml <- gets map_list ;;
        m <- lift_result (py_nth ml feature_index) ;;
        if decide (feature_index = pk) then
          match od_get m new_key with
          | Some _ => raise DuplicateKey
          | None => put_bucket feature_index new_key [rid r]
          end
        else
          match od_get m new_key with
          | Some rids => put_bucket feature_index new_key (rids ++ [rid r])
          | None => put_bucket feature_index new_key [rid r]
          end) ix) as (ix' & Hrun & HI).
  { unfold I. repeat split; try reflexivity. intros Hlt. lia. }
  { intros i x ix1 Hx (Hc1 & Hn1 & Hp1 & Hl1 & Hge1 & Hdone1).
    pose proof (lookup_lt_Some _ _ _ Hx) as Hi.
    assert (Hic : (i < length (index_created ix))%nat) by lia.
    destruct (lookup_lt_is_Some_2 _ _ Hic) as [b Hb].
    assert (Him : (i < length (map_list ix1))%nat) by lia.
    destruct (lookup_lt_is_Some_2 _ _ Him) as [mi Hmi].
    rewrite bind_gets. rewrite Hc1.
    rewrite (bind_lift_ok _ _ b).
    2:{ apply py_nth_lookup; [lia|]. rewrite Nat2Z.id. exact Hb. }
    destruct b; cbn [negb].
    2:{ exists ix1. split; [reflexivity|]. unfold I.
        repeat split; try assumption.
        - intros j Hj. apply Hge1. lia.
        - intros Hlt. destruct (decide (pk = i)) as [->|Hne].
          + rewrite Hb in Hcr. discriminate.
          + apply Hdone1. lia. }
    rewrite !bind_gets. rewrite (bind_lift_ok _ _ mi).
    2:{ apply py_nth_lookup; [lia|]. rewrite Nat2Z.id. exact Hmi. }
    assert (Hput : forall rids,
      exists s2, put_bucket (Z.of_nat i) x rids ix1 = (Ok tt, s2) /\
                 index_created s2 = index_created ix /\
                 num_features s2 = num_features ix /\
                 primary_key_index s2 = primary_key_index ix /\
                 length (map_list s2) = length (map_list ix) /\
                 map_list s2 = <[i := od_set mi x rids]> (map_list ix1)).
    { intros rids. eexists. split.
      - apply put_bucket_run; [lia|]. rewrite Nat2Z.id. exact Hmi.
      - rewrite Nat2Z.id. cbn [set_map_list index_created num_features
          primary_key_index map_list]. rewrite length_insert.
        repeat split; assumption. }
    assert (Hfin : forall rids s2,
      index_created s2 = index_created ix /\
      num_features s2 = num_features ix /\
      primary_key_index s2 = primary_key_index ix /\
      length (map_list s2) = length (map_list ix) /\
      map_list s2 = <[i := od_set mi x rids]> (map_list ix1) ->
      (i = pk -> x = Some k /\ mi = m /\ rids = [rid r]) ->
      I (S i) s2).
    { intros rids s2 (Hc2 & Hn2 & Hp2 & Hl2 & Hml2) Hat. unfold I.
      repeat split; try assumption.
      - intros j Hj. rewrite Hml2. rewrite list_lookup_insert_ne by lia.
        apply Hge1. lia.
      - intros Hlt. rewrite Hml2. destruct (decide (i = pk)) as [Heq|Hne].
        + destruct (Hat Heq) as (-> & -> & ->). rewrite Heq.
          apply list_lookup_insert_eq. lia.
        + rewrite list_lookup_insert_ne by exact Hne. apply Hdone1. lia. }
    rewrite Hp1.
    destruct (decide (Z.of_nat i = primary_key_index ix)) as [Heq|Hne].
    - assert (Hipk : i = pk) by (unfold pk; lia).
      assert (Hx' : x = Some k) by (rewrite Hipk in Hx; congruence).
      assert (Hmi' : mi = m).
      { rewrite Hipk in Hmi. rewrite Hge1 in Hmi by lia. congruence. }
      subst x mi. rewrite Hfresh.
      destruct (Hput [rid r]) as (s2 & Hs2 & Hrest).
      exists s2. split; [exact Hs2|]. apply (Hfin [rid r] s2 Hrest). auto.
    - assert (Hipk : i <> pk) by (unfold pk; lia).
      destruct (od_get mi x) as [rids|].
      + destruct (Hput (rids ++ [rid r])) as (s2 & Hs2 & Hrest).
        exists s2. split; [exact Hs2|]. apply (Hfin _ s2 Hrest). intros; contradiction.
      + destruct (Hput [rid r]) as (s2 & Hs2 & Hrest).
        exists s2. split; [exact Hs2|]. apply (Hfin _ s2 Hrest). intros; contradiction. }
  destruct HI as (Hc' & Hn' & Hp' & Hl' & _ & Hdone).
  assert (Hpklt : (pk < length (columns r))%nat) by (apply (lookup_lt_Some _ _ _ Hkey)).
  specialize (Hdone Hpklt).
  exists ix'. split; [exact Hrun|].
  assert (Hcr' : index_created ix' !! pk = Some true) by (rewrite Hc'; exact Hcr).
  split; [|split; [|split]].
  - rewrite (Index_locate_run k _ ix' true _ Hpk Hcr' Hdone). cbn [fst].
    rewrite od_get_set_eq. rewrite decide_False by (cbn; lia). reflexivity.
  - intros k' Hne.
    rewrite (Index_locate_run k' _ ix' true _ Hpk Hcr' Hdone).
    rewrite (Index_locate_run k' _ ix true _ Hpk Hcr Hm). cbn [fst].
    rewrite od_get_set_ne by congruence. reflexivity.
  - exact Hc'.
  - split; [split; [rewrite Hc', Hn'; exact Hsc | rewrite Hl', Hn'; exact Hsm]|].
    split; [exact Hn'|]. split; [exact Hp' | exact Hdone].
Qed.

(** X8: [Index.map_insert] of a record whose primary key is new succeeds
    on an index with one entry per column, whatever other columns are
    indexed; afterwards [Index.locate] finds exactly the RID of the record
    under that key in the key column, the other keys of the key column
    are located as before, and the same columns are indexed. *)
Theorem locate_after_map_insert (r : Record_) (ix : Index) (k : Z) (m : index_map) :
  index_shape ix ->
  Z.of_nat (length (columns r)) = num_features ix ->
  0 <= primary_key_index ix ->
  columns r !! Z.to_nat (primary_key_index ix) = Some (Some k) ->
  index_created ix !! Z.to_nat (primary_key_index ix) = Some true ->
  map_list ix !! Z.to_nat (primary_key_index ix) = Some m ->
  od_get m (Some k) = None ->
  exists ix',
    Index_map_insert r ix = (Ok tt, ix') /\
    fst (Index_locate k (primary_key_index ix) ix') = Ok (Some [rid r]) /\
    (forall k', k' <> k ->
       fst (Index_locate k' (primary_key_index ix) ix')
       = fst (Index_locate k' (primary_key_index ix) ix)) /\
    index_created ix' = index_created ix /\ index_shape ix'.
Proof.
  intros H1 H2 H3 H4 H5 H6 H7.
  destruct (Index_map_insert_new_key r ix k m H1 H2 H3 H4 H5 H6 H7)
    as (ix' & Ha & Hb & Hc & Hd & He & _).
  exists ix'. split; [exact Ha|]. split; [exact Hb|]. split; [exact Hc|].
  split; [exact Hd | exact He].
Qed.

(** The index of a three-column table keyed on column 0 that holds the
    key 1. *)
Definition index_with_key_1 : Index := index table_with_key_1.

Lemma locate_after_map_insert_witness :
  exists ix',
    Index_map_insert (mkRecord rid_0_8 2 [Some 2; Some 20; Some 200] base)
      index_with_key_1 = (Ok tt, ix') /\
    fst (Index_locate 2 0 ix') = Ok (Some [rid_0_8]).
Proof.
  assert (Hm : exists m, map_list index_with_key_1 !! 0%nat = Some m /\
                         od_get m (Some 2) = None)
    by (eexists; split; vm_compute; reflexivity).
  destruct Hm as (m & Hm & Hn).
  destruct (locate_after_map_insert
              (mkRecord rid_0_8 2 [Some 2; Some 20; Some 200] base)
              index_with_key_1 2 m) as (ix' & H1 & H2 & _).
  - split; vm_compute; reflexivity.
  - vm_compute. reflexivity.
  - vm_compute. discriminate.
  - vm_compute. reflexivity.
  - vm_compute. reflexivity.
  - exact Hm.
  - exact Hn.
  - exists ix'. split; [exact H1 | exact H2].
Defined.

(** X9: [Index.map_delete] of a key of the key column removes it:
    [Index.locate] then returns [None] for that key and what it returned
    before for the other keys.  Deleting a key that is not in the index
    raises [KeyError] and leaves the index as it was. *)
Theorem locate_after_map_delete (ix : Index) (k : Z) (m : index_map) :
  0 <= primary_key_index ix ->
  index_created ix !! Z.to_nat (primary_key_index ix) = Some true ->
  map_list ix !! Z.to_nat (primary_key_index ix) = Some m ->
  (od_get m (Some k) = None -> Index_map_delete k ix = (Err KeyError, ix)) /\
  (od_get m (Some k) <> None ->
   exists ix',
     Index_map_delete k ix = (Ok tt, ix') /\
     fst (Index_locate k (primary_key_index ix) ix') = Ok None /\
     (forall k', k' <> k ->
        fst (Index_locate k' (primary_key_index ix) ix')
        = fst (Index_locate k' (primary_key_index ix) ix))).
Proof.
  intros Hpk Hcr Hm.
  pose proof (lookup_lt_Some _ _ _ Hm) as Hlt.
  unfold Index_map_delete. rewrite bind_gets.
  rewrite (del_bucket_run _ (Some k) ix m Hpk Hm). split.
  - intros Hn. rewrite Hn. reflexivity.
  - intros Hs. destruct (od_get m (Some k)) as [rids|] eqn:Hg; [|contradiction].
    eexists. split; [reflexivity|].
    set (ix' := set_map_list _ ix).
    assert (Hcr' : index_created ix' !! Z.to_nat (primary_key_index ix) = Some true)
      by exact Hcr.
    assert (Hm' : map_list ix' !! Z.to_nat (primary_key_index ix)
                  = Some (od_del m (Some k))).
    { unfold ix'. cbn [set_map_list map_list]. apply list_lookup_insert_eq. exact Hlt. }
    split.
    + rewrite (Index_locate_run k _ ix' true _ Hpk Hcr' Hm'). cbn [fst].
      rewrite od_get_del_eq. reflexivity.
    + intros k' Hne.
      rewrite (Index_locate_run k' _ ix' true _ Hpk Hcr' Hm').
      rewrite (Index_locate_run k' _ ix true _ Hpk Hcr Hm). cbn [fst].
      rewrite od_get_del_ne by congruence. reflexivity.
Qed.

Lemma locate_after_map_delete_witness :
  (exists ix', Index_map_delete 1 index_with_key_1 = (Ok tt, ix') /\
               fst (Index_locate 1 0 ix') = Ok None) /\
  Index_map_delete 2 index_with_key_1 = (Err KeyError, index_with_key_1).
Proof.
  assert (Hm : exists m, map_list index_with_key_1 !! 0%nat = Some m /\
                         od_get m (Some 1) <> None /\ od_get m (Some 2) = None).
  { eexists. split; [vm_compute; reflexivity|].
    split; [vm_compute; discriminate | vm_compute; reflexivity]. }
  destruct Hm as (m & Hm & Hs & Hn).
  split.
  - destruct (locate_after_map_delete index_with_key_1 1 m) as [_ H];
      [vm_compute; discriminate | vm_compute; reflexivity | exact Hm |].
    destruct (H Hs) as (ix' & H1 & H2 & _). exists ix'. split; assumption.
  - destruct (locate_after_map_delete index_with_key_1 2 m) as [H _];
      [vm_compute; discriminate | vm_compute; reflexivity | exact Hm |].
    apply H. exact Hn.
Defined.

Lemma bind_modify {S B} (g : S -> S) (k : unit -> M S B) s :
  bind (modify g) k s = k tt (g s).
Proof. reflexivity. Qed.

(** X10: after [Index.drop_index] of a column, [Index.locate] on that
    column raises the error of a column without index, whatever the key,
    and the other columns are located as before. *)
Theorem locate_after_drop_index (ix : Index) (col : Z) :
  0 <= col < Z.of_nat (length (index_created ix)) ->
  col < Z.of_nat (length (map_list ix)) ->
  exists ix',
    Index_drop_index col ix = (Ok tt, ix') /\
    (forall key, Index_locate key col ix' = (Err NotIndexed, ix')) /\
    (forall key col', 0 <= col' -> col' <> col ->
       fst (Index_locate key col' ix') = fst (Index_locate key col' ix)).
Proof.
  intros Hc Hm. unfold Index_drop_index. rewrite bind_gets.
  assert (H1 : py_set (index_created ix) col false
               = Ok (<[Z.to_nat col := false]> (index_created ix))).
  { unfold py_set. rewrite (decide_False (P := col < 0)) by lia.
    rewrite decide_True by lia. reflexivity. }
  rewrite (bind_lift_ok _ _ _ _ H1). rewrite bind_modify. rewrite bind_gets.
  cbn [set_index_created map_list].
  assert (H2 : py_set (map_list ix) col ([] : index_map)
               = Ok (<[Z.to_nat col := []]> (map_list ix))).
  { unfold py_set. rewrite (decide_False (P := col < 0)) by lia.
    rewrite decide_True by lia. reflexivity. }
  rewrite (bind_lift_ok _ _ _ _ H2). unfold modify.
  eexists. split; [reflexivity|].
  set (ix' := set_map_list _ _).
  assert (Hc' : index_created ix' = <[Z.to_nat col := false]> (index_created ix))
    by reflexivity.
  assert (Hm' : map_list ix' = <[Z.to_nat col := []]> (map_list ix)) by reflexivity.
  split.
  - intros key. unfold Index_locate. rewrite bind_gets.
    rewrite (bind_lift_ok _ _ false); [reflexivity|].
    apply py_nth_lookup; [lia|]. rewrite Hc'. apply list_lookup_insert_eq. lia.
  - intros key col' Hcol' Hne. unfold Index_locate. rewrite !bind_gets.
    assert (Hn1 : py_nth (index_created ix') col' = py_nth (index_created ix) col').
    { unfold py_nth. rewrite Hc', length_insert.
      rewrite !(decide_False (P := col' < 0)) by lia.
      rewrite list_lookup_insert_ne by lia. reflexivity. }
    assert (Hn2 : py_nth (map_list ix') col' = py_nth (map_list ix) col').
    { unfold py_nth. rewrite Hm', length_insert.
      rewrite !(decide_False (P := col' < 0)) by lia.
      rewrite list_lookup_insert_ne by lia. reflexivity. }
    unfold bind, lift_result, gets. cbn [fst snd]. rewrite Hn1.
    destruct (py_nth (index_created ix) col') as [[]|]; cbn [negb fst]; try reflexivity.
    rewrite Hn2. destruct (py_nth (map_list ix) col') as [m|]; cbn [fst]; [|reflexivity].
    destruct (od_get m (Some key)) as [ans|]; [|reflexivity].
    case_decide; reflexivity.
Qed.

Lemma locate_after_drop_index_witness :
  exists ix',
    Index_drop_index 0 index_with_key_1 = (Ok tt, ix') /\
    Index_locate 1 0 ix' = (Err NotIndexed, ix').
Proof.
  destruct (locate_after_drop_index index_with_key_1 0) as (ix' & H1 & H2 & _).
  - vm_compute. split; [discriminate | reflexivity].
  - vm_compute. reflexivity.
  - exists ix'. split; [exact H1 | apply H2].
Defined.

(** ** [query.py]: a select only reads *)

Lemma sample_table_cache :
  t_cache sample_table =
  mkCache 16 [] (le_split 4 0 ++ le_split 4 8) (le_split 4 0 ++ le_split 4 0)
    (fresh_world 3).
Proof. vm_compute. reflexivity. Qed.

Lemma sample_table_wfx : wfx 2 [] (t_cache sample_table).
Proof. rewrite sample_table_cache. apply wfx_fresh. lia. Qed.

(** X11: [Query.select] only reads: whatever it returns or raises, and
    whatever pages its reads evicted and wrote back, the pool is coherent
    again, every page holds the bytes it held past its counter word, and
    the allocator, the index, the merge queues and the rest of the table
    are as they were. *)
Theorem select_leaves_the_table N fuel key ki mask t :
  wfx N [] (t_cache t) ->
  wfx N [] (t_cache (snd (Query_select fuel key ki mask t))) /\
  (forall k, pv (t_cache (snd (Query_select fuel key ki mask t))) k
             = pv (t_cache t) k) /\
  cache_meta (t_cache (snd (Query_select fuel key ki mask t)))
    = cache_meta (t_cache t) /\
  outside_pool (snd (Query_select fuel key ki mask t)) = outside_pool t.
Proof.
  intros Hwf.
  destruct (Query_select_reads N fuel key ki mask t) as [Hout Hread].
  destruct (Hread Hwf) as (Hwf' & Hpv & (_ & _ & Hmeta & _)).
  split; [exact Hwf'|]. split; [exact Hpv|]. split; [exact Hmeta | exact Hout].
Qed.

(** ** [transaction.py]: a transaction that does not get its locks *)

(** The table but for its lock manager. *)
Definition table_data (t : Table) :=
  (key_index t, num_columns t, index t, t_cache t,
   (merge_queue_matrix t, merge_counter t, closed t, merge_trigger t)).

Definition same_data : Transaction * Table -> Transaction * Table -> Prop :=
  same (fun s => table_data s.2).

Lemma in_txn_same_data {A} (m : M Transaction A) : keeps same_data (in_txn m).
Proof. apply keeps_zoom. intros s x. reflexivity. Qed.

Lemma in_lock_manager_same_data {A} (m : M LockManager A) :
  keeps same_data (in_table (in_lock_manager m)).
Proof.
  apply (keeps_zoom_in _ (same table_data)).
  - intros s t' H. exact H.
  - apply keeps_zoom. intros t lm. reflexivity.
Qed.

Lemma query_locks_same_data q : keeps same_data (in_table (query_locks q)).
Proof.
  apply (keeps_zoom_in _ (same table_data)).
  - intros s t' H. exact H.
  - intros t. rewrite query_locks_pure. reflexivity.
Qed.

Lemma Transaction_preprocessing_same_data : keeps same_data Transaction_preprocessing.
Proof.
  unfold Transaction_preprocessing, preprocessing_step.
  repeat first [ apply in_txn_same_data | apply query_locks_same_data | keeps_step ].
Qed.

Lemma Transaction_abort_same_data : keeps same_data Transaction_abort.
Proof.
  unfold Transaction_abort, Transaction_release_locks.
  repeat first [ apply in_txn_same_data | apply in_lock_manager_same_data | keeps_step ].
Qed.

Lemma acquire_loop_same_data wanted : keeps same_data (acquire_loop wanted).
Proof.
  induction wanted as [|[pkey kind] wanted IH]; cbn [acquire_loop].
  - keeps_step.
  - keeps_step; [apply in_lock_manager_same_data|].
    keeps_step; [|apply Transaction_abort_same_data].
    keeps_step; [apply in_txn_same_data | exact IH].
Qed.

Lemma Transaction_acquire_locks_same_data : keeps same_data Transaction_acquire_locks.
Proof.
  unfold Transaction_acquire_locks.
  keeps_step; [apply in_txn_same_data | apply acquire_loop_same_data].
Qed.

(** X12: a transaction whose [run] returns 0 has run none of its queries:
    the transaction is marked aborted, and the table (its pages, its
    allocator, its index, its merge queues) is as it was before the call;
    only the lock manager may differ. *)
Theorem run_returning_0_ran_nothing MERGE_EPOCH fuel now x t x' t' :
  Transaction_run MERGE_EPOCH fuel now (x, t) = (Ok 0, (x', t')) ->
  table_data t' = table_data t /\ aborted x' = true.
Proof.
  intros H. unfold Transaction_run in H.
  apply bind_inv_ok in H. destruct H as (u1 & s1 & Hpre & H).
  apply bind_inv_ok in H. destruct H as (u2 & s2 & Hacq & H).
  pose proof (Transaction_preprocessing_same_data (x, t)) as K1.
  rewrite Hpre in K1. cbn [snd] in K1.
  pose proof (Transaction_acquire_locks_same_data s1) as K2.
  rewrite Hacq in K2. cbn [snd] in K2.
  unfold same_data, same in K1, K2. cbn [snd] in K1.
  destruct s2 as [x2 t2]. cbn [snd] in K2.
  unfold bind at 1 in H. unfold in_txn at 1, zoom, gets in H. cbn [fst snd] in H.
  destruct (aborted x2) eqn:Hab.
  - unfold ret in H. assert (x' = x2 /\ t' = t2) as [-> ->] by (split; congruence).
    split; [congruence | exact Hab].
  - exfalso.
    apply bind_inv_ok in H. destruct H as (qs & s3 & _ & H).
    apply bind_inv_ok in H. destruct H as (u4 & s4 & _ & H).
    apply bind_inv_ok in H. destruct H as (u5 & s5 & _ & H).
    unfold ret in H. assert (E : (1 : Z) = 0) by congruence. discriminate E.
Qed.

(** The table holding key 1, with the lock of key 1 held by a writer. *)
Definition table_locked_1 : Table :=
  set_lock_manager [(1, (0%nat, true))] table_with_key_1.

Lemma run_returning_0_ran_nothing_witness :
  exists x' t',
    Transaction_run 2 8 0
      (transaction_of [q_update 1 [None; Some 11; None]], table_locked_1)
      = (Ok 0, (x', t')) /\
    table_data t' = table_data table_locked_1 /\ aborted x' = true.
Proof.
  assert (H : exists x' t',
             Transaction_run 2 8 0
               (transaction_of [q_update 1 [None; Some 11; None]], table_locked_1)
             = (Ok 0, (x', t')))
    by (eexists _, _; vm_compute; reflexivity).
  destruct H as (x' & t' & H). exists x', t'. split; [exact H|].
  exact (run_returning_0_ran_nothing 2 8 0 _ _ _ _ H).
Defined.


(** ** [table.py]: the words of a record *)

(** The word [Cache.get_entry] reads for a record of the table. *)
Definition entry (t : Table) (rt : range_type) (rid : bytes) (col : Z) : result bytes :=
  fst (Cache_get_entry rt rid col (t_cache t)).

Lemma entry_rd N v a o t rt rid col :
  tstate N v a o t -> rid_ok rid -> 0 <= col < num_columns t + NUM_INTERNAL_COLUMN ->
  entry t rt rid col = Ok (rd v rt col rid).
Proof.
  intros Hst Hrid Hcol.
  destruct (tget_entry N v a o t rt rid col Hst Hrid Hcol) as (t' & Hg & _).
  unfold entry. unfold in_cache, zoom in Hg.
  destruct (Cache_get_entry rt rid col (t_cache t)) as [res c']. cbn [fst].
  congruence.
Qed.

Lemma tstate_num_columns N v a o t N' v' a' t' :
  tstate N v a o t -> tstate N' v' a' o t' -> num_columns t' = num_columns t.
Proof.
  intros (_ & _ & _ & _ & Ho) (_ & _ & _ & _ & Ho').
  apply outside_pool_num_columns. congruence.
Qed.

Lemma tstate_pages N v a o t k : tstate N v a o t -> Z.of_nat (length (v k)) = PAGESIZE.
Proof. intros (Hwf & _ & Hv & _). rewrite <- Hv. apply (pv_length N). exact Hwf. Qed.

Lemma tstate_intro N t :
  wfx N [] (t_cache t) -> files_for t ->
  tstate N (pv (t_cache t)) (cache_meta (t_cache t)) (outside_pool t) t.
Proof. intros Hwf Hf. split; [exact Hwf|]. split; [exact Hf|]. repeat split. Qed.

(** A word written into a page whose slot is inside it. *)
Lemma wr_length v rt col rid d p o k :
  unpack_II rid = Ok (p, o) -> 0 <= o -> Z.of_nat (length d) = WORDSIZE ->
  o + WORDSIZE <= Z.of_nat (length (v (rt, p, col))) ->
  length (wr v rt col rid d k) = length (v k).
Proof.
  intros Hu Ho Hd Hl. unfold wr. rewrite Hu. case_decide as Hk; [|reflexivity].
  subst k. rewrite <- Hd. apply setslice_in_length; lia.
Qed.

(** The words of another place are not touched. *)
Lemma wr_slice_other v rt col rid d p o k o' :
  unpack_II rid = Ok (p, o) -> 0 <= o -> Z.of_nat (length d) = WORDSIZE ->
  o + WORDSIZE <= Z.of_nat (length (v (rt, p, col))) ->
  0 <= o' -> o' + WORDSIZE <= Z.of_nat (length (v k)) ->
  k <> (rt, p, col) \/ o' + WORDSIZE <= o \/ o + WORDSIZE <= o' ->
  getslice (wr v rt col rid d k) o' (o' + WORDSIZE) = getslice (v k) o' (o' + WORDSIZE).
Proof.
  intros Hu Ho Hd Hl Ho' Hl' Hne. unfold wr. rewrite Hu.
  case_decide as Hk; [|reflexivity]. subst k.
  destruct Hne as [Hne|Hne]; [contradiction|].
  rewrite <- Hd. apply getslice_setslice_other; lia.
Qed.

Lemma wr_slice_same v rt col rid d p o :
  unpack_II rid = Ok (p, o) -> 0 <= o -> Z.of_nat (length d) = WORDSIZE ->
  o + WORDSIZE <= Z.of_nat (length (v (rt, p, col))) ->
  getslice (wr v rt col rid d (rt, p, col)) o (o + WORDSIZE) = d.
Proof.
  intros Hu Ho Hd Hl. unfold wr. rewrite Hu. rewrite decide_True by reflexivity.
  rewrite <- Hd. apply getslice_setslice_same; lia.
Qed.

(** The logical pages after the loop of [insert_record] over the user
    columns: the word of every column that has a value. *)
Fixpoint write_columns_v (v : page_key -> bytes) (rt : range_type) (rid : bytes)
    (l : list (Z * option Z)) : page_key -> bytes :=
  match l with
  | [] => v
  | (i, Some x) :: l' =>
      write_columns_v (wr v rt (i + NUM_INTERNAL_COLUMN) rid (le_split 8 x)) rt rid l'
  | (i, None) :: l' => write_columns_v v rt rid l'
  end.

(** The logical pages after [Table.insert_record]. *)
Definition insert_record_v (v : page_key -> bytes) (now : Z) (r : Record_)
  : page_key -> bytes :=
  let rt := rec_range_type r in
  write_columns_v
    (wr (wr (wr v rt RID_COLUMN (rid r) (rid r)) rt INDIRECTION_COLUMN (rid r) INVALID_RID)
        rt TIMESTAMP_COLUMN (rid r) (le_split 8 now))
    rt (rid r) (enumerate (columns r)).

Section Slots.
Variables (rt : range_type) (rid : bytes) (p o : Z).
Hypothesis Hu : unpack_II rid = Ok (p, o).
Hypothesis Ho : 0 <= o <= PAGESIZE - WORDSIZE.

Definition whole (v : page_key -> bytes) : Prop :=
  forall k, Z.of_nat (length (v k)) = PAGESIZE.

Lemma wr_whole v col d :
  whole v -> Z.of_nat (length d) = WORDSIZE -> whole (wr v rt col rid d).
Proof.
  intros Hv Hd k. rewrite (wr_length v rt col rid d p o k Hu) by (rewrite ?Hv; lia).
  apply Hv.
Qed.

Lemma write_columns_whole v l : whole v -> whole (write_columns_v v rt rid l).
Proof.
  revert v. induction l as [|[i [x|]] l IH]; intros v Hv; cbn [write_columns_v].
  - exact Hv.
  - apply IH. apply wr_whole; [exact Hv|]. rewrite length_le_split. reflexivity.
  - apply IH. exact Hv.
Qed.

Lemma write_columns_other v l k o' :
  whole v -> 0 <= o' <= PAGESIZE - WORDSIZE ->
  (forall i x, (i, Some x) ∈ l -> k <> (rt, p, i + NUM_INTERNAL_COLUMN))
  \/ o' + WORDSIZE <= o \/ o + WORDSIZE <= o' ->
  getslice (write_columns_v v rt rid l k) o' (o' + WORDSIZE)
  = getslice (v k) o' (o' + WORDSIZE).
Proof.
  revert v. induction l as [|[i [x|]] l IH]; intros v Hv Ho' Hne; cbn [write_columns_v].
  - reflexivity.
  - rewrite IH.
    + apply (wr_slice_other v rt _ rid _ p o k o' Hu); rewrite ?Hv; try lia.
      * rewrite length_le_split. reflexivity.
      * destruct Hne as [Hne|Hne]; [left; apply (Hne i x); left | right; exact Hne].
    + apply wr_whole; [exact Hv|]. rewrite length_le_split. reflexivity.
    + exact Ho'.
    + destruct Hne as [Hne|Hne]; [left | right; exact Hne].
      intros j y Hin. apply (Hne j y). right. exact Hin.
  - apply IH; [exact Hv | exact Ho' |].
    destruct Hne as [Hne|Hne]; [left | right; exact Hne].
    intros j y Hin. apply (Hne j y). right. exact Hin.
Qed.

Lemma write_columns_same v l i x :
  whole v -> NoDup l.*1 -> (i, Some x) ∈ l ->
  getslice (write_columns_v v rt rid l (rt, p, i + NUM_INTERNAL_COLUMN)) o (o + WORDSIZE)
  = le_split 8 x.
Proof.
  revert v. induction l as [|[j y] l IH]; intros v Hv Hnd Hin.
  - apply elem_of_nil in Hin. contradiction.
  - cbn [fmap list_fmap fst] in Hnd. apply NoDup_cons in Hnd. destruct Hnd as [Hj Hnd].
    apply elem_of_cons in Hin. destruct Hin as [Heq|Hin].
    + injection Heq as <- <-. cbn [write_columns_v].
      rewrite write_columns_other.
      * apply (wr_slice_same v rt _ rid _ p o Hu); rewrite ?Hv; try lia.
        rewrite length_le_split. reflexivity.
      * apply wr_whole; [exact Hv|]. rewrite length_le_split. reflexivity.
      * exact Ho.
      * left. intros j y Hjy Heq. apply Hj. apply list_elem_of_fmap.
        exists (j, Some y). split; [|exact Hjy]. cbn [fst]. injection Heq as Heq. lia.
    + destruct y as [y|]; cbn [write_columns_v]; apply IH; try assumption.
      apply wr_whole; [exact Hv|]. rewrite length_le_split. reflexivity.
Qed.

End Slots.

Lemma enumerate_lookup {A} (l : list A) (i : nat) x :
  l !! i = Some x -> (Z.of_nat i, x) ∈ enumerate l.
Proof.
  intros Hx. rewrite (enumerate_split l i x Hx). apply elem_of_app. right. left.
Qed.

Lemma enumerate_keys {A} (l : list A) : (enumerate l).*1 = Z.of_nat <$> seq 0 (length l).
Proof.
  unfold enumerate. apply fst_zip. rewrite length_fmap, length_seq. lia.
Qed.

Lemma enumerate_NoDup {A} (l : list A) : NoDup (enumerate l).*1.
Proof.
  rewrite enumerate_keys. apply NoDup_fmap; [intros a b; lia | apply NoDup_seq].
Qed.

Lemma enumerate_elem {A} (l : list A) i x :
  (i, x) ∈ enumerate l -> 0 <= i /\ l !! Z.to_nat i = Some x.
Proof.
  unfold enumerate. intros Hin. apply list_elem_of_lookup in Hin.
  destruct Hin as (j & Hj). apply lookup_zip_with_Some in Hj.
  destruct Hj as (a & b & Heq & Ha & Hb). injection Heq as <- <-.
  rewrite list_lookup_fmap in Ha. destruct (seq 0 (length l) !! j) as [j'|] eqn:Hs; [|discriminate].
  cbn in Ha. injection Ha as <-. apply lookup_seq in Hs. destruct Hs as [-> _].
  split; [lia|]. cbn. rewrite Nat2Z.id. exact Hb.
Qed.

(** The values [pack('q', .)] takes. *)
Definition int64 (x : option Z) : Prop :=
  match x with
  | Some z => - 2 ^ 63 <= z < 2 ^ 63
  | None => True
  end.

(** The loop of [insert_record] over the user columns. *)
Lemma insert_columns_loop rt rid (l : list (option Z)) :
  forall (n : nat) N v a o t,
  tstate N v a o t -> rid_ok rid ->
  Z.of_nat (n + length l) <= num_columns t ->
  Forall int64 l -> N + Z.of_nat (length l) < 2 ^ 64 ->
  exists t',
    for_each (zip (Z.of_nat <$> seq n (length l)) l) (fun '(index, value) =>
      d <- match value with
           | Some v => w <- lift_result (pack_q v) ;; ret (Some w)
           | None => ret None
           end ;;
      in_cache (Cache_set_entry rt rid (index + NUM_INTERNAL_COLUMN) d true)) t
    = (Ok tt, t') /\
    tstate (N + Z.of_nat (length l))
      (write_columns_v v rt rid (zip (Z.of_nat <$> seq n (length l)) l)) a o t'.
Proof.
  assert (HC : NUM_INTERNAL_COLUMN = 4) by reflexivity.
  induction l as [|x l IH]; intros n N v a o t Hst Hrid Hn Hall HN.
  - exists t. split; [reflexivity|]. cbn [length]. rewrite Z.add_0_r. exact Hst.
  - cbn [length seq fmap list_fmap zip zip_with for_each write_columns_v].
    apply Forall_cons in Hall. destruct Hall as [Hx Hall].
    cbn [length] in Hn, HN.
    destruct x as [z|].
    + cbn [int64] in Hx.
      destruct (tset_entry_data N v a o t rt rid (Z.of_nat n + NUM_INTERNAL_COLUMN)
                  (le_split 8 z) true Hst Hrid) as (t1 & Hset & Hst1);
        [lia | rewrite length_le_split; reflexivity | intros _; lia |].
      assert (Hb : forall k : unit -> M Table unit,
                bind (bind (bind (lift_result (pack_q z)) (fun w => ret (Some w)))
                        (fun d => in_cache (Cache_set_entry rt rid
                                    (Z.of_nat n + NUM_INTERNAL_COLUMN) d true))) k t
                = k tt t1).
      { intros k. unfold pack_q. rewrite decide_True by exact Hx.
        apply (bind_ok _ _ _ _ _ Hset). }
      rewrite Hb.
      pose proof (tstate_num_columns _ _ _ _ _ _ _ _ _ Hst Hst1) as Hnc.
      destruct (IH (S n) (N + 1) _ a o t1 Hst1 Hrid) as (t' & Hloop & Hst');
        [lia | exact Hall | lia |].
      exists t'. split; [exact Hloop|].
      replace (N + Z.of_nat (S (length l))) with (N + 1 + Z.of_nat (length l)) by lia.
      exact Hst'.
    + destruct (tset_entry_nodata N v a o t rt rid (Z.of_nat n + NUM_INTERNAL_COLUMN)
                  true Hst Hrid) as (t1 & Hset & Hst1); [lia | intros _; lia |].
      assert (Hb : forall k : unit -> M Table unit,
                bind (bind (ret None)
                        (fun d => in_cache (Cache_set_entry rt rid
                                    (Z.of_nat n + NUM_INTERNAL_COLUMN) d true))) k t
                = k tt t1).
      { intros k. apply (bind_ok _ _ _ _ _ Hset). }
      rewrite Hb.
      pose proof (tstate_num_columns _ _ _ _ _ _ _ _ _ Hst Hst1) as Hnc.
      destruct (IH (S n) (N + 1) _ a o t1 Hst1 Hrid) as (t' & Hloop & Hst');
        [lia | exact Hall | lia |].
      exists t'. split; [exact Hloop|].
      replace (N + Z.of_nat (S (length l))) with (N + 1 + Z.of_nat (length l)) by lia.
      exact Hst'.
Qed.

Lemma rid_ok_length r : rid_ok r -> Z.of_nat (length r) = WORDSIZE.
Proof.
  unfold rid_ok, unpack_II. case_decide as Hl; [|contradiction].
  intros _. rewrite Hl. reflexivity.
Qed.

(** [Table.insert_record] over the logical pages. *)
Lemma Table_insert_record_spec N v a o t now r :
  tstate N v a o t -> rid_ok (rid r) ->
  Z.of_nat (length (columns r)) <= num_columns t ->
  0 <= now < 2 ^ 64 -> Forall int64 (columns r) ->
  N + 4 + Z.of_nat (length (columns r)) < 2 ^ 64 ->
  exists t',
    Table_insert_record now r t = (Ok tt, t') /\
    tstate (N + 4 + Z.of_nat (length (columns r))) (insert_record_v v now r) a o t'.
Proof.
  assert (HC : NUM_INTERNAL_COLUMN = 4) by reflexivity.
  intros Hst Hrid Hlen Hnow Hall HN.
  pose proof (tstate_columns _ _ _ _ _ Hst) as Hn0.
  unfold Table_insert_record, insert_record_v.
  set (rt := rec_range_type r).
  destruct (tset_entry_data N v a o t rt (rid r) RID_COLUMN (rid r) true Hst Hrid)
    as (t1 & H1 & Hst1);
    [unfold RID_COLUMN; lia | apply rid_ok_length; exact Hrid | intros _; lia |].
  rewrite (bind_ok _ _ _ _ _ H1).
  pose proof (tstate_num_columns _ _ _ _ _ _ _ _ _ Hst Hst1) as Hn1.
  destruct (tset_entry_data (N + 1) _ a o t1 rt (rid r) INDIRECTION_COLUMN INVALID_RID
              true Hst1 Hrid) as (t2 & H2 & Hst2);
    [unfold INDIRECTION_COLUMN; lia | reflexivity | intros _; lia |].
  rewrite (bind_ok _ _ _ _ _ H2).
  pose proof (tstate_num_columns _ _ _ _ _ _ _ _ _ Hst1 Hst2) as Hn2.
  destruct (tset_entry_nodata (N + 1 + 1) _ a o t2 rt (rid r) SCHEMA_ENCODING_COLUMN
              true Hst2 Hrid) as (t3 & H3 & Hst3);
    [unfold SCHEMA_ENCODING_COLUMN; lia | intros _; lia |].
  rewrite (bind_ok _ _ _ _ _ H3).
  pose proof (tstate_num_columns _ _ _ _ _ _ _ _ _ Hst2 Hst3) as Hn3.
  assert (Hpk : pack_Q now = Ok (le_split 8 now)).
  { unfold pack_Q. rewrite decide_True by exact Hnow. reflexivity. }
  rewrite (bind_lift_ok _ _ _ _ Hpk).
  destruct (tset_entry_data (N + 1 + 1 + 1) _ a o t3 rt (rid r) TIMESTAMP_COLUMN
              (le_split 8 now) true Hst3 Hrid) as (t4 & H4 & Hst4);
    [unfold TIMESTAMP_COLUMN; lia | rewrite length_le_split; reflexivity
     | intros _; lia |].
  rewrite (bind_ok _ _ _ _ _ H4).
  pose proof (tstate_num_columns _ _ _ _ _ _ _ _ _ Hst3 Hst4) as Hn4.
  destruct (insert_columns_loop rt (rid r) (columns r) 0 (N + 1 + 1 + 1 + 1) _ a o t4
              Hst4 Hrid) as (t' & Hloop & Hst'); [lia | exact Hall | lia |].
  exists t'. split; [exact Hloop|].
  replace (N + 4 + Z.of_nat (length (columns r)))
    with (N + 1 + 1 + 1 + 1 + Z.of_nat (length (columns r))) by lia.
  exact Hst'.
Qed.

(** The words of the record after [insert_record]. *)
Lemma insert_record_v_words v now r p o :
  whole v -> unpack_II (rid r) = Ok (p, o) -> 8 <= o <= PAGESIZE - WORDSIZE ->
  let rt := rec_range_type r in
  let v' := insert_record_v v now r in
  whole v' /\
  rd v' rt RID_COLUMN (rid r) = rid r /\
  rd v' rt INDIRECTION_COLUMN (rid r) = INVALID_RID /\
  rd v' rt TIMESTAMP_COLUMN (rid r) = le_split 8 now /\
  rd v' rt SCHEMA_ENCODING_COLUMN (rid r) = rd v rt SCHEMA_ENCODING_COLUMN (rid r) /\
  (forall (i : nat) z, columns r !! i = Some (Some z) ->
     rd v' rt (Z.of_nat i + NUM_INTERNAL_COLUMN) (rid r) = le_split 8 z) /\
  (forall (i : nat), columns r !! i = Some None ->
     rd v' rt (Z.of_nat i + NUM_INTERNAL_COLUMN) (rid r)
     = rd v rt (Z.of_nat i + NUM_INTERNAL_COLUMN) (rid r)) /\
  (forall k o', 0 <= o' <= PAGESIZE - WORDSIZE ->
     (k.1.1, k.1.2) <> (rt, p) \/ o' + WORDSIZE <= o \/ o + WORDSIZE <= o' ->
     getslice (v' k) o' (o' + WORDSIZE) = getslice (v k) o' (o' + WORDSIZE)).
Proof.
  assert (HC : NUM_INTERNAL_COLUMN = 4) by reflexivity.
  assert (HW : WORDSIZE = 8) by reflexivity.
  intros Hv Hu Ho rt v'.
  assert (Ho0 : 0 <= o <= PAGESIZE - WORDSIZE) by lia.
  assert (Hrl : Z.of_nat (length (rid r)) = WORDSIZE).
  { apply rid_ok_length. unfold rid_ok. rewrite Hu. exact Ho. }
  set (v1 := wr v rt RID_COLUMN (rid r) (rid r)).
  set (v2 := wr v1 rt INDIRECTION_COLUMN (rid r) INVALID_RID).
  set (v3 := wr v2 rt TIMESTAMP_COLUMN (rid r) (le_split 8 now)).
  assert (Hv1 : whole v1) by (apply (wr_whole rt (rid r) p o Hu Ho0); assumption).
  assert (Hv2 : whole v2) by (apply (wr_whole rt (rid r) p o Hu Ho0); [assumption | reflexivity]).
  assert (Hv3 : whole v3).
  { apply (wr_whole rt (rid r) p o Hu Ho0); [assumption|].
    rewrite length_le_split. reflexivity. }
  assert (Hv' : v' = write_columns_v v3 rt (rid r) (enumerate (columns r))) by reflexivity.
  (* a word of the three internal columns written: through the loop and
     the later writes *)
  assert (Hint : forall col, 0 <= col < NUM_INTERNAL_COLUMN ->
            getslice (v' (rt, p, col)) o (o + WORDSIZE)
            = getslice (v3 (rt, p, col)) o (o + WORDSIZE)).
  { intros col Hcol. rewrite Hv'.
    apply (write_columns_other rt (rid r) p o Hu Ho0); [exact Hv3 | exact Ho0 |].
    left. intros i x Hin Heq. apply enumerate_elem in Hin. destruct Hin as [Hi _].
    injection Heq as Heq. lia. }
  split; [rewrite Hv'; apply (write_columns_whole rt (rid r) p o Hu Ho0); exact Hv3|].
  split.
  { unfold rd. rewrite Hu. rewrite Hint by (unfold RID_COLUMN; lia).
    unfold v3. rewrite (wr_slice_other v2 rt _ (rid r) _ p o _ o Hu);
      rewrite ?Hv2; try lia;
      [|rewrite length_le_split; reflexivity | left; unfold RID_COLUMN, TIMESTAMP_COLUMN; congruence].
    unfold v2. rewrite (wr_slice_other v1 rt _ (rid r) _ p o _ o Hu);
      rewrite ?Hv1; try lia;
      [|reflexivity | left; unfold RID_COLUMN, INDIRECTION_COLUMN; congruence].
    unfold v1. apply (wr_slice_same v rt _ (rid r) _ p o Hu); rewrite ?Hv; lia. }
  split.
  { unfold rd. rewrite Hu. rewrite Hint by (unfold INDIRECTION_COLUMN; lia).
    unfold v3. rewrite (wr_slice_other v2 rt _ (rid r) _ p o _ o Hu);
      rewrite ?Hv2; try lia;
      [|rewrite length_le_split; reflexivity
       | left; unfold INDIRECTION_COLUMN, TIMESTAMP_COLUMN; congruence].
    unfold v2. apply (wr_slice_same v1 rt _ (rid r) _ p o Hu); rewrite ?Hv1; try lia.
    reflexivity. }
  split.
  { unfold rd. rewrite Hu. rewrite Hint by (unfold TIMESTAMP_COLUMN; lia).
    unfold v3. apply (wr_slice_same v2 rt _ (rid r) _ p o Hu); rewrite ?Hv2; try lia.
    rewrite length_le_split. reflexivity. }
  split.
  { unfold rd. rewrite Hu. rewrite Hint by (unfold SCHEMA_ENCODING_COLUMN; lia).
    unfold v3. rewrite (wr_slice_other v2 rt _ (rid r) _ p o _ o Hu);
      rewrite ?Hv2; try lia;
      [|rewrite length_le_split; reflexivity
       | left; unfold SCHEMA_ENCODING_COLUMN, TIMESTAMP_COLUMN; congruence].
    unfold v2. rewrite (wr_slice_other v1 rt _ (rid r) _ p o _ o Hu);
      rewrite ?Hv1; try lia;
      [|reflexivity | left; unfold SCHEMA_ENCODING_COLUMN, INDIRECTION_COLUMN; congruence].
    unfold v1. apply (wr_slice_other v rt _ (rid r) _ p o _ o Hu); rewrite ?Hv; try lia.
    left. unfold SCHEMA_ENCODING_COLUMN, RID_COLUMN. congruence. }
  assert (Huser : forall col, NUM_INTERNAL_COLUMN <= col ->
            getslice (v3 (rt, p, col)) o (o + WORDSIZE)
            = getslice (v (rt, p, col)) o (o + WORDSIZE)).
  { intros col Hcol.
    unfold v3. rewrite (wr_slice_other v2 rt _ (rid r) _ p o _ o Hu);
      rewrite ?Hv2; try lia;
      [|rewrite length_le_split; reflexivity
       | left; unfold TIMESTAMP_COLUMN; intros Heq; injection Heq as Heq; lia].
    unfold v2. rewrite (wr_slice_other v1 rt _ (rid r) _ p o _ o Hu);
      rewrite ?Hv1; try lia;
      [|reflexivity | left; unfold INDIRECTION_COLUMN; intros Heq; injection Heq as Heq; lia].
    unfold v1. apply (wr_slice_other v rt _ (rid r) _ p o _ o Hu); rewrite ?Hv; try lia.
    left. unfold RID_COLUMN. intros Heq. injection Heq as Heq. lia. }
  split.
  { intros i z Hi. unfold rd. rewrite Hu. rewrite Hv'.
    apply (write_columns_same rt (rid r) p o Hu Ho0); [exact Hv3 | apply enumerate_NoDup |].
    apply enumerate_lookup. exact Hi. }
  split.
  { intros i Hi. unfold rd. rewrite Hu. rewrite Hv'.
    rewrite (write_columns_other rt (rid r) p o Hu Ho0); [|exact Hv3 | exact Ho0 |].
    - apply Huser. lia.
    - left. intros j x Hin Heq. apply enumerate_elem in Hin. destruct Hin as [Hj Hjx].
      injection Heq as Heq. assert (j = Z.of_nat i) by lia. subst j.
      rewrite Nat2Z.id in Hjx. congruence. }
  intros k o' Ho' Hne. rewrite Hv'.
  assert (Hstep : forall (u : page_key -> bytes) col d,
            whole u -> Z.of_nat (length d) = WORDSIZE ->
            getslice (wr u rt col (rid r) d k) o' (o' + WORDSIZE)
            = getslice (u k) o' (o' + WORDSIZE)).
  { intros u col d Hw Hd.
    apply (wr_slice_other u rt col (rid r) d p o k o' Hu); rewrite ?Hw; try lia.
    destruct Hne as [Hne|Hne]; [left | right; exact Hne].
    intros ->. apply Hne. reflexivity. }
  rewrite (write_columns_other rt (rid r) p o Hu Ho0); [|exact Hv3 | exact Ho' |].
  - unfold v3. rewrite Hstep by (try assumption; rewrite length_le_split; reflexivity).
    unfold v2. rewrite Hstep by (try assumption; reflexivity).
    unfold v1. apply Hstep; assumption.
  - destruct Hne as [Hne|Hne]; [left | right; exact Hne].
    intros i x _ ->. apply Hne. reflexivity.
Qed.

(** X13: [Table.insert_record] of a record whose RID is a slot of a page
    (values in the range of [pack('q', .)], a clock in that of
    [pack('Q', .)]) succeeds over a coherent pool.  Afterwards
    [Cache.get_entry] reads the RID of the record in its RID column, the
    invalid RID in its indirection column, the clock in its timestamp
    column and every value in its column.  The schema word of the slot is
    not written: it is what the page held there, and so is the word of a
    column whose value is [None].  Every other slot of every page reads as
    before; the allocator, the index and the merge queues are unchanged,
    and the counters of the pages grow by at most [4 + len(columns)]. *)
Theorem insert_record_writes_the_record N now (r : Record_) (t : Table) p o :
  wfx N [] (t_cache t) -> files_for t ->
  unpack_II (rid r) = Ok (p, o) -> 8 <= o <= PAGESIZE - WORDSIZE ->
  Z.of_nat (length (columns r)) <= num_columns t ->
  0 <= now < 2 ^ 64 -> Forall int64 (columns r) ->
  N + 4 + Z.of_nat (length (columns r)) < 2 ^ 64 ->
  let rt := rec_range_type r in
  exists t',
    Table_insert_record now r t = (Ok tt, t') /\
    wfx (N + 4 + Z.of_nat (length (columns r))) [] (t_cache t') /\ files_for t' /\
    cache_meta (t_cache t') = cache_meta (t_cache t) /\
    outside_pool t' = outside_pool t /\
    entry t' rt (rid r) RID_COLUMN = Ok (rid r) /\
    entry t' rt (rid r) INDIRECTION_COLUMN = Ok INVALID_RID /\
    entry t' rt (rid r) TIMESTAMP_COLUMN = Ok (le_split 8 now) /\
    entry t' rt (rid r) SCHEMA_ENCODING_COLUMN = entry t rt (rid r) SCHEMA_ENCODING_COLUMN /\
    (forall (i : nat) z, columns r !! i = Some (Some z) ->
       entry t' rt (rid r) (Z.of_nat i + NUM_INTERNAL_COLUMN) = Ok (le_split 8 z)) /\
    (forall (i : nat), columns r !! i = Some None ->
       entry t' rt (rid r) (Z.of_nat i + NUM_INTERNAL_COLUMN)
       = entry t rt (rid r) (Z.of_nat i + NUM_INTERNAL_COLUMN)) /\
    (forall rt' rid' col' p' o',
       unpack_II rid' = Ok (p', o') -> 8 <= o' <= PAGESIZE - WORDSIZE ->
       0 <= col' < num_columns t + NUM_INTERNAL_COLUMN ->
       (rt', p') <> (rt, p) \/ o' <> o ->
       o' mod WORDSIZE = 0 -> o mod WORDSIZE = 0 ->
       entry t' rt' rid' col' = entry t rt' rid' col').
Proof.
  assert (HC : NUM_INTERNAL_COLUMN = 4) by reflexivity.
  assert (HW : WORDSIZE = 8) by reflexivity.
  intros Hwf Hfiles Hu Ho Hlen Hnow Hall HN rt.
  pose proof (tstate_intro N t Hwf Hfiles) as Hst.
  assert (Hrid : rid_ok (rid r)) by (unfold rid_ok; rewrite Hu; exact Ho).
  destruct (Table_insert_record_spec N _ _ _ t now r Hst Hrid Hlen Hnow Hall HN)
    as (t' & Hrun & Hst').
  pose proof (tstate_num_columns _ _ _ _ _ _ _ _ _ Hst Hst') as Hnc.
  assert (Hwhole : whole (pv (t_cache t))) by (intros k; apply (pv_length N); exact Hwf).
  destruct (insert_record_v_words (pv (t_cache t)) now r p o Hwhole Hu Ho)
    as (_ & Hw1 & Hw2 & Hw3 & Hw4 & Hw5 & Hw6 & Hw7).
  fold rt in Hw1, Hw2, Hw3, Hw4, Hw5, Hw6, Hw7.
  pose proof (tstate_columns _ _ _ _ _ Hst) as Hn0.
  exists t'. split; [exact Hrun|].
  pose proof Hst' as (Hwf' & Hfiles' & _ & Hmeta & Hout).
  split; [exact Hwf'|]. split; [exact Hfiles'|]. split; [exact Hmeta|].
  split; [exact Hout|].
  assert (Hnew : forall col, 0 <= col < num_columns t + NUM_INTERNAL_COLUMN ->
            entry t' rt (rid r) col = Ok (rd (insert_record_v (pv (t_cache t)) now r)
                                            rt col (rid r))).
  { intros col Hcol. apply (entry_rd _ _ _ _ _ _ _ _ Hst' Hrid). lia. }
  assert (Hold : forall rt' rid' col', rid_ok rid' ->
            0 <= col' < num_columns t + NUM_INTERNAL_COLUMN ->
            entry t rt' rid' col' = Ok (rd (pv (t_cache t)) rt' col' rid')).
  { intros rt' rid' col' Hr' Hcol. apply (entry_rd _ _ _ _ _ _ _ _ Hst Hr'). lia. }
  split; [rewrite Hnew by (unfold RID_COLUMN; lia); rewrite Hw1; reflexivity|].
  split; [rewrite Hnew by (unfold INDIRECTION_COLUMN; lia); rewrite Hw2; reflexivity|].
  split; [rewrite Hnew by (unfold TIMESTAMP_COLUMN; lia); rewrite Hw3; reflexivity|].
  split.
  { rewrite Hnew by (unfold SCHEMA_ENCODING_COLUMN; lia).
    rewrite Hold by (try exact Hrid; unfold SCHEMA_ENCODING_COLUMN; lia).
    rewrite Hw4. reflexivity. }
  split.
  { intros i z Hi. pose proof (lookup_lt_Some _ _ _ Hi) as Hlt.
    rewrite Hnew by lia. rewrite (Hw5 i z Hi). reflexivity. }
  split.
  { intros i Hi. pose proof (lookup_lt_Some _ _ _ Hi) as Hlt.
    rewrite Hnew by lia. rewrite Hold by (try exact Hrid; lia).
    rewrite (Hw6 i Hi). reflexivity. }
  intros rt' rid' col' p' o' Hu' Ho' Hcol' Hne Hm' Hm.
  assert (Hrid' : rid_ok rid') by (unfold rid_ok; rewrite Hu'; exact Ho').
  rewrite (entry_rd _ _ _ _ _ _ _ _ Hst' Hrid') by lia.
  rewrite Hold by assumption.
  f_equal. unfold rd. rewrite Hu'. apply Hw7; [lia|]. cbn [fst snd].
  destruct Hne as [Hne|Hne]; [left; exact Hne|].
  right. rewrite HW in *.
  pose proof (Z.div_mod o 8 ltac:(lia)) as E1.
  pose proof (Z.div_mod o' 8 ltac:(lia)) as E2.
  rewrite Hm in E1. rewrite Hm' in E2. lia.
Qed.

(** The RID (page 0, offset 16): the first record slot of a base page. *)
Definition rid_0_16 : bytes := le_split 4 0 ++ le_split 4 16.

Lemma sample_table_files : files_for sample_table.
Proof.
  split; [vm_compute; discriminate|].
  intros rt col Hcol. rewrite sample_table_cache. cbn [world fresh_world disk].
  change (num_columns sample_table) with 3 in Hcol.
  rewrite fresh_disk_file by exact Hcol. eexists. reflexivity.
Qed.

Lemma insert_record_writes_the_record_witness :
  exists t',
    Table_insert_record 5 (mkRecord rid_0_16 1 [Some 1; None; Some 100] base) sample_table
      = (Ok tt, t') /\
    entry t' base rid_0_16 RID_COLUMN = Ok rid_0_16 /\
    entry t' base rid_0_16 (2 + NUM_INTERNAL_COLUMN) = Ok (le_split 8 100).
Proof.
  destruct (insert_record_writes_the_record 2 5
              (mkRecord rid_0_16 1 [Some 1; None; Some 100] base) sample_table 0 16
              sample_table_wfx sample_table_files)
    as (t' & Hrun & _ & _ & _ & _ & H1 & _ & _ & _ & H5 & _).
  - vm_compute. reflexivity.
  - unfold PAGESIZE, WORDSIZE. lia.
  - vm_compute. discriminate.
  - lia.
  - repeat constructor; cbn [int64]; lia.
  - cbn [columns length]. lia.
  - exists t'. split; [exact Hrun|]. split; [exact H1|].
    apply (H5 2%nat 100). reflexivity.
Defined.

(** ** [table.py]: a new RID and the merge queues *)

(** The rows of the first [n] columns with one more empty queue each. *)
Definition grow_queues {A} (n : nat) (mq : list (list (list A))) : list (list (list A)) :=
  ((fun row => row ++ [[]]) <$> take n mq) ++ drop n mq.

Lemma grow_queues_0 {A} (mq : list (list (list A))) : grow_queues 0 mq = mq.
Proof. unfold grow_queues. rewrite take_0, drop_0. reflexivity. Qed.

Lemma grow_queues_length {A} n (mq : list (list (list A))) :
  length (grow_queues n mq) = length mq.
Proof.
  unfold grow_queues. rewrite length_app, length_fmap, length_take, length_drop. lia.
Qed.

Lemma grow_queues_lookup {A} n (mq : list (list (list A))) (k : nat) :
  (k < n)%nat \/ (n <= length mq)%nat ->
  grow_queues n mq !! k =
  if decide (k < n)%nat then (fun row => row ++ [[]]) <$> mq !! k else mq !! k.
Proof.
  intros Hk. unfold grow_queues. case_decide as Hlt.
  - destruct (decide (k < length mq)%nat) as [Hin|Hout].
    + rewrite lookup_app_l by (rewrite length_fmap, length_take; lia).
      rewrite list_lookup_fmap, lookup_take_lt by lia. reflexivity.
    + rewrite (lookup_ge_None_2 mq k) by lia. cbn.
      apply lookup_ge_None_2. rewrite length_app, length_fmap, length_take, length_drop. lia.
  - destruct Hk as [Hk|Hk]; [lia|].
    rewrite lookup_app_r by (rewrite length_fmap, length_take; lia).
    rewrite length_fmap, length_take, lookup_drop. f_equal. lia.
Qed.

Lemma grow_queues_S {A} (k : nat) (mq : list (list (list A))) row :
  mq !! k = Some row ->
  <[k := row ++ [[]]]> (grow_queues k mq) = grow_queues (S k) mq.
Proof.
  intros Hk. pose proof (lookup_lt_Some _ _ _ Hk) as Hlt. unfold grow_queues.
  rewrite insert_app_r_alt by (rewrite length_fmap, length_take; lia).
  rewrite length_fmap, length_take.
  replace (k - k `min` length mq)%nat with 0%nat by lia.
  rewrite (drop_S _ _ _ Hk). cbn [insert list_insert].
  rewrite (take_S_r _ _ _ Hk). rewrite fmap_app. cbn [fmap list_fmap].
  rewrite <- app_assoc. reflexivity.
Qed.

(** The loop of [Table.get_new_rid] at the first slot of a base page. *)
Lemma grow_queues_loop (m : nat) : forall (k : nat) mq (t : Table),
  (k + m <= length mq)%nat ->
  for_each (Z.of_nat <$> seq k m) (fun i =>
      mq <- gets merge_queue_matrix ;;
      row <- lift_result (py_nth mq i) ;;
      mq' <- lift_result (py_set mq i (row ++ [[]])) ;;
      modify (set_merge_queue_matrix mq'))
    (set_merge_queue_matrix (grow_queues k mq) t)
  = (Ok tt, set_merge_queue_matrix (grow_queues (k + m) mq) t).
Proof.
  induction m as [|m IH]; intros k mq t Hk.
  - rewrite Nat.add_0_r. reflexivity.
  - cbn [seq fmap list_fmap for_each].
    destruct (mq !! k) as [row|] eqn:Hrow;
      [|apply lookup_ge_None_1 in Hrow; lia].
    assert (Hg : grow_queues k mq !! k = Some row).
    { rewrite grow_queues_lookup by lia. rewrite decide_False by lia. exact Hrow. }
    assert (Hn : py_nth (grow_queues k mq) (Z.of_nat k) = Ok row).
    { apply py_nth_lookup; [lia|]. rewrite Nat2Z.id. exact Hg. }
    assert (Hs : py_set (grow_queues k mq) (Z.of_nat k) (row ++ [[]])
                 = Ok (grow_queues (S k) mq)).
    { unfold py_set. rewrite (decide_False (P := Z.of_nat k < 0)) by lia.
      rewrite grow_queues_length. rewrite decide_True by lia.
      rewrite Nat2Z.id. rewrite (grow_queues_S k mq row Hrow). reflexivity. }
    match goal with
    | |- bind ?b _ _ = _ =>
        assert (Hb : b (set_merge_queue_matrix (grow_queues k mq) t)
                     = (Ok tt, set_merge_queue_matrix (grow_queues (S k) mq) t))
    end.
    { rewrite bind_gets. cbn [merge_queue_matrix set_merge_queue_matrix].
      rewrite (bind_lift_ok _ _ _ _ Hn). rewrite (bind_lift_ok _ _ _ _ Hs).
      reflexivity. }
    rewrite (bind_ok _ _ _ _ _ Hb).
    rewrite (IH (S k) mq t) by lia.
    replace (S k + m)%nat with (k + S m)%nat by lia. reflexivity.
Qed.

Lemma set_merge_queue_matrix_id t : set_merge_queue_matrix (merge_queue_matrix t) t = t.
Proof. destruct t. reflexivity. Qed.

(** [Table.get_new_rid('base')] *)
Lemma Table_get_new_rid_base_run (t : Table) p o :
  unpack_II (last_rid_base (t_cache t)) = Ok (p, o) -> o < PAGESIZE -> p + 1 < 2 ^ 32 ->
  num_columns t <= Z.of_nat (length (merge_queue_matrix t)) ->
  exists r p' o',
    Cache_get_new_rid base (t_cache t) = (Ok r, set_last_rid base r (t_cache t)) /\
    unpack_II r = Ok (p', o') /\
    WORDSIZE <= o' <= PAGESIZE - WORDSIZE /\ o' mod WORDSIZE = 0 /\
    ((p' = p /\ o < o') \/
     (p' = p + 1 /\ PAGESIZE - WORDSIZE <= o /\ o' = 2 * WORDSIZE)) /\
    Table_get_new_rid base t =
      (Ok r,
       set_merge_queue_matrix
         (if decide (o' = 2 * WORDSIZE)
          then grow_queues (Z.to_nat (num_columns t)) (merge_queue_matrix t)
          else merge_queue_matrix t)
         (set_t_cache (set_last_rid base r (t_cache t)) t)).
Proof.
  intros Hu Ho Hp Hmq.
  destruct (Cache_get_new_rid_next base (t_cache t) p o Hu Ho Hp)
    as (r & p' & o' & Hr & Hur & Hb & Hmod & Hcase).
  exists r, p', o'. split; [exact Hr|]. split; [exact Hur|]. split; [exact Hb|].
  split; [exact Hmod|]. split; [exact Hcase|].
  unfold Table_get_new_rid.
  rewrite (bind_ok _ _ _ _ _ (in_cache_run _ _ _ _ Hr)).
  rewrite (bind_lift_ok _ _ _ _ Hur). cbn [fst snd].
  set (t1 := set_t_cache (set_last_rid base r (t_cache t)) t).
  destruct (decide (o' = 2 * WORDSIZE)) as [Hfirst|Hlater].
  - unfold bind at 1. rewrite bind_gets.
    change (num_columns t1) with (num_columns t).
    pose proof (grow_queues_loop (Z.to_nat (num_columns t)) 0 (merge_queue_matrix t) t1)
      as Hloop.
    rewrite grow_queues_0 in Hloop.
    change (set_merge_queue_matrix (merge_queue_matrix t) t1) with t1 in Hloop.
    unfold py_range. rewrite Hloop by (cbn; lia). reflexivity.
  - unfold bind, ret.
    change (set_merge_queue_matrix (merge_queue_matrix t) t1) with t1. reflexivity.
Qed.

Lemma Cache_get_new_rid_unpack rt c r c' :
  Cache_get_new_rid rt c = (Ok r, c') ->
  c' = set_last_rid rt r c /\ exists p' o', unpack_II r = Ok (p', o').
Proof.
  intros H. split; [apply (Cache_get_new_rid_fresh _ _ _ _ H)|].
  unfold Cache_get_new_rid in H. rewrite bind_gets in H.
  apply bind_inv_ok in H. destruct H as ([p o] & c1 & Hu & H).
  apply bind_inv_ok in H. destruct H as (nr & c2 & Hp & H).
  unfold lift_result in Hp. injection Hp as Hp <-.
  unfold bind, modify, ret in H. assert (nr = r) by congruence. subst nr.
  apply unpack_pack_II in Hp. eauto.
Qed.

(** [Table.get_new_rid('base')] when the allocator hands out a RID. *)
Lemma Table_get_new_rid_base_of (t : Table) r p' o' :
  Cache_get_new_rid base (t_cache t) = (Ok r, set_last_rid base r (t_cache t)) ->
  unpack_II r = Ok (p', o') ->
  num_columns t <= Z.of_nat (length (merge_queue_matrix t)) ->
  Table_get_new_rid base t =
    (Ok r,
     set_merge_queue_matrix
       (if decide (o' = 2 * WORDSIZE)
        then grow_queues (Z.to_nat (num_columns t)) (merge_queue_matrix t)
        else merge_queue_matrix t)
       (set_t_cache (set_last_rid base r (t_cache t)) t)).
Proof.
  intros Hr Hur Hmq.
  unfold Table_get_new_rid.
  rewrite (bind_ok _ _ _ _ _ (in_cache_run _ _ _ _ Hr)).
  rewrite (bind_lift_ok _ _ _ _ Hur). cbn [fst snd].
  set (t1 := set_t_cache (set_last_rid base r (t_cache t)) t).
  destruct (decide (o' = 2 * WORDSIZE)) as [Hfirst|Hlater].
  - unfold bind at 1. rewrite bind_gets.
    change (num_columns t1) with (num_columns t).
    pose proof (grow_queues_loop (Z.to_nat (num_columns t)) 0 (merge_queue_matrix t) t1)
      as Hloop.
    rewrite grow_queues_0 in Hloop.
    change (set_merge_queue_matrix (merge_queue_matrix t) t1) with t1 in Hloop.
    unfold py_range. rewrite Hloop by (cbn; lia). reflexivity.
  - unfold bind, ret.
    change (set_merge_queue_matrix (merge_queue_matrix t) t1) with t1. reflexivity.
Qed.

(** X14: whenever the allocator of the pool hands out a base RID and the
    table has a row of merge queues for each of its columns,
    [Table.get_new_rid('base')] returns that RID and, exactly when its
    offset is 16 (the first record slot of a base page), appends one empty
    merge queue to the row of every column; the rows past the columns, the
    number of rows and everything of the table but the pool and the queues
    are as before.  (The first slot of page 0 counts: a table just created,
    which has one queue per column, has two after its first RID.)
    [Table.get_new_rid('tail')] returns the RID of the allocator and changes
    the pool only. *)
Theorem get_new_rid_grows_the_queues (t : Table) :
  (forall r c',
     Cache_get_new_rid base (t_cache t) = (Ok r, c') ->
     num_columns t <= Z.of_nat (length (merge_queue_matrix t)) ->
     exists p' o' t',
       unpack_II r = Ok (p', o') /\
       Table_get_new_rid base t = (Ok r, t') /\
       t_cache t' = c' /\
       length (merge_queue_matrix t') = length (merge_queue_matrix t) /\
       (forall i : nat,
          merge_queue_matrix t' !! i =
          if decide (o' = 2 * WORDSIZE /\ Z.of_nat i < num_columns t)
          then (fun row => row ++ [[]]) <$> merge_queue_matrix t !! i
          else merge_queue_matrix t !! i) /\
       set_merge_queue_matrix (merge_queue_matrix t) (set_t_cache (t_cache t) t') = t) /\
  (forall r c', Cache_get_new_rid tail (t_cache t) = (Ok r, c') ->
     Table_get_new_rid tail t = (Ok r, set_t_cache c' t)).
Proof.
  split.
  - intros r c' Hr Hmq.
    destruct (Cache_get_new_rid_unpack _ _ _ _ Hr) as (-> & p' & o' & Hur).
    pose proof (Table_get_new_rid_base_of t r p' o' Hr Hur Hmq) as Hrun.
    eexists p', o', _. split; [exact Hur|]. split; [exact Hrun|].
    cbn [t_cache set_merge_queue_matrix set_t_cache merge_queue_matrix].
    split; [reflexivity|]. split.
    { case_decide; [apply grow_queues_length | reflexivity]. }
    split; [|destruct t; reflexivity].
    intros i. destruct (decide (o' = 2 * WORDSIZE)) as [Hfirst|Hlater].
    + rewrite grow_queues_lookup by lia.
      destruct (decide (i < Z.to_nat (num_columns t))%nat) as [Hi|Hi].
      * rewrite decide_True by (split; [exact Hfirst | lia]). reflexivity.
      * rewrite decide_False by lia. reflexivity.
    + rewrite decide_False by (intros [H _]; contradiction). reflexivity.
  - intros r c' Hr. unfold Table_get_new_rid.
    rewrite (bind_ok _ _ _ _ _ (in_cache_run _ _ _ _ Hr)). reflexivity.
Qed.

Lemma get_new_rid_grows_the_queues_witness :
  exists r t',
    Table_get_new_rid base sample_table = (Ok r, t') /\
    unpack_II r = Ok (0, 16) /\
    merge_queue_matrix sample_table = [[[]]; [[]]; [[]]] /\
    merge_queue_matrix t' = [[[]; []]; [[]; []]; [[]; []]].
Proof.
  destruct (get_new_rid_grows_the_queues sample_table) as [H _].
  destruct (H rid_0_16 (set_last_rid base rid_0_16 (t_cache sample_table)))
    as (p' & o' & t' & Hur & Hrun & _).
  - vm_compute. reflexivity.
  - vm_compute. discriminate.
  - exists rid_0_16, t'. split; [exact Hrun|].
    split; [vm_compute; reflexivity|]. split; [vm_compute; reflexivity|].
    assert (E : merge_queue_matrix (snd (Table_get_new_rid base sample_table))
                = [[[]; []]; [[]; []]; [[]; []]])
      by (vm_compute; reflexivity).
    rewrite Hrun in E. exact E.
Defined.

(** ** [query.py]: a select after an insert *)

Lemma wfx_set_last_rid N x rt r c : wfx N x c -> wfx N x (set_last_rid rt r c).
Proof. intros [H1 H2 H3 H4 H5 H6 H7]. destruct rt; constructor; assumption. Qed.

Lemma getslice_word_length (b : bytes) o :
  0 <= o -> o + WORDSIZE <= Z.of_nat (length b) ->
  length (getslice b o (o + WORDSIZE)) = 8%nat.
Proof.
  intros Ho Hl. rewrite getslice_in by (unfold WORDSIZE in *; lia).
  rewrite length_take, length_drop. unfold WORDSIZE in *. lia.
Qed.

Lemma unpack_II_INVALID_RID : unpack_II INVALID_RID = Ok (2 ^ 32 - 1, 2 ^ 32 - 1).
Proof. vm_compute. reflexivity. Qed.

(** A record that was never updated is read from its base page. *)
Lemma select_feature_v_base fuel v b f x p o :
  whole v -> unpack_II b = Ok (p, o) -> 8 <= o <= PAGESIZE - WORDSIZE ->
  rd v base INDIRECTION_COLUMN b = INVALID_RID ->
  unpack_Q (rd v base SCHEMA_ENCODING_COLUMN b) = Ok 0 ->
  rd v base (f + NUM_INTERNAL_COLUMN) b = le_split 8 x -> - 2 ^ 63 <= x < 2 ^ 63 ->
  select_feature_v fuel v b f = Ok x.
Proof.
  intros Hv Hu Ho Hind Hsch Hdata Hx.
  assert (HW : WORDSIZE = 8) by reflexivity.
  assert (HP : PAGESIZE = 4096) by reflexivity.
  unfold select_feature_v.
  rewrite decide_True by (unfold rid_ok; rewrite Hu; exact Ho).
  unfold base_up_to_date_v. rewrite Hu. cbn [rbind fst].
  destruct (unpack_II (lineage_v v p f)) as [[l1 l2]|e] eqn:Hl.
  - destruct (unpack_II_bounds _ _ _ Hl) as [H1 H2].
    cbn [rbind]. rewrite Hind, unpack_II_INVALID_RID. cbn [rbind].
    unfold newer. cbn [fst snd].
    rewrite (decide_False (P := l1 > 2 ^ 32 - 1)) by lia.
    assert (Hn : (if decide (l1 = 2 ^ 32 - 1) then bool_decide (l2 > 2 ^ 32 - 1) else false)
                 = false).
    { case_decide; [|reflexivity]. apply bool_decide_eq_false_2. lia. }
    rewrite Hn. unfold Table_is_updated. rewrite Hsch. cbn [rbind].
    rewrite Z.land_0_l. rewrite bool_decide_eq_true_2 by reflexivity.
    rewrite Hdata. apply unpack_pack_q. unfold pack_q.
    rewrite decide_True by exact Hx. reflexivity.
  - exfalso. unfold unpack_II in Hl. rewrite decide_True in Hl; [discriminate|].
    unfold lineage_v. apply getslice_word_length; [lia|]. rewrite Hv. lia.
Qed.

(** The comprehension of [Query.select] over the columns of one record. *)
Lemma select_columns_run N v a o fuel b (mask : list Z) (vals : Z -> option Z)
    (l : list Z) :
  forall t, tstate N v a o t ->
  (forall i, i ∈ l -> 0 <= i < num_columns t /\
     exists m, py_nth mask i = Ok m /\
       if decide (m = 0) then vals i = None
       else exists x, vals i = Some x /\ select_feature_v fuel v b i = Ok x) ->
  exists t',
    map_M (fun i =>
        selected <- lift_result (py_nth mask i) ;;
        if decide (selected = 0) then ret None
        else field <- Table_select_feature fuel b i ;; ret (Some field)) l t
    = (Ok (vals <$> l), t') /\
    tstate N v a o t'.
Proof.
  induction l as [|i l IH]; intros t Hst Hl.
  - exists t. split; [reflexivity | exact Hst].
  - cbn [map_M fmap list_fmap].
    destruct (Hl i ltac:(left)) as (Hi & m & Hm & Hcase).
    lazymatch goal with
    | |- exists t', bind ?b _ t = _ /\ _ =>
        assert (Hb : exists t1, b t = (Ok (vals i), t1) /\ tstate N v a o t1)
    end.
    { rewrite (bind_lift_ok _ _ _ _ Hm). destruct (decide (m = 0)) as [Hz|Hnz].
      - exists t. rewrite Hcase. split; [reflexivity | exact Hst].
      - destruct Hcase as (x & Hv & Hsel).
        destruct (Table_select_feature_spec N v a o fuel b i x t Hst Hi Hsel)
          as (t1 & Hrun & Hst1).
        exists t1. rewrite (bind_ok _ _ _ _ _ Hrun). rewrite Hv.
        split; [reflexivity | exact Hst1]. }
    destruct Hb as (t1 & Hb & Hst1).
    pose proof (tstate_num_columns _ _ _ _ _ _ _ _ _ Hst Hst1) as Hnc.
    destruct (IH t1 Hst1) as (t' & Hrest & Hst').
    { intros j Hj. rewrite Hnc. apply Hl. right. exact Hj. }
    exists t'. rewrite (bind_ok _ _ _ _ _ Hb). rewrite (bind_ok _ _ _ _ _ Hrest).
    split; [reflexivity | exact Hst'].
Qed.

Lemma fmap_py_range_zip_with {A B C} (f : A -> B -> C) (d : C)
    (l1 : list A) (l2 : list B) n :
  Z.of_nat (length l1) = n -> Z.of_nat (length l2) = n ->
  (fun i => match l1 !! Z.to_nat i, l2 !! Z.to_nat i with
            | Some a, Some b => f a b
            | _, _ => d
            end) <$> py_range n
  = zip_with f l1 l2.
Proof.
  intros H1 H2. apply list_eq. intros j. unfold py_range.
  rewrite <- list_fmap_compose, list_lookup_fmap.
  destruct (decide (j < length l1)%nat) as [Hj|Hj].
  - rewrite lookup_seq_lt by lia. cbn. rewrite Nat2Z.id.
    destruct (lookup_lt_is_Some_2 l1 j Hj) as [a Ha].
    destruct (lookup_lt_is_Some_2 l2 j ltac:(lia)) as [b Hb].
    rewrite Ha, Hb. symmetry. apply lookup_zip_with_Some. eauto.
  - rewrite lookup_ge_None_2 by (rewrite length_seq; lia). cbn. symmetry.
    apply lookup_ge_None_2. rewrite length_zip_with. lia.
Qed.

(** The index as [Table.__init__] builds it: one entry per column and the
    key column indexed. *)
Definition primary_index_ok (t : Table) : Prop :=
  index_shape (index t) /\ num_features (index t) = num_columns t /\
  primary_key_index (index t) = key_index t /\ 0 <= key_index t /\
  index_created (index t) !! Z.to_nat (key_index t) = Some true.

(** X15: a record that was inserted is the record selected.  Over a
    coherent pool and an index on the key column, [Query.insert] of a row
    of the width of the table whose key is new (values in the range of
    [pack('q', .)]) succeeds when the allocator has a next base slot and
    there is a row of merge queues for every column; then [Query.select]
    of that key on the key column returns exactly one record, with the new
    RID, the key, and for every column the inserted value where the mask is
    not 0 and [None] where it is 0.  The insert does not write the schema
    word of the slot, so this needs that word to read zero, as it does in
    a page that was never written there. *)
Theorem select_after_insert N fuel now (cols mask : list Z) (key : Z) (t : Table) p o m :
  wfx N [] (t_cache t) -> files_for t -> N + 4 + num_columns t < 2 ^ 64 ->
  primary_index_ok t ->
  Z.of_nat (length cols) = num_columns t -> Z.of_nat (length mask) = num_columns t ->
  Forall (fun x => - 2 ^ 63 <= x < 2 ^ 63) cols -> 0 <= now < 2 ^ 64 ->
  cols !! Z.to_nat (key_index t) = Some key ->
  map_list (index t) !! Z.to_nat (key_index t) = Some m -> od_get m (Some key) = None ->
  unpack_II (last_rid_base (t_cache t)) = Ok (p, o) -> 8 <= o < PAGESIZE ->
  p + 1 < 2 ^ 32 ->
  num_columns t <= Z.of_nat (length (merge_queue_matrix t)) ->
  (forall r, fst (Cache_get_new_rid base (t_cache t)) = Ok r ->
             entry t base r SCHEMA_ENCODING_COLUMN = Ok (le_split 8 0)) ->
  exists r t1 t2,
    Query_insert now cols t = (Ok tt, t1) /\
    Query_select fuel key (key_index t) mask t1
    = (Ok [mkRecord r key
             (zip_with (fun m x => if decide (m = 0) then None else Some x) mask cols)
             base], t2) /\
    fst (Cache_get_new_rid base (t_cache t)) = Ok r /\
    last_rid_base (t_cache t1) = r.
Proof.
  assert (HC : NUM_INTERNAL_COLUMN = 4) by reflexivity.
  assert (HW : WORDSIZE = 8) by reflexivity.
  assert (HP : PAGESIZE = 4096) by reflexivity.
  intros Hwf Hfiles HN (Hshape & Hnf & Hpk & Hki & Hcreated) Hlc Hlm Hall Hnow Hkey Hm
    Hfresh Hu Ho Hp Hmq Hslot.
  pose proof Hfiles as [Hn0 Hfiles'].
  destruct (Table_get_new_rid_base_run t p o Hu (proj2 Ho) Hp Hmq)
    as (r & p' & o' & Hr & Hur & Hb & Hmod & Hcase & Hrun).
  set (ta := set_merge_queue_matrix
               (if decide (o' = 2 * WORDSIZE)
                then grow_queues (Z.to_nat (num_columns t)) (merge_queue_matrix t)
                else merge_queue_matrix t)
               (set_t_cache (set_last_rid base r (t_cache t)) t)) in Hrun.
  assert (Ho' : 8 <= o' <= PAGESIZE - WORDSIZE) by lia.
  assert (Hrid : rid_ok r) by (unfold rid_ok; rewrite Hur; exact Ho').
  set (rec := mkRecord r key (Some <$> cols) base).
  (* the index *)
  destruct (Index_map_insert_new_key rec (index t) key m Hshape)
    as (ix' & Hins & Hloc & _ & _ & _).
  { cbn [rec columns]. rewrite length_fmap. lia. }
  { lia. }
  { cbn [rec columns]. rewrite list_lookup_fmap, Hpk, Hkey. reflexivity. }
  { rewrite Hpk. exact Hcreated. }
  { rewrite Hpk. exact Hm. }
  { exact Hfresh. }
  set (tb := set_index ix' ta).
  assert (Hidx : in_index (Index_map_insert rec) ta = (Ok tt, tb)).
  { unfold in_index. apply zoom_eq. exact Hins. }
  (* the pages *)
  assert (Hwfb : wfx N [] (t_cache tb)) by (apply wfx_set_last_rid; exact Hwf).
  assert (Hfilesb : files_for tb).
  { split; [exact Hn0|]. intros rt col Hcol. apply (Hfiles' rt col). exact Hcol. }
  pose proof (tstate_intro N tb Hwfb Hfilesb) as Hstb.
  destruct (Table_insert_record_spec N _ _ _ tb now rec Hstb Hrid) as (t1 & Hrec & Hst1).
  { cbn [rec columns]. rewrite length_fmap. change (num_columns tb) with (num_columns t). lia. }
  { exact Hnow. }
  { cbn [rec columns]. apply Forall_fmap. eapply Forall_impl; [exact Hall|].
    intros x Hx. exact Hx. }
  { cbn [rec columns]. rewrite length_fmap. lia. }
  assert (Hnc1 : num_columns t1 = num_columns t)
    by apply (tstate_num_columns _ _ _ _ _ _ _ _ _ Hstb Hst1).
  exists r, t1.
  (* the insert *)
  assert (Hinsert : Query_insert now cols t = (Ok tt, t1)).
  { unfold Query_insert. rewrite bind_gets.
    rewrite (decide_False (P := Z.of_nat (length cols) <> num_columns t))
      by (intros H; apply H; exact Hlc).
    rewrite (bind_ok _ _ _ _ _ Hrun). rewrite bind_gets.
    change (key_index ta) with (key_index t).
    rewrite (bind_lift_ok _ _ _ _ (py_nth_lookup _ _ _ Hki Hkey)).
    cbv zeta. fold rec. rewrite (bind_ok _ _ _ _ _ Hidx). exact Hrec. }
  (* the words of the record *)
  assert (Hwhole : whole (pv (t_cache tb))) by (intros k; apply (pv_length N); exact Hwfb).
  destruct (insert_record_v_words (pv (t_cache tb)) now rec p' o' Hwhole Hur Ho')
    as (Hwhole' & _ & Hind & _ & Hsch & Hdata & _ & _).
  cbn [rec rec_range_type rid columns] in Hind, Hsch, Hdata. fold rec in Hind, Hsch, Hdata.
  assert (Hzero : unpack_Q (rd (pv (t_cache tb)) base SCHEMA_ENCODING_COLUMN r) = Ok 0).
  { pose proof (Hslot r ltac:(rewrite Hr; reflexivity)) as Hs.
    rewrite (entry_rd _ _ _ _ _ _ _ _ (tstate_intro N t Hwf Hfiles) Hrid) in Hs
      by (unfold SCHEMA_ENCODING_COLUMN; lia).
    ok_inj Hs. change (pv (t_cache tb)) with (pv (t_cache t)).
    rewrite Hs. apply unpack_pack_Q. unfold pack_Q. rewrite decide_True by lia.
    reflexivity. }
  set (vals := fun i : Z =>
                 match mask !! Z.to_nat i, cols !! Z.to_nat i with
                 | Some m, Some x => if decide (m = 0) then None else Some x
                 | _, _ => None
                 end).
  destruct (select_columns_run _ _ _ _ fuel r mask vals (py_range (num_columns t)) t1 Hst1)
    as (t2 & Hsel & Hst2).
  { intros i Hi. apply elem_py_range in Hi. split; [lia|].
    destruct (lookup_lt_is_Some_2 mask (Z.to_nat i) ltac:(lia)) as [mi Hmi].
    destruct (lookup_lt_is_Some_2 cols (Z.to_nat i) ltac:(lia)) as [x Hx].
    exists mi. split; [apply py_nth_lookup; [lia | exact Hmi]|].
    unfold vals. rewrite Hmi, Hx. destruct (decide (mi = 0)) as [Hz|Hnz]; [reflexivity|].
    exists x. split; [reflexivity|].
    apply (select_feature_v_base fuel _ r i x p' o' Hwhole' Hur Ho' Hind).
    - rewrite Hsch. exact Hzero.
    - replace i with (Z.of_nat (Z.to_nat i)) at 1 by lia.
      apply Hdata. rewrite list_lookup_fmap, Hx. reflexivity.
    - rewrite Forall_forall in Hall. apply Hall.
      apply list_elem_of_lookup_2 with (i := Z.to_nat i). exact Hx. }
  exists t2. split; [exact Hinsert|].
  split; [|split].
  - unfold Query_select. rewrite bind_gets. rewrite Hnc1.
    rewrite (decide_False (P := Z.of_nat (length mask) <> num_columns t))
      by (intros H; apply H; exact Hlm).
    assert (Hix1 : index t1 = ix').
    { destruct Hst1 as (_ & _ & _ & _ & Hout). unfold outside_pool in Hout.
      cbn [tb index set_index] in Hout. congruence. }
    assert (Hloc1 : in_index (Index_locate key (key_index t)) t1 = (Ok (Some [r]), t1)).
    { rewrite in_index_locate, Hix1. rewrite <- Hpk. rewrite Hloc. reflexivity. }
    rewrite (bind_ok _ _ _ _ _ Hloc1). cbn [map_M].
    lazymatch goal with
    | |- bind ?b _ t1 = _ =>
        assert (Hf : b t1 = (Ok (mkRecord r key (vals <$> py_range (num_columns t)) base), t2))
    end.
    { rewrite (bind_ok _ _ _ _ _ Hsel). reflexivity. }
    rewrite (bind_ok _ _ _ _ _ Hf).
    unfold vals. rewrite (fmap_py_range_zip_with _ None mask cols _ Hlm Hlc).
    reflexivity.
  - rewrite Hr. reflexivity.
  - destruct Hst1 as (_ & _ & _ & Hmeta & _). unfold cache_meta in Hmeta.
    cbn [tb ta t_cache set_index set_merge_queue_matrix set_t_cache set_last_rid
         last_rid_base size last_rid_tail] in Hmeta.
    congruence.
Qed.

Lemma sample_table_index : primary_index_ok sample_table.
Proof.
  split; [split; vm_compute; reflexivity|].
  split; [reflexivity|]. split; [reflexivity|].
  split; [vm_compute; discriminate | vm_compute; reflexivity].
Qed.

Lemma select_after_insert_witness :
  exists r t1 t2,
    Query_insert 5 [1; 10; 100] sample_table = (Ok tt, t1) /\
    Query_select 8 1 0 [1; 0; 1] t1
    = (Ok [mkRecord r 1 [Some 1; None; Some 100] base], t2).
Proof.
  destruct (select_after_insert 2 8 5 [1; 10; 100] [1; 0; 1] 1 sample_table 0 8 []
              sample_table_wfx sample_table_files)
    as (r & t1 & t2 & H1 & H2 & _).
  - vm_compute. reflexivity.
  - exact sample_table_index.
  - reflexivity.
  - reflexivity.
  - repeat constructor; lia.
  - lia.
  - reflexivity.
  - vm_compute. reflexivity.
  - reflexivity.
  - vm_compute. reflexivity.
  - unfold PAGESIZE. lia.
  - lia.
  - vm_compute. discriminate.
  - intros r Hr. vm_compute in Hr. ok_inj Hr. vm_compute. reflexivity.
  - exists r, t1, t2. split; [exact H1 | exact H2].
Defined.


(** ** [query.py]: the queries on column 0, with an index on it *)

(** A table of three columns created with key column 1. *)
Definition table_created_on_1 : Table :=
  table_or_empty (Table_init 16 3 1 (fresh_world 3)).

(** That table holding the record (100, 1, 7), after an index on column 0
    was created. *)
Definition table_keyed_on_1_indexed_0 : Table :=
  snd (Table_table_create_index 8 0 (snd (Query_insert 0 [100; 1; 7] table_created_on_1))).

(** C9 as stated fails: a table created with key column 1 on which
    [create_index(0)] was called has an index on column 0; there the sum
    over column 0 returns 100, the update returns [True], and the delete
    of the value 100 of column 0 raises [KeyError], not [NotIndexed]. *)
Lemma queries_on_column_0_after_create_index :
  Table_init 16 3 1 (fresh_world 3) = Ok table_created_on_1 /\
  fst (Query_insert 0 [100; 1; 7] table_created_on_1) = Ok tt /\
  Table_table_create_index 8 0 (snd (Query_insert 0 [100; 1; 7] table_created_on_1))
    = (Ok tt, table_keyed_on_1_indexed_0) /\
  key_index table_keyed_on_1_indexed_0 = 1 /\
  index_created (index table_keyed_on_1_indexed_0) = [true; true; false] /\
  fst (Query_sum 8 100 100 0 table_keyed_on_1_indexed_0) = Ok 100 /\
  fst (Query_update 2 8 0 100 [None; None; Some 8] table_keyed_on_1_indexed_0) = Ok true /\
  fst (Query_delete 8 100 table_keyed_on_1_indexed_0) = Err KeyError.
Proof.
  split; [vm_compute; reflexivity|]. split; [vm_compute; reflexivity|].
  split; [vm_compute; reflexivity|].
  split; [vm_compute; reflexivity|]. split; [vm_compute; reflexivity|].
  split; [vm_compute; reflexivity|]. split; vm_compute; reflexivity.
Qed.

(** ** [transaction.py]: a sum over a single key behind a failing query *)

(** C10 as stated fails: when a select on a column without index is
    enqueued before the sum, [preprocessing] raises the [NotIndexed] of its
    analysis and never reaches the division. *)
Lemma run_sum_single_key_after_failing_select :
  fst (query_locks (q_select 1 1 [1; 1; 1]) sample_table) = Err NotIndexed /\
  fst (Transaction_run 2 8 0
         (transaction_of [q_select 1 1 [1; 1; 1]; q_sum 1 1 2], sample_table))
  = Err NotIndexed.
Proof. split; vm_compute; reflexivity. Qed.

(** ** [query.py]: an insert keeps the pool coherent *)

(** [Query.insert] of a new key over a coherent pool succeeds and leaves a
    coherent pool over the files of the table. *)
Lemma Query_insert_coherent N now (cols : list Z) (key : Z) (t : Table) p o m :
  wfx N [] (t_cache t) -> files_for t -> N + 4 + num_columns t < 2 ^ 64 ->
  primary_index_ok t ->
  Z.of_nat (length cols) = num_columns t ->
  Forall (fun x => - 2 ^ 63 <= x < 2 ^ 63) cols -> 0 <= now < 2 ^ 64 ->
  cols !! Z.to_nat (key_index t) = Some key ->
  map_list (index t) !! Z.to_nat (key_index t) = Some m -> od_get m (Some key) = None ->
  unpack_II (last_rid_base (t_cache t)) = Ok (p, o) -> 8 <= o < PAGESIZE ->
  p + 1 < 2 ^ 32 ->
  num_columns t <= Z.of_nat (length (merge_queue_matrix t)) ->
  exists t1,
    Query_insert now cols t = (Ok tt, t1) /\
    wfx (N + 4 + num_columns t) [] (t_cache t1) /\ files_for t1.
Proof.
  assert (HC : NUM_INTERNAL_COLUMN = 4) by reflexivity.
  assert (HW : WORDSIZE = 8) by reflexivity.
  assert (HP : PAGESIZE = 4096) by reflexivity.
  intros Hwf Hfiles HN (Hshape & Hnf & Hpk & Hki & Hcreated) Hlc Hall Hnow Hkey Hm
    Hfresh Hu Ho Hp Hmq.
  pose proof Hfiles as [Hn0 Hfiles'].
  destruct (Table_get_new_rid_base_run t p o Hu (proj2 Ho) Hp Hmq)
    as (r & p' & o' & Hr & Hur & Hb & Hmod & Hcase & Hrun).
  set (ta := set_merge_queue_matrix
               (if decide (o' = 2 * WORDSIZE)
                then grow_queues (Z.to_nat (num_columns t)) (merge_queue_matrix t)
                else merge_queue_matrix t)
               (set_t_cache (set_last_rid base r (t_cache t)) t)) in Hrun.
  assert (Ho' : 8 <= o' <= PAGESIZE - WORDSIZE) by lia.
  assert (Hrid : rid_ok r) by (unfold rid_ok; rewrite Hur; exact Ho').
  set (rec := mkRecord r key (Some <$> cols) base).
  destruct (Index_map_insert_new_key rec (index t) key m Hshape)
    as (ix' & Hins & _).
  { cbn [rec columns]. rewrite length_fmap. lia. }
  { lia. }
  { cbn [rec columns]. rewrite list_lookup_fmap, Hpk, Hkey. reflexivity. }
  { rewrite Hpk. exact Hcreated. }
  { rewrite Hpk. exact Hm. }
  { exact Hfresh. }
  set (tb := set_index ix' ta).
  assert (Hidx : in_index (Index_map_insert rec) ta = (Ok tt, tb)).
  { unfold in_index. apply zoom_eq. exact Hins. }
  assert (Hwfb : wfx N [] (t_cache tb)) by (apply wfx_set_last_rid; exact Hwf).
  assert (Hfilesb : files_for tb).
  { split; [exact Hn0|]. intros rt col Hcol. apply (Hfiles' rt col). exact Hcol. }
  pose proof (tstate_intro N tb Hwfb Hfilesb) as Hstb.
  destruct (Table_insert_record_spec N _ _ _ tb now rec Hstb Hrid) as (t1 & Hrec & Hst1).
  { cbn [rec columns]. rewrite length_fmap. change (num_columns tb) with (num_columns t). lia. }
  { exact Hnow. }
  { cbn [rec columns]. apply Forall_fmap. eapply Forall_impl; [exact Hall|].
    intros x Hx. exact Hx. }
  { cbn [rec columns]. rewrite length_fmap. lia. }
  exists t1. split.
  - unfold Query_insert. rewrite bind_gets.
    rewrite (decide_False (P := Z.of_nat (length cols) <> num_columns t))
      by (intros H; apply H; exact Hlc).
    rewrite (bind_ok _ _ _ _ _ Hrun). rewrite bind_gets.
    change (key_index ta) with (key_index t).
    rewrite (bind_lift_ok _ _ _ _ (py_nth_lookup _ _ _ Hki Hkey)).
    cbv zeta. fold rec. rewrite (bind_ok _ _ _ _ _ Hidx). exact Hrec.
  - destruct Hst1 as (Hwf1 & Hfiles1 & _).
    cbn [rec columns] in Hwf1. rewrite length_fmap, Hlc in Hwf1.
    split; [exact Hwf1 | exact Hfiles1].
Qed.

(** The pool of the sample table holding the record (1, 10, 100) is
    coherent. *)
Lemma table_with_key_1_wfx : wfx 9 [] (t_cache table_with_key_1).
Proof.
  destruct (Query_insert_coherent 2 0 [1; 10; 100] 1 sample_table 0 8 []
              sample_table_wfx sample_table_files) as (t1 & Hrun & Hwf & _).
  - vm_compute. reflexivity.
  - exact sample_table_index.
  - reflexivity.
  - repeat constructor; lia.
  - lia.
  - reflexivity.
  - vm_compute. reflexivity.
  - reflexivity.
  - vm_compute. reflexivity.
  - unfold PAGESIZE. lia.
  - lia.
  - vm_compute. discriminate.
  - unfold table_with_key_1. rewrite Hrun. cbn [snd].
    change (2 + 4 + num_columns sample_table) with 9 in Hwf. exact Hwf.
Qed.

(** A select that finds its record and reads every column of it from the
    pages leaves the table as the theorem says. *)
Lemma select_leaves_the_table_witness :
  fst (Query_select 8 1 0 [1; 1; 1] table_with_key_1)
    = Ok [mkRecord rid_0_16 1 [Some 1; Some 10; Some 100] base] /\
  wfx 9 [] (t_cache (snd (Query_select 8 1 0 [1; 1; 1] table_with_key_1))) /\
  pv (t_cache (snd (Query_select 8 1 0 [1; 1; 1] table_with_key_1)))
     (base, 0, 1 + NUM_INTERNAL_COLUMN)
    = pv (t_cache table_with_key_1) (base, 0, 1 + NUM_INTERNAL_COLUMN) /\
  outside_pool (snd (Query_select 8 1 0 [1; 1; 1] table_with_key_1))
    = outside_pool table_with_key_1.
Proof.
  split; [vm_compute; reflexivity|].
  destruct (select_leaves_the_table 9 8 1 0 [1; 1; 1] table_with_key_1
              table_with_key_1_wfx) as (Hwf & Hpv & _ & Hout).
  split; [exact Hwf|]. split; [apply Hpv | exact Hout].
Defined.
